(** * pgdatadiff: a shallow embedding of [DBDiff] and its comparison engines

    The development follows [pgdatadiff/pgdatadiff.py] and [pgdatadiff/main.py].

    - PostgreSQL is the external collaborator.  A [database] is a snapshot of
      the catalog: tables with their column names, the columns of their primary
      key constraint and their rows, and the sequences with their [last_value].
      Cells are integers that are not NULL; rows are positional, as in a
      relation.  The snapshot does not change during a run.
    - Every SQL text the program builds has a semantic function here
      ([sql_first_pk], [sql_template_hash], [sql_query_cursor], ...) that follows
      the text of the query clause by clause.  A statement answers with a value
      or with the exception that SQLAlchemy raises: an absent table or column
      and a text that does not parse give [ProgrammingError], a negative
      [LIMIT] gives [DataError].  The scan statements compare [{pk}] with one
      bind parameter, so their text parses only when the key has one column.
      [ORDER BY] is a stable insertion sort; PostgreSQL leaves the order of
      equal keys open, and a primary key has none.
    - [md5] is PostgreSQL's digest function and stays a parameter of the
      whole development.
    - Python code that talks to a session runs in the monad [M]: the state holds
      the transaction status of the two sessions and the log of everything that
      was sent to a session or shown by the spinner, most recent first;
      exceptions are results.  Reflection and the inspector go through the
      engine and leave no trace in the sessions.
    - The [while] loop of [diff_table_data] takes fuel; [scan_fuel_enough] shows
      that the number of rows of the first table plus three is always enough.
    - The two [for] loops of the phases are the one function [for_each]; of the
      spinner only the final [succeed], [warn] or [fail] line is kept. *)

From Stdlib Require Import ZArith List String Ascii Bool Lia Permutation Sorted.
From Stdlib Require Import DecimalString.
Import ListNotations.

Local Open Scope Z_scope.
Local Open Scope list_scope.
Local Open Scope string_scope.

(** ** Python values *)

(** [str(n)] for a Python [int], as an f-string renders it. *)
Definition str_int (z : Z) : string := NilZero.string_of_int (Z.to_int z).

(** [str(x)] for the value of [.scalar()]: [None] when the query has no row,
    else the integer in the first column of the first row. *)
Definition str_scalar (o : option Z) : string :=
  match o with
  | None => "None"
  | Some z => str_int z
  end.

Definition scalar_eqb (a b : option Z) : bool :=
  match a, b with
  | None, None => true
  | Some x, Some y => Z.eqb x y
  | _, _ => false
  end.

Definition digest_eqb (a b : option string) : bool :=
  match a, b with
  | None, None => true
  | Some x, Some y => String.eqb x y
  | _, _ => false
  end.

(** [x in columns] on a list of strings. *)
Fixpoint str_in (x : string) (l : list string) : bool :=
  match l with
  | [] => false
  | y :: l' => String.eqb x y || str_in x l'
  end.

(** [sorted(names)]: ascending, by code points. *)
Fixpoint insert_name (x : string) (l : list string) : list string :=
  match l with
  | [] => [x]
  | y :: l' => if String.leb x y then x :: l else y :: insert_name x l'
  end.

Fixpoint sorted (l : list string) : list string :=
  match l with
  | [] => []
  | x :: l' => insert_name x (sorted l')
  end.

(** The comparison result is the Python pair [(True | False | None, message)]. *)
Definition ret : Type := option bool * string.

Definition Match (r : ret) : Prop := fst r = Some true.
Definition Mismatch (r : ret) : Prop := fst r = Some false.
Definition Inconclusive (r : ret) : Prop := fst r = None.

(** ** The database snapshot *)

Definition row : Type := list Z.

Record table : Type := mkTable {
  columns : list string;               (* inspector.get_columns, in order *)
  constrained_columns : list string;   (* inspector.get_pk_constraint *)
  rows : list row                      (* physical order *)
}.

Record database : Type := mkDatabase {
  tables : list (string * table);      (* the public schema *)
  sequences : list (string * Z)        (* pg_class, relkind 'S': name, last_value *)
}.

Fixpoint assoc {A : Type} (k : string) (l : list (string * A)) : option A :=
  match l with
  | [] => None
  | (k', v) :: l' => if String.eqb k k' then Some v else assoc k l'
  end.

Definition get_table_names (db : database) : list string := map fst (tables db).

(** The value of column [c] in a row laid out as [cols]. *)
Fixpoint cell (cols : list string) (r : row) (c : string) : Z :=
  match cols, r with
  | c' :: cols', v :: r' => if String.eqb c c' then v else cell cols' r' c
  | _, _ => 0
  end.

(** Exceptions that the modelled code can meet. *)
Inductive exn : Type :=
| NoSuchTableError    (* sqlalchemy.exc: reflection of an absent table *)
| ProgrammingError    (* sqlalchemy.exc: syntax error, undefined table or column *)
| DataError           (* sqlalchemy.exc: negative LIMIT *)
| InternalError       (* sqlalchemy.exc: statement in an aborted transaction *)
| TypeError.          (* Python: iterating None *)

Inductive result (A : Type) : Type :=
| Val (a : A)
| Exc (e : exn)
| OutOfFuel.

Arguments Val {A} a.
Arguments Exc {A} e.
Arguments OutOfFuel {A}.

(** What the server answers to one statement. *)
Inductive answer (A : Type) : Type :=
| Ok (a : A)
| Error (e : exn).

Arguments Ok {A} a.
Arguments Error {A} e.

(** ** SQL clauses *)

Section Clauses.
Context {A : Type} (key : A -> Z).

(** [WHERE pk >= :cursor]; a NULL cursor selects nothing. *)
Definition where_ge (cursor : option Z) (l : list A) : list A :=
  match cursor with
  | None => []
  | Some c => filter (fun r => Z.leb c (key r)) l
  end.

(** [ORDER BY pk ASC]. *)
Fixpoint insert_by (r : A) (l : list A) : list A :=
  match l with
  | [] => [r]
  | x :: l' => if Z.leb (key r) (key x) then r :: l else x :: insert_by r l'
  end.

Fixpoint order_by (l : list A) : list A :=
  match l with
  | [] => []
  | r :: l' => insert_by r (order_by l')
  end.

(** [ORDER BY pk DESC]. *)
Definition order_by_desc (l : list A) : list A := rev (order_by l).

(** [LIMIT :row_limit], for a limit that is not negative. *)
Definition limit (row_limit : Z) (l : list A) : list A :=
  firstn (Z.to_nat row_limit) l.

(** The inner query shared by the digest and the cursor statements:
    [WHERE pk >= :cursor ORDER BY pk ASC LIMIT :row_limit]. *)
Definition window (cursor : option Z) (row_limit : Z) (l : list A) : list A :=
  limit row_limit (order_by (where_ge cursor l)).
End Clauses.

(** [(a, b, c)::varchar] and [array::varchar]. *)
Definition record_out (vs : list Z) : string :=
  "(" ++ String.concat "," (map str_int vs) ++ ")".

Definition array_out (xs : list string) : string :=
  "{" ++ String.concat "," xs ++ "}".

(** ** Statements, sessions, the log and the monad *)

(** [columns] of the digest statement: [None] is [t.*], [Some l] is the
    explicit select list. *)
Inductive statement : Type :=
| QueryCount (tablename : string)
| SQL_QUERY_FIRST_PK (tablename : string) (pk : list string)
| SQL_TEMPLATE_HASH (tablename : string) (pk : list string)
    (columns : option (list string)) (cursor : option Z) (row_limit : Z)
| SQL_QUERY_CURSOR (tablename : string) (pk : list string)
    (cursor : option Z) (row_limit : Z)
| GET_SEQUENCES_SQL
| GET_SEQUENCES_VALUE_SQL (seq_name : string).

Inductive side : Type := First | Second.

Inductive txn_state : Type := Idle | Active | Aborted.

Inductive event : Type :=
| Executed (sd : side) (q : statement)
| RolledBack (sd : side)
| Print (text : string)
| Succeed (text : string)
| Warn (text : string)
| Fail (text : string).

(** The log is kept most recent event first. *)
Record state : Type := mkState {
  first_txn : txn_state;
  second_txn : txn_state;
  log : list event
}.

Definition M (A : Type) : Type := state -> result A * state.

Definition mret {A : Type} (a : A) : M A := fun st => (Val a, st).

Definition bind {A B : Type} (m : M A) (f : A -> M B) : M B :=
  fun st =>
    match m st with
    | (Val a, st') => f a st'
    | (Exc e, st') => (Exc e, st')
    | (OutOfFuel, st') => (OutOfFuel, st')
    end.

Notation "x <- m ;; k" := (bind m (fun x => k))
  (at level 61, m at next level, right associativity).
Notation "m ;; k" := (bind m (fun _ => k))
  (at level 61, right associativity).

Definition raise {A : Type} (e : exn) : M A := fun st => (Exc e, st).

Definition exn_eqb (a b : exn) : bool :=
  match a, b with
  | NoSuchTableError, NoSuchTableError
  | ProgrammingError, ProgrammingError
  | DataError, DataError
  | InternalError, InternalError
  | TypeError, TypeError => true
  | _, _ => false
  end.

(** [try: m except e0: handler]. *)
Definition try_except {A : Type} (m : M A) (e0 : exn) (handler : M A) : M A :=
  fun st =>
    match m st with
    | (Exc e, st') => if exn_eqb e e0 then handler st' else (Exc e, st')
    | other => other
    end.

Definition txn_of (sd : side) (st : state) : txn_state :=
  match sd with
  | First => first_txn st
  | Second => second_txn st
  end.

Definition set_txn (sd : side) (t : txn_state) (st : state) : state :=
  match sd with
  | First => mkState t (second_txn st) (log st)
  | Second => mkState (first_txn st) t (log st)
  end.

Definition add_log (e : event) (st : state) : state :=
  mkState (first_txn st) (second_txn st) (e :: log st).

Definition emit (e : event) : M unit := fun st => (Val tt, add_log e st).

(** A statement sent through a session.  A session whose transaction is
    aborted refuses it; a statement that fails aborts the transaction. *)
Definition session_execute {A : Type} (db : database) (sd : side)
    (q : statement) (sem : database -> answer A) : M A :=
  fun st =>
    match txn_of sd st with
    | Aborted => (Exc InternalError, st)
    | _ =>
        match sem db with
        | Ok a => (Val a, add_log (Executed sd q) (set_txn sd Active st))
        | Error e => (Exc e, add_log (Executed sd q) (set_txn sd Aborted st))
        end
    end.

(** [session.rollback()]. *)
Definition rollback (sd : side) : M unit :=
  fun st => (Val tt, add_log (RolledBack sd) (set_txn sd Idle st)).

(** [Table(tablename, meta, autoload=True)]: reflection goes through the
    engine, not through the session. *)
Definition Table (db : database) (tablename : string) : M table :=
  match assoc tablename (tables db) with
  | Some t => mret t
  | None => raise NoSuchTableError
  end.

(** [inspector.get_pk_constraint(tablename)['constrained_columns']]. *)
Definition get_pk_constraint (db : database) (tablename : string) : M (list string) :=
  match assoc tablename (tables db) with
  | Some t => mret (constrained_columns t)
  | None => raise NoSuchTableError
  end.

(** [[x["name"] for x in inspector.get_columns(tablename)]]. *)
Definition get_columns (db : database) (tablename : string) : M (list string) :=
  match assoc tablename (tables db) with
  | Some t => mret (columns t)
  | None => raise NoSuchTableError
  end.

(** ** Meaning of the statements on a snapshot *)

(** [Query.count()]: SELECT count( * ) over the table. *)
Definition sql_count (db : database) (tablename : string) : answer nat :=
  match assoc tablename (tables db) with
  | None => Error ProgrammingError
  | Some t => Ok (List.length (rows t))
  end.

(** [SELECT {pk} FROM {tablename} ORDER BY {pk} LIMIT 1], then [.scalar()].
    [scalar] keeps the first selected column; the least tuple of the
    lexicographic order carries the least value of that column. *)
Definition sql_first_pk (db : database) (tablename : string)
    (pk : list string) : answer (option Z) :=
  match assoc tablename (tables db) with
  | None => Error ProgrammingError
  | Some t =>
      match pk with
      | [] => Error ProgrammingError
      | p :: _ =>
          if forallb (fun c => str_in c (columns t)) pk
          then Ok (hd_error (map (fun r => cell (columns t) r p)
                                (limit 1 (order_by (fun r => cell (columns t) r p)
                                            (rows t)))))
          else Error ProgrammingError
      end
  end.

(** [SELECT {pk} FROM (... WHERE {pk} >= :cursor ORDER BY {pk} ASC
    LIMIT :row_limit) s ORDER BY {pk} DESC LIMIT 1], then [.scalar()].
    [WHERE {pk} >= :cursor] parses only when [pk] names one column. *)
Definition sql_query_cursor (db : database) (tablename : string)
    (pk : list string) (cursor : option Z) (row_limit : Z) : answer (option Z) :=
  match assoc tablename (tables db) with
  | None => Error ProgrammingError
  | Some t =>
      match pk with
      | [p] =>
          if str_in p (columns t)
          then
            if Z.ltb row_limit 0 then Error DataError
            else Ok (hd_error
                        (limit 1
                           (order_by_desc (fun k => k)
                              (map (fun r => cell (columns t) r p)
                                 (window (fun r => cell (columns t) r p)
                                    cursor row_limit (rows t))))))
          else Error ProgrammingError
      | _ => Error ProgrammingError
      end
  end.

(** [SELECT c.relname FROM pg_class c WHERE c.relkind = 'S']. *)
Definition sql_get_sequences (db : database) : answer (list string) :=
  Ok (map fst (sequences db)).

(** [SELECT last_value FROM {seq_name}], then [.fetchone()[0]]. *)
Definition sql_sequence_value (db : database) (seq_name : string) : answer Z :=
  match assoc seq_name (sequences db) with
  | None => Error ProgrammingError
  | Some v => Ok v
  end.

(** The select list of the digest statement, resolved against a table. *)
Definition select_list (t : table) (cols : option (list string)) : list string :=
  match cols with
  | None => columns t
  | Some l => l
  end.

(** What the digest sees of one row. *)
Definition digest_input (t : table) (cols : option (list string)) (r : row) : list Z :=
  map (cell (columns t) r) (select_list t cols).

(** ** The class [DBDiff] *)

Record DBDiff : Type := mkDBDiff {
  firstdb : database;
  seconddb : database;
  chunk_size : Z;
  count_only : bool;
  check_columns : option (list string)
}.

(** [DBDiff(firstdb, seconddb)] with the defaults of [__init__]. *)
Definition DBDiff_default (firstdb seconddb : database) : DBDiff :=
  mkDBDiff firstdb seconddb 10000 false None.

Definition session_db (self : DBDiff) (sd : side) : database :=
  match sd with
  | First => firstdb self
  | Second => seconddb self
  end.

Definition str_nat (n : nat) : string := str_int (Z.of_nat n).

Section Engine.
(** PostgreSQL's [md5(text)]. *)
Variable md5 : string -> string.

(** [md5(array_agg(md5((columns)::varchar))::varchar)]; the aggregate of no
    row is NULL. *)
Definition chunk_digest (inputs : list (list Z)) : option string :=
  match inputs with
  | [] => None
  | _ => Some (md5 (array_out (map (fun vs => md5 (record_out vs)) inputs)))
  end.

(** The digest statement.  [WHERE {pk} >= :cursor] parses only when [pk]
    names one column. *)
Definition sql_template_hash (db : database) (tablename : string)
    (pk : list string) (cols : option (list string)) (cursor : option Z)
    (row_limit : Z) : answer (option string) :=
  match assoc tablename (tables db) with
  | None => Error ProgrammingError
  | Some t =>
      match pk with
      | [p] =>
          if str_in p (columns t)
             && forallb (fun c => str_in c (columns t)) (select_list t cols)
          then
            if Z.ltb row_limit 0 then Error DataError
            else Ok (chunk_digest
                        (map (digest_input t cols)
                           (window (fun r => cell (columns t) r p)
                              cursor row_limit (rows t))))
          else Error ProgrammingError
      | _ => Error ProgrammingError
      end
  end.

(** *** Statements as the methods send them *)

Definition query_count (self : DBDiff) (sd : side) (tablename : string) : M nat :=
  session_execute (session_db self sd) sd (QueryCount tablename)
    (fun db => sql_count db tablename).

Definition execute_first_pk (self : DBDiff) (sd : side) (tablename : string)
    (pk : list string) : M (option Z) :=
  session_execute (session_db self sd) sd (SQL_QUERY_FIRST_PK tablename pk)
    (fun db => sql_first_pk db tablename pk).

Definition execute_hash (self : DBDiff) (sd : side) (tablename : string)
    (pk : list string) (cols : option (list string)) (cursor : option Z)
    : M (option string) :=
  session_execute (session_db self sd) sd
    (SQL_TEMPLATE_HASH tablename pk cols cursor (chunk_size self))
    (fun db => sql_template_hash db tablename pk cols cursor (chunk_size self)).

Definition execute_cursor (self : DBDiff) (tablename : string)
    (pk : list string) (cursor : option Z) : M (option Z) :=
  session_execute (firstdb self) First
    (SQL_QUERY_CURSOR tablename pk cursor (chunk_size self))
    (fun db => sql_query_cursor db tablename pk cursor (chunk_size self)).

Definition execute_sequence_value (self : DBDiff) (sd : side)
    (seq_name : string) : M Z :=
  session_execute (session_db self sd) sd (GET_SEQUENCES_VALUE_SQL seq_name)
    (fun db => sql_sequence_value db seq_name).

(** *** [diff_table_data] *)

(** The body of the [try] block.  It either returns ([inl]) or falls
    through with the primary key columns ([inr]). *)
Definition validate (self : DBDiff) (tablename : string)
    : M (ret + list string) :=
  firsttable <- Table (firstdb self) tablename ;;
  secondtable <- Table (seconddb self) tablename ;;
  c1 <- query_count self First tablename ;;
  c2 <- query_count self Second tablename ;;
  if negb (Nat.eqb c1 c2) then
    a <- query_count self First tablename ;;
    b <- query_count self Second tablename ;;
    mret (inl (Some false,
               "counts are different " ++ str_nat a ++ " != " ++ str_nat b))
  else
    c <- query_count self First tablename ;;
    if Nat.eqb c 0 then mret (inl (None, "tables are empty"))
    else if count_only self then mret (inl (Some true, "Counts are the same"))
    else
      pk_columns <- get_pk_constraint (firstdb self) tablename ;;
      let pk := String.concat "," pk_columns in
      if String.eqb pk "" then
        mret (inl (None,
                   "no primary key(s) on this table. Comparison is not possible."))
      else
        columns <- get_columns (firstdb self) tablename ;;
        match check_columns self with
        | None => raise TypeError
        | Some checked =>
            let columns := filter (fun x => str_in x columns) checked in
            if negb (Nat.eqb (List.length columns) (List.length checked))
            then mret (inl (None, "missing checked columns"))
            else mret (inr pk_columns)
        end.

(** [columns] of the digest statement: [if self.check_columns:]. *)
Definition hash_columns (self : DBDiff) (pk : list string) : option (list string) :=
  match check_columns self with
  | Some (c :: checked) => Some (pk ++ c :: checked)%list
  | _ => None
  end.

(** [while prev_cursor != cursor: ...] *)
Fixpoint scan (self : DBDiff) (tablename : string) (pk : list string)
    (fuel : nat) (prev_cursor cursor : option Z) : M ret :=
  match fuel with
  | O => fun st => (OutOfFuel, st)
  | S fuel' =>
      if scalar_eqb prev_cursor cursor then mret (Some true, "data is identical.")
      else
        firstresult <- execute_hash self First tablename pk
                         (hash_columns self pk) cursor ;;
        secondresult <- execute_hash self Second tablename pk
                          (hash_columns self pk) cursor ;;
        if negb (digest_eqb firstresult secondresult) then
          mret (Some false,
                "data is different - start_cursor " ++ str_scalar cursor
                ++ " - with " ++ str_int (chunk_size self))
        else
          next <- execute_cursor self tablename pk cursor ;;
          scan self tablename pk fuel' cursor next
  end.

Definition diff_table_data (self : DBDiff) (fuel : nat) (tablename : string)
    : M ret :=
  r <- try_except (validate self tablename) NoSuchTableError
         (mret (inl (Some false, "table is missing"))) ;;
  match r with
  | inl early => mret early
  | inr pk =>
      cursor <- execute_first_pk self First tablename pk ;;
      second_cursor <- execute_first_pk self Second tablename pk ;;
      if negb (scalar_eqb cursor second_cursor) then
        mret (Some false, "first primary keys are different")
      else scan self tablename pk fuel None cursor
  end.

(** *** Sequences *)

Definition get_all_sequences (self : DBDiff) : M (list string) :=
  session_execute (firstdb self) First GET_SEQUENCES_SQL sql_get_sequences.

Definition diff_sequence (self : DBDiff) (seq_name : string) : M ret :=
  r <- try_except
         (firstvalue <- execute_sequence_value self First seq_name ;;
          secondvalue <- execute_sequence_value self Second seq_name ;;
          mret (inr (firstvalue, secondvalue)))
         ProgrammingError
         (rollback First ;;
          rollback Second ;;
          mret (inl (Some false, "sequence doesnt exist in second database."))) ;;
  match r with
  | inl early => mret early
  | inr (firstvalue, secondvalue) =>
      if Z.ltb firstvalue secondvalue then
        mret (None,
              "first sequence is less than the second(" ++ str_int firstvalue
              ++ " vs " ++ str_int secondvalue ++ ").")
      else if Z.gtb firstvalue secondvalue then
        mret (Some false,
              "first sequence is greater than the second(" ++ str_int firstvalue
              ++ " vs " ++ str_int secondvalue ++ ").")
      else mret (Some true,
                 "sequences are identical- (" ++ str_int firstvalue ++ ").")
  end.

(** *** The two phases *)

(** What the spinner shows for one unit: [succeed], [warn] or [fail] with
    the text [f"{unit} - {message}"]. *)
Definition spinner_event (unit : string) (r : ret) : event :=
  match fst r with
  | Some true => Succeed (unit ++ " - " ++ snd r)
  | None => Warn (unit ++ " - " ++ snd r)
  | Some false => Fail (unit ++ " - " ++ snd r)
  end.

Definition is_failure (r : ret) : bool :=
  match fst r with
  | Some false => true
  | _ => false
  end.

(** [for unit in units: ...] with the counter [failures]. *)
Fixpoint for_each (diff : string -> M ret) (units : list string)
    (failures : nat) : M nat :=
  match units with
  | [] => mret failures
  | unit :: rest =>
      r <- diff unit ;;
      emit (spinner_event unit r) ;;
      for_each diff rest (if is_failure r then S failures else failures)
  end.

Definition diff_all_sequences (self : DBDiff) : M Z :=
  emit (Print "Starting sequence analysis.") ;;
  names <- get_all_sequences self ;;
  let sequences := sorted names in
  failures <- for_each (diff_sequence self) sequences 0 ;;
  emit (Print "Sequence analysis complete.") ;;
  if Nat.ltb 0 failures then mret 1 else mret 0.

Definition diff_all_table_data (self : DBDiff) (fuel : nat) : M Z :=
  emit (Print "Starting table analysis.") ;;
  let tables := sorted (get_table_names (firstdb self)) in
  failures <- for_each (diff_table_data self fuel) tables 0 ;;
  emit (Print "Table analysis complete.") ;;
  if Nat.ltb 0 failures then mret 1 else mret 0.

(** *** [main] *)

(** The parsed command line; [--chunk-size] is held as the integer that
    [int(...)] makes of it, [--check-columns] is a list (empty when the
    flag is not given). *)
Record arguments : Type := mkArguments {
  arg_firstdb : string;
  arg_seconddb : string;
  arg_only_data : bool;
  arg_only_sequences : bool;
  arg_count_only : bool;
  arg_chunk_size : Z;
  arg_check_columns : list string
}.

(** [connect] gives the snapshot behind a connection string. *)
Definition main (connect : string -> database) (args : arguments)
    (fuel : nat) : M Z :=
  emit (Print "Using custom pgatadiff") ;;
  if negb (String.prefix "postgres://" (arg_firstdb args))
     || negb (String.prefix "postgres://" (arg_seconddb args))
  then
    emit (Print "Only Postgres DBs are supported") ;;
    mret 1
  else
    let differ := mkDBDiff (connect (arg_firstdb args)) (connect (arg_seconddb args))
                    (arg_chunk_size args) (arg_count_only args)
                    (Some (arg_check_columns args)) in
    data <- (if negb (arg_only_sequences args)
             then diff_all_table_data differ fuel else mret 0) ;;
    if negb (Z.eqb data 0) then mret 1
    else
      seqs <- (if negb (arg_only_data args)
               then diff_all_sequences differ else mret 0) ;;
      if negb (Z.eqb seqs 0) then mret 1 else mret 0.
End Engine.

(** ** Vocabulary of the statements *)

(** *** Sessions and states *)

(** Both sessions can still run statements. *)
Definition healthy (st : state) : Prop := forall sd, txn_of sd st <> Aborted.

(** The state a session pair starts in. *)
Definition fresh : state := mkState Idle Idle [].

(** The state after the three [count()] calls of a table whose counts agree. *)
Definition counted (tablename : string) (st : state) : state :=
  mkState Active Active
    (Executed First (QueryCount tablename)
     :: Executed Second (QueryCount tablename)
     :: Executed First (QueryCount tablename) :: log st).

(** [m] always answers: it never runs out of fuel. *)
Definition total {A : Type} (m : M A) : Prop :=
  forall st, fst (m st) <> OutOfFuel.

(** [m] only appends events, and each of them satisfies [P]. *)
Definition emits {A : Type} (P : event -> Prop) (m : M A) : Prop :=
  forall st r st', m st = (r, st') ->
    exists evs, log st' = (evs ++ log st)%list /\ Forall P evs.

(** *** Keys, windows and content *)

(** Ascending order of keys. *)
Definition key_le {A : Type} (key : A -> Z) (a b : A) : Prop := key a <= key b.

(** The key of a row: its value in column [p]. *)
Definition key_of (t : table) (p : string) (r : row) : Z := cell (columns t) r p.

(** What a digest statement reads of a row: its key and the selected cells. *)
Definition view (t : table) (p : string) (cols : option (list string)) (r : row)
    : Z * list Z :=
  (key_of t p r, digest_input t cols r).

(** The same content in the selected columns: the two tables hold the same
    keyed rows, in any physical order. *)
Definition same_content (t1 t2 : table) (p : string) (cols : option (list string))
    : Prop :=
  Permutation (map (view t1 p cols) (rows t1)) (map (view t2 p cols) (rows t2)).

(** *** The statements of one table *)

(** The statements of one turn of the scan loop, and the digest a side
    answers with. *)
Definition hash_stmt (self : DBDiff) (tablename : string) (pk : list string)
    (cursor : option Z) : statement :=
  SQL_TEMPLATE_HASH tablename pk (hash_columns self pk) cursor (chunk_size self).

Definition cursor_stmt (self : DBDiff) (tablename : string) (pk : list string)
    (cursor : option Z) : statement :=
  SQL_QUERY_CURSOR tablename pk cursor (chunk_size self).

Definition hash_on (md5 : string -> string) (self : DBDiff) (tablename : string)
    (pk : list string) (sd : side) (cursor : option Z) : answer (option string) :=
  sql_template_hash md5 (session_db self sd) tablename pk (hash_columns self pk)
    cursor (chunk_size self).

Definition count_event (tablename : string) (e : event) : Prop :=
  exists sd, e = Executed sd (QueryCount tablename).


(** The statements of the scan loop over the key columns [pk]. *)
Definition scan_event (self : DBDiff) (tablename : string) (pk : list string)
    (e : event) : Prop :=
  exists sd c, e = Executed sd (hash_stmt self tablename pk c)
               \/ e = Executed sd (cursor_stmt self tablename pk c).

(** The statements that the comparison of one table may send. *)
Definition table_statement (self : DBDiff) (tablename : string) (q : statement)
    : Prop :=
  q = QueryCount tablename
  \/ (exists pk, q = SQL_QUERY_FIRST_PK tablename pk)
  \/ (exists pk c, q = hash_stmt self tablename pk c)
  \/ (exists pk c, q = cursor_stmt self tablename pk c).

Definition table_event (self : DBDiff) (tablename : string) (e : event) : Prop :=
  exists sd q, e = Executed sd q /\ table_statement self tablename q.

(** *** Turns of the scan loop *)

(** Rows of the first table that lie strictly after the cursor. *)
Definition rows_after (self : DBDiff) (tablename : string) (pk : list string)
    (cursor : option Z) : nat :=
  match cursor, assoc tablename (tables (firstdb self)), pk with
  | Some c, Some t, [p] =>
      List.length (filter (fun r => Z.ltb c (key_of t p r)) (rows t))
  | _, _, _ => 0%nat
  end.

(** Turns of the loop that are enough from a cursor on. *)
Definition turns_needed (self : DBDiff) (tablename : string) (pk : list string)
    (cursor : option Z) : nat :=
  match cursor with
  | None => 2%nat
  | Some _ => (3 + rows_after self tablename pk cursor)%nat
  end.

(** Fuel that is enough for any scan of a table. *)
Definition fuel_bound (self : DBDiff) (tablename : string) : nat :=
  match assoc tablename (tables (firstdb self)) with
  | Some t => (3 + List.length (rows t))%nat
  | None => 3%nat
  end.

(** *** Phases *)

(** The statements and rollbacks that the comparison of one sequence may
    send. *)
Definition sequence_event (seq_name : string) (e : event) : Prop :=
  exists sd, e = Executed sd (GET_SEQUENCES_VALUE_SQL seq_name) \/ e = RolledBack sd.

(** The units of a phase, one after the other: [results] are the answers of
    [diff] in the order of [units], from the state [st] to the state [st'];
    each unit is followed by its spinner line. *)
Fixpoint processed (diff : string -> M ret) (units : list string)
    (results : list ret) (st st' : state) : Prop :=
  match units, results with
  | [], [] => st' = st
  | unit :: units', r :: results' =>
      exists st1,
        diff unit st = (Val r, st1)
        /\ processed diff units' results' (add_log (spinner_event unit r) st1) st'
  | _, _ => False
  end.

Definition count_failures (results : list ret) : nat :=
  List.length (filter is_failure results).

(** The exit status of a phase. *)
Definition status_of (failures : nat) : Z := if Nat.ltb 0 failures then 1 else 0.

Definition names_le (a b : string) : Prop := String.leb a b = true.

(** The same comparison against another second source. *)
Definition with_second (self : DBDiff) (db : database) : DBDiff :=
  mkDBDiff (firstdb self) db (chunk_size self) (count_only self) (check_columns self).

(** What the table phase may log: banners, and statements and spinner lines
    about tables of the first catalog. *)
Definition table_phase_event (self : DBDiff) (e : event) : Prop :=
  (exists text, e = Print text)
  \/ exists unit,
       In unit (get_table_names (firstdb self))
       /\ (table_event self unit e \/ exists r, e = spinner_event unit r).

(** What the sequence phase may log: banners, the catalog statement on the
    first session, and statements, rollbacks and spinner lines about
    sequences of the first catalog. *)
Definition sequence_phase_event (self : DBDiff) (e : event) : Prop :=
  (exists text, e = Print text)
  \/ e = Executed First GET_SEQUENCES_SQL
  \/ exists unit,
       In unit (map fst (sequences (firstdb self)))
       /\ (sequence_event unit e \/ exists r, e = spinner_event unit r).

(** ** Fixtures *)

Module Fixture.

(** A collision-free stand-in for [md5], to run the embedding on examples. *)
Definition plain_digest (s : string) : string := s.

Definition ledger_a : table :=
  mkTable ["id"; "amount"] ["id"] [[2; 20]; [1; 10]; [3; 30]].

(** Same keys as [ledger_a], another amount in the last row. *)
Definition ledger_b : table :=
  mkTable ["id"; "amount"] ["id"] [[1; 10]; [2; 20]; [3; 31]].

(** Tables without a primary key, equal counts, different content. *)
Definition notes_a : table := mkTable ["body"] [] [[7]; [8]].
Definition notes_b : table := mkTable ["body"] [] [[7]; [9]].

(** A table with a two-column primary key, the same in both sources. *)
Definition links : table := mkTable ["a"; "b"] ["a"; "b"] [[1; 1]; [1; 2]].

(** The key column of the first source has another name in the second. *)
Definition events_a : table := mkTable ["id"; "v"] ["id"] [[1; 5]].
Definition events_b : table := mkTable ["key"; "v"] ["key"] [[1; 5]].

Definition source_a : database :=
  mkDatabase
    [("ledger", ledger_a); ("notes", notes_a); ("links", links); ("events", events_a)]
    [("s_same", 5); ("s_lag", 3); ("s_lead", 5); ("s_gone", 9)].

Definition source_b : database :=
  mkDatabase
    [("ledger", ledger_b); ("notes", notes_b); ("links", links); ("events", events_b)]
    [("s_same", 5); ("s_lag", 5); ("s_lead", 3)].

(** A ledger whose first key comes later than in [ledger_a]. *)
Definition ledger_late : table :=
  mkTable ["id"; "amount"] ["id"] [[4; 40]; [2; 20]; [3; 30]].

Definition source_late : database := mkDatabase [("ledger", ledger_late)] [].

(** The rows of [ledger_a] in another physical order. *)
Definition ledger_mirror : table :=
  mkTable ["id"; "amount"] ["id"] [[1; 10]; [2; 20]; [3; 30]].

Definition source_mirror : database := mkDatabase [("ledger", ledger_mirror)] [].

(** The command line gives a list of checked columns, here the empty one. *)
Definition differ : DBDiff := mkDBDiff source_a source_b 10000 false (Some []).
Definition differ_count_only : DBDiff := mkDBDiff source_a source_b 10000 true (Some []).

(** A first source with one table and one sequence, and a second source that
    holds them too, next to a table and a sequence of its own. *)
Definition source_small : database :=
  mkDatabase [("ledger", ledger_a)] [("s_same", 5)].

Definition source_small_extra : database :=
  mkDatabase [("audit", notes_a); ("ledger", ledger_mirror)]
    [("audit_seq", 1); ("s_same", 5)].

Definition connect (connection_string : string) : database :=
  if String.eqb connection_string "postgres://first" then source_small
  else source_small_extra.

Definition command_line : arguments :=
  mkArguments "postgres://first" "postgres://second" false false false 2 [].

End Fixture.

(** ** Vocabulary of the further properties *)

(** What a result tells about the sessions: a statement that fails leaves
    its session in an aborted transaction, every other result leaves both
    sessions able to run statements; [InternalError] is what a session in an
    aborted transaction answers. *)
Definition health_after {A : Type} (r : result A) (st' : state) : Prop :=
  match r with
  | Exc ProgrammingError | Exc DataError => ~ healthy st'
  | Exc InternalError => False
  | _ => healthy st'
  end.

Definition tracks_health {A : Type} (m : M A) : Prop :=
  forall st r st', healthy st -> m st = (r, st') -> health_after r st'.

(** The exceptions that [m] can raise. *)
Definition raises_in {A : Type} (P : exn -> Prop) (m : M A) : Prop :=
  forall st e st', m st = (Exc e, st') -> P e.

(** The errors of a statement. *)
Definition statement_error (e : exn) : Prop :=
  e = ProgrammingError \/ e = DataError.


(** The state after the four [count()] calls of a table whose counts differ. *)
Definition recounted (tablename : string) (st : state) : state :=
  mkState Active Active
    (Executed Second (QueryCount tablename)
     :: Executed First (QueryCount tablename)
     :: Executed Second (QueryCount tablename)
     :: Executed First (QueryCount tablename) :: log st).

(** The state after the two first-key statements of a table whose checks
    passed. *)
Definition keyed (tablename : string) (pk : list string) (st : state) : state :=
  mkState Active Active
    (Executed Second (SQL_QUERY_FIRST_PK tablename pk)
     :: Executed First (SQL_QUERY_FIRST_PK tablename pk)
     :: log (counted tablename st)).

(** The reason of a Mismatch found by the scan. *)
Definition data_differs (self : DBDiff) (cursor : option Z) : string :=
  "data is different - start_cursor " ++ str_scalar cursor
  ++ " - with " ++ str_int (chunk_size self).

(** The rows that the digest statement at [cursor] reads of a table. *)
Definition chunk (self : DBDiff) (t : table) (p : string) (cursor : option Z)
    : list row :=
  window (key_of t p) cursor (chunk_size self) (rows t).

(** The state after the two digest statements of a turn of the scan loop, and
    after its cursor statement. *)
Definition digested (self : DBDiff) (tablename : string) (pk : list string)
    (cursor : option Z) (st : state) : state :=
  add_log (Executed Second (hash_stmt self tablename pk cursor))
    (set_txn Second Active
       (add_log (Executed First (hash_stmt self tablename pk cursor))
          (set_txn First Active st))).

Definition advanced (self : DBDiff) (tablename : string) (pk : list string)
    (cursor : option Z) (st : state) : state :=
  add_log (Executed First (cursor_stmt self tablename pk cursor))
    (set_txn First Active (digested self tablename pk cursor st)).


(** The comparison that [main] builds from the command line. *)
Definition differ_of (connect : string -> database) (args : arguments) : DBDiff :=
  mkDBDiff (connect (arg_firstdb args)) (connect (arg_seconddb args))
    (arg_chunk_size args) (arg_count_only args) (Some (arg_check_columns args)).

(** Both connection strings start with [postgres://]. *)
Definition postgres_urls (args : arguments) : bool :=
  String.prefix "postgres://" (arg_firstdb args)
  && String.prefix "postgres://" (arg_seconddb args).

(** The state in which [main] starts its first phase. *)
Definition greeted (st : state) : state :=
  add_log (Print "Using custom pgatadiff") st.

(** ** More fixtures *)

Module Sample.

(** A second source whose ledger has another amount in its last row. *)
Definition source_changed : database :=
  mkDatabase [("ledger", Fixture.ledger_b)] [("s_same", 5)].

Definition connect_changed (connection_string : string) : database :=
  if String.eqb connection_string "postgres://first" then Fixture.source_small
  else source_changed.


Definition sequences_only : arguments :=
  mkArguments "postgres://first" "postgres://second" false true false 2 [].

(** The scheme [postgresql://] on the first connection string. *)
Definition other_scheme : arguments :=
  mkArguments "postgresql://first" "postgres://second" false false false 2 [].



Definition ledgers (row_limit : Z) : DBDiff :=
  mkDBDiff Fixture.source_a Fixture.source_b row_limit false (Some []).

Definition mirrored : DBDiff :=
  mkDBDiff Fixture.source_a Fixture.source_mirror 2 false (Some []).

End Sample.

(** * Properties *)

(** ** Booleans of the embedding *)

Lemma scalar_eqb_eq (a b : option Z) : scalar_eqb a b = true <-> a = b.
Proof.
  destruct a as [x|], b as [y|]; simpl; split; intro H;
    try discriminate; try reflexivity.
  - apply Z.eqb_eq in H. now subst.
  - injection H as ->. apply Z.eqb_refl.
Qed.

Lemma scalar_eqb_neq (a b : option Z) : scalar_eqb a b = false <-> a <> b.
Proof.
  rewrite <- scalar_eqb_eq. destruct (scalar_eqb a b); split; intro H;
    try reflexivity; try discriminate; try congruence.
Qed.

Lemma digest_eqb_eq (a b : option string) : digest_eqb a b = true <-> a = b.
Proof.
  destruct a as [x|], b as [y|]; simpl; split; intro H;
    try discriminate; try reflexivity.
  - apply String.eqb_eq in H. now subst.
  - injection H as ->. apply String.eqb_refl.
Qed.

Lemma digest_eqb_neq (a b : option string) : digest_eqb a b = false <-> a <> b.
Proof.
  rewrite <- digest_eqb_eq. destruct (digest_eqb a b); split; intro H;
    try reflexivity; try discriminate; try congruence.
Qed.

Lemma str_in_In (x : string) (l : list string) : str_in x l = true <-> In x l.
Proof.
  induction l as [|y l IH]; simpl.
  - split; [discriminate | tauto].
  - rewrite orb_true_iff, IH, String.eqb_eq. split; intros [H|H]; auto.
Qed.

Lemma str_in_not_In (x : string) (l : list string) : str_in x l = false <-> ~ In x l.
Proof.
  rewrite <- str_in_In. destruct (str_in x l); split; intro H;
    try reflexivity; try discriminate; try congruence.
Qed.

(** ** Sessions that can still run statements *)

Lemma healthy_step (sd : side) (e : event) (st : state) :
  healthy st -> healthy (add_log e (set_txn sd Active st)).
Proof.
  intros H sd'. specialize (H sd').
  destruct sd, sd'; simpl in *; try assumption; discriminate.
Qed.

Lemma healthy_add_log (e : event) (st : state) :
  healthy st -> healthy (add_log e st).
Proof. intros H sd. specialize (H sd). now destruct sd. Qed.

Lemma session_execute_val {A : Type} (db : database) (sd : side) (q : statement)
    (sem : database -> answer A) (a : A) (st : state) :
  healthy st -> sem db = Ok a ->
  session_execute db sd q sem st
  = (Val a, add_log (Executed sd q) (set_txn sd Active st)).
Proof.
  intros H E. unfold session_execute. rewrite E.
  specialize (H sd). now destruct (txn_of sd st).
Qed.

Lemma session_execute_exc {A : Type} (db : database) (sd : side) (q : statement)
    (sem : database -> answer A) (e : exn) (st : state) :
  healthy st -> sem db = Error e ->
  session_execute db sd q sem st
  = (Exc e, add_log (Executed sd q) (set_txn sd Aborted st)).
Proof.
  intros H E. unfold session_execute. rewrite E.
  specialize (H sd). now destruct (txn_of sd st).
Qed.

Lemma bind_val {A B : Type} (m : M A) (f : A -> M B) (a : A) (st st' : state) :
  m st = (Val a, st') -> bind m f st = f a st'.
Proof. intros E. unfold bind. now rewrite E. Qed.

Lemma bind_exc {A B : Type} (m : M A) (f : A -> M B) (e : exn) (st st' : state) :
  m st = (Exc e, st') -> bind m f st = (Exc e, st').
Proof. intros E. unfold bind. now rewrite E. Qed.

(** Run the next statement of a [bind] chain when its meaning is known. *)
Ltac run_val E :=
  erewrite bind_val;
  [ | apply session_execute_val;
      [ repeat (first [ assumption | apply healthy_step | apply healthy_add_log ])
      | exact E ] ].

Ltac run_exc E :=
  erewrite bind_exc;
  [ | apply session_execute_exc;
      [ repeat (first [ assumption | apply healthy_step | apply healthy_add_log ])
      | exact E ] ].

(** ** Sequences *)

Lemma sequence_value_found (db : database) (seq_name : string) (v : Z) :
  assoc seq_name (sequences db) = Some v -> sql_sequence_value db seq_name = Ok v.
Proof. intros E. unfold sql_sequence_value. now rewrite E. Qed.

Lemma sequence_value_missing (db : database) (seq_name : string) :
  assoc seq_name (sequences db) = None ->
  sql_sequence_value db seq_name = Error ProgrammingError.
Proof. intros E. unfold sql_sequence_value. now rewrite E. Qed.

(** Both values read: the outcome is decided by their order alone. *)
Lemma diff_sequence_read (self : DBDiff) (seq_name : string) (a b : Z) (st : state) :
  healthy st ->
  assoc seq_name (sequences (firstdb self)) = Some a ->
  assoc seq_name (sequences (seconddb self)) = Some b ->
  diff_sequence self seq_name st
  = (Val (if Z.ltb a b then
            (None, "first sequence is less than the second(" ++ str_int a
                   ++ " vs " ++ str_int b ++ ").")
          else if Z.gtb a b then
            (Some false, "first sequence is greater than the second(" ++ str_int a
                         ++ " vs " ++ str_int b ++ ").")
          else (Some true, "sequences are identical- (" ++ str_int a ++ ").")),
     mkState Active Active
       (Executed Second (GET_SEQUENCES_VALUE_SQL seq_name)
        :: Executed First (GET_SEQUENCES_VALUE_SQL seq_name) :: log st)).
Proof.
  intros H Ea Eb. unfold diff_sequence.
  erewrite bind_val.
  2:{ unfold try_except, execute_sequence_value.
      run_val (sequence_value_found (session_db self First) seq_name a Ea).
      run_val (sequence_value_found (session_db self Second) seq_name b Eb).
      reflexivity. }
  simpl. destruct (Z.ltb a b); [reflexivity|]. destruct (Z.gtb a b); reflexivity.
Qed.

(** The read fails on the second source: both sessions are rolled back. *)
Lemma diff_sequence_second_missing (self : DBDiff) (seq_name : string) (a : Z)
    (st : state) :
  healthy st ->
  assoc seq_name (sequences (firstdb self)) = Some a ->
  assoc seq_name (sequences (seconddb self)) = None ->
  diff_sequence self seq_name st
  = (Val (Some false, "sequence doesnt exist in second database."),
     mkState Idle Idle
       (RolledBack Second :: RolledBack First
        :: Executed Second (GET_SEQUENCES_VALUE_SQL seq_name)
        :: Executed First (GET_SEQUENCES_VALUE_SQL seq_name) :: log st)).
Proof.
  intros H Ea Eb. unfold diff_sequence.
  erewrite bind_val.
  2:{ unfold try_except, execute_sequence_value.
      run_val (sequence_value_found (session_db self First) seq_name a Ea).
      run_exc (sequence_value_missing (session_db self Second) seq_name Eb).
      reflexivity. }
  reflexivity.
Qed.

(** ** The checks of [diff_table_data] before any key is read *)

Lemma sql_count_found (db : database) (tablename : string) (t : table) :
  assoc tablename (tables db) = Some t ->
  sql_count db tablename = Ok (List.length (rows t)).
Proof. intros E. unfold sql_count. now rewrite E. Qed.

Lemma validate_missing_first (self : DBDiff) (tablename : string) (st : state) :
  assoc tablename (tables (firstdb self)) = None ->
  validate self tablename st = (Exc NoSuchTableError, st).
Proof. intros E. unfold validate, Table. now rewrite E. Qed.

Lemma validate_missing_second (self : DBDiff) (tablename : string) (t1 : table)
    (st : state) :
  assoc tablename (tables (firstdb self)) = Some t1 ->
  assoc tablename (tables (seconddb self)) = None ->
  validate self tablename st = (Exc NoSuchTableError, st).
Proof. intros E1 E2. unfold validate, Table. now rewrite E1, E2. Qed.


(** With equal counts the three [count()] calls are followed by checks that
    send nothing to either session. *)
Lemma validate_counted (self : DBDiff) (tablename : string) (t1 t2 : table)
    (st : state) :
  healthy st ->
  assoc tablename (tables (firstdb self)) = Some t1 ->
  assoc tablename (tables (seconddb self)) = Some t2 ->
  List.length (rows t1) = List.length (rows t2) ->
  validate self tablename st
  = (if Nat.eqb (List.length (rows t1)) 0 then
       mret (inl (None, "tables are empty"))
     else if count_only self then mret (inl (Some true, "Counts are the same"))
     else if String.eqb (String.concat "," (constrained_columns t1)) "" then
       mret (inl (None,
                  "no primary key(s) on this table. Comparison is not possible."))
     else
       match check_columns self with
       | None => raise TypeError
       | Some checked =>
           if negb (Nat.eqb
                      (List.length (filter (fun x => str_in x (columns t1)) checked))
                      (List.length checked))
           then mret (inl (None, "missing checked columns"))
           else mret (inr (constrained_columns t1))
       end) (counted tablename st).
Proof.
  intros H E1 E2 Hn.
  unfold validate, Table. rewrite E1, E2. cbn [bind mret].
  unfold query_count.
  run_val (sql_count_found (session_db self First) tablename t1 E1).
  run_val (sql_count_found (session_db self Second) tablename t2 E2).
  rewrite Hn, Nat.eqb_refl. cbn [negb].
  run_val (sql_count_found (session_db self First) tablename t1 E1).
  rewrite Hn. unfold get_pk_constraint, get_columns. rewrite E1.
  destruct (Nat.eqb (List.length (rows t2)) 0); [reflexivity|].
  destruct (count_only self); [reflexivity|].
  cbn [bind mret].
  destruct (String.eqb (String.concat "," (constrained_columns t1)) "");
    [reflexivity|].
  destruct (check_columns self) as [checked|]; reflexivity.
Qed.

Lemma healthy_counted (tablename : string) (st : state) : healthy (counted tablename st).
Proof. intros [|]; discriminate. Qed.

(** How [diff_table_data] continues after the [try] block. *)
Section AfterValidation.
Variable md5 : string -> string.

Lemma diff_table_data_early (self : DBDiff) (fuel : nat) (tablename : string)
    (r : ret) (st st' : state) :
  validate self tablename st = (Val (inl r), st') ->
  diff_table_data md5 self fuel tablename st = (Val r, st').
Proof.
  intros E. unfold diff_table_data.
  erewrite bind_val; [|unfold try_except; rewrite E; reflexivity].
  reflexivity.
Qed.

Lemma diff_table_data_raise (self : DBDiff) (fuel : nat) (tablename : string)
    (e : exn) (st st' : state) :
  validate self tablename st = (Exc e, st') -> e <> NoSuchTableError ->
  diff_table_data md5 self fuel tablename st = (Exc e, st').
Proof.
  intros E Hne. unfold diff_table_data.
  erewrite bind_exc; [reflexivity|].
  unfold try_except. rewrite E. destruct e; try reflexivity. now elim Hne.
Qed.

Lemma diff_table_data_missing (self : DBDiff) (fuel : nat) (tablename : string)
    (st st' : state) :
  validate self tablename st = (Exc NoSuchTableError, st') ->
  diff_table_data md5 self fuel tablename st
  = (Val (Some false, "table is missing"), st').
Proof.
  intros E. unfold diff_table_data.
  erewrite bind_val; [|unfold try_except; rewrite E; reflexivity].
  reflexivity.
Qed.

Lemma diff_table_data_keys (self : DBDiff) (fuel : nat) (tablename : string)
    (pk : list string) (st st' : state) :
  validate self tablename st = (Val (inr pk), st') ->
  diff_table_data md5 self fuel tablename st
  = (cursor <- execute_first_pk self First tablename pk ;;
     second_cursor <- execute_first_pk self Second tablename pk ;;
     if negb (scalar_eqb cursor second_cursor) then
       mret (Some false, "first primary keys are different")
     else scan md5 self tablename pk fuel None cursor) st'.
Proof.
  intros E. unfold diff_table_data.
  erewrite bind_val; [|unfold try_except; rewrite E; reflexivity].
  reflexivity.
Qed.

End AfterValidation.

(** ** [ORDER BY], [WHERE] and [LIMIT] *)

Lemma firstn_In {A : Type} (n : nat) (x : A) (l : list A) :
  In x (firstn n l) -> In x l.
Proof.
  intros H. rewrite <- (firstn_skipn n l). apply in_or_app. now left.
Qed.

Section ClauseFacts.
Context {A : Type} (key : A -> Z).

Lemma insert_by_perm (r : A) (l : list A) : Permutation (insert_by key r l) (r :: l).
Proof.
  induction l as [|x l IH]; simpl.
  - apply Permutation_refl.
  - destruct (Z.leb (key r) (key x)).
    + apply Permutation_refl.
    + eapply perm_trans; [apply perm_skip, IH | apply perm_swap].
Qed.

Lemma order_by_perm (l : list A) : Permutation (order_by key l) l.
Proof.
  induction l as [|r l IH]; simpl.
  - apply perm_nil.
  - eapply perm_trans; [apply insert_by_perm | apply perm_skip, IH].
Qed.

Lemma order_by_In (x : A) (l : list A) : In x (order_by key l) <-> In x l.
Proof.
  split; apply Permutation_in;
    [apply order_by_perm | apply Permutation_sym, order_by_perm].
Qed.

Lemma order_by_length (l : list A) : List.length (order_by key l) = List.length l.
Proof. apply Permutation_length, order_by_perm. Qed.

Lemma insert_by_sorted (r : A) (l : list A) :
  StronglySorted (key_le key) l -> StronglySorted (key_le key) (insert_by key r l).
Proof.
  induction 1 as [|x l Hs IH Hx]; simpl.
  - repeat constructor.
  - destruct (Z.leb (key r) (key x)) eqn:E.
    + apply Z.leb_le in E. constructor.
      * now constructor.
      * constructor; [exact E|].
        eapply Forall_impl; [|exact Hx]. unfold key_le. intros; lia.
    + apply Z.leb_gt in E. constructor; [exact IH|].
      apply (Permutation_Forall (Permutation_sym (insert_by_perm r l))).
      constructor; [unfold key_le; lia | exact Hx].
Qed.

Lemma order_by_sorted (l : list A) : StronglySorted (key_le key) (order_by key l).
Proof.
  induction l as [|r l IH]; simpl; [constructor | now apply insert_by_sorted].
Qed.

Lemma where_ge_In (c : Z) (x : A) (l : list A) :
  In x (where_ge key (Some c) l) <-> In x l /\ c <= key x.
Proof. unfold where_ge. rewrite filter_In, Z.leb_le. tauto. Qed.

Lemma window_In (cursor : option Z) (row_limit : Z) (x : A) (l : list A) :
  In x (window key cursor row_limit l) -> In x (where_ge key cursor l).
Proof.
  unfold window, limit. intros H. apply order_by_In.
  eapply firstn_In; eassumption.
Qed.

Lemma window_none (row_limit : Z) (l : list A) : window key None row_limit l = [].
Proof. unfold window, limit. simpl. now destruct (Z.to_nat row_limit). Qed.

(** The head of a sorted list is least. *)
Lemma sorted_head_least (x : A) (l : list A) :
  StronglySorted (key_le key) (x :: l) -> forall y, In y (x :: l) -> key x <= key y.
Proof.
  intros Hs y [<-|Hy]; [lia|].
  inversion Hs as [|? ? _ Hall]; subst.
  rewrite Forall_forall in Hall. now apply Hall.
Qed.
End ClauseFacts.

(** ** The first key *)

Lemma limit_one_head {A : Type} (l : list A) : hd_error (limit 1 l) = hd_error l.
Proof. unfold limit. change (Z.to_nat 1) with 1%nat. now destruct l. Qed.

(** [SQL_QUERY_FIRST_PK] answers with the least value of the leading key
    column, and with [None] exactly on a table without rows. *)
Lemma sql_first_pk_min (db : database) (tablename : string) (t : table)
    (p : string) (pk : list string) (o : option Z) :
  assoc tablename (tables db) = Some t ->
  sql_first_pk db tablename (p :: pk) = Ok o ->
  (rows t = [] -> o = None)
  /\ (rows t <> [] ->
      exists m, o = Some m
                /\ In m (map (key_of t p) (rows t))
                /\ forall r, In r (rows t) -> m <= key_of t p r).
Proof.
  intros E H. unfold sql_first_pk in H. rewrite E in H.
  destruct (forallb (fun c => str_in c (columns t)) (p :: pk)); [|discriminate].
  injection H as <-. fold (key_of t p).
  pose proof (order_by_sorted (key_of t p) (rows t)) as Hs.
  assert (Hin : forall r, In r (order_by (key_of t p) (rows t)) -> In r (rows t))
    by (intros r; apply order_by_In).
  pose proof (order_by_length (key_of t p) (rows t)) as Hlen.
  unfold limit. change (Z.to_nat 1) with 1%nat.
  destruct (order_by (key_of t p) (rows t)) as [|x l] eqn:Eo; split; intros Hr.
  - reflexivity.
  - destruct (rows t); [now elim Hr | discriminate].
  - rewrite Hr in Hlen. discriminate.
  - exists (key_of t p x). split; [reflexivity|]. split.
    + apply in_map, Hin. now left.
    + intros r Hrin. apply (sorted_head_least _ x l Hs).
      rewrite <- Eo. now apply order_by_In.
Qed.

Lemma sql_first_pk_found (db : database) (tablename : string) (t : table)
    (p : string) (pk : list string) :
  assoc tablename (tables db) = Some t ->
  forallb (fun c => str_in c (columns t)) (p :: pk) = true ->
  sql_first_pk db tablename (p :: pk)
  = Ok (hd_error (map (key_of t p) (order_by (key_of t p) (rows t)))).
Proof.
  intros E H. unfold sql_first_pk. rewrite E, H. unfold key_of.
  unfold limit. change (Z.to_nat 1) with 1%nat.
  now destruct (order_by _ (rows t)).
Qed.

(** ** One turn of the scan loop *)

Section ScanSteps.
Variable md5 : string -> string.
Variables (self : DBDiff) (tablename : string) (pk : list string).

Lemma scan_exit (fuel : nat) (cursor : option Z) (st : state) :
  scan md5 self tablename pk (S fuel) cursor cursor st
  = (Val (Some true, "data is identical."), st).
Proof.
  simpl. replace (scalar_eqb cursor cursor) with true; [reflexivity|].
  symmetry. now apply scalar_eqb_eq.
Qed.


Lemma scan_step (fuel : nat) (prev cursor next : option Z) (h : option string)
    (st : state) :
  healthy st -> prev <> cursor ->
  hash_on md5 self tablename pk First cursor = Ok h ->
  hash_on md5 self tablename pk Second cursor = Ok h ->
  sql_query_cursor (firstdb self) tablename pk cursor (chunk_size self) = Ok next ->
  scan md5 self tablename pk (S fuel) prev cursor st
  = scan md5 self tablename pk fuel cursor next
      (mkState Active Active
         (Executed First (cursor_stmt self tablename pk cursor)
          :: Executed Second (hash_stmt self tablename pk cursor)
          :: Executed First (hash_stmt self tablename pk cursor) :: log st)).
Proof.
  intros H Hc E1 E2 En. cbn [scan].
  apply scalar_eqb_neq in Hc. rewrite Hc. unfold execute_hash.
  run_val E1. run_val E2.
  replace (digest_eqb h h) with true by (symmetry; now apply digest_eqb_eq).
  cbn [negb]. unfold execute_cursor. run_val En. reflexivity.
Qed.
End ScanSteps.

(** ** Outcomes of the checks *)

Lemma filter_all {A : Type} (f : A -> bool) (l : list A) :
  (forall x, In x l -> f x = true) -> filter f l = l.
Proof.
  induction l as [|x l IH]; simpl; intros H; [reflexivity|].
  rewrite (H x (or_introl eq_refl)). f_equal. apply IH. intros y Hy. apply H. now right.
Qed.

Lemma filter_drops {A : Type} (f : A -> bool) (l : list A) (x : A) :
  In x l -> f x = false -> List.length (filter f l) <> List.length l.
Proof.
  intros Hin Hf Hlen. apply filter_length_forallb in Hlen.
  rewrite forallb_forall in Hlen. rewrite (Hlen x Hin) in Hf. discriminate.
Qed.

Lemma validate_passes (self : DBDiff) (tablename : string) (t1 t2 : table)
    (checked : list string) (st : state) :
  healthy st ->
  assoc tablename (tables (firstdb self)) = Some t1 ->
  assoc tablename (tables (seconddb self)) = Some t2 ->
  List.length (rows t1) = List.length (rows t2) ->
  List.length (rows t1) <> 0%nat ->
  count_only self = false ->
  String.concat "," (constrained_columns t1) <> "" ->
  check_columns self = Some checked ->
  (forall c, In c checked -> In c (columns t1)) ->
  validate self tablename st
  = (Val (inr (constrained_columns t1)), counted tablename st).
Proof.
  intros H E1 E2 Hn Hz Hc Hpk Hch Hin.
  rewrite (validate_counted self tablename t1 t2 st H E1 E2 Hn).
  apply Nat.eqb_neq in Hz. rewrite Hz, Hc.
  apply String.eqb_neq in Hpk. rewrite Hpk, Hch.
  rewrite filter_all, Nat.eqb_refl; [reflexivity|].
  intros c Hcin. apply str_in_In. now apply Hin.
Qed.

Lemma validate_untyped (self : DBDiff) (tablename : string) (t1 t2 : table)
    (st : state) :
  healthy st ->
  assoc tablename (tables (firstdb self)) = Some t1 ->
  assoc tablename (tables (seconddb self)) = Some t2 ->
  List.length (rows t1) = List.length (rows t2) ->
  List.length (rows t1) <> 0%nat ->
  count_only self = false ->
  String.concat "," (constrained_columns t1) <> "" ->
  check_columns self = None ->
  validate self tablename st = (Exc TypeError, counted tablename st).
Proof.
  intros H E1 E2 Hn Hz Hc Hpk Hch.
  rewrite (validate_counted self tablename t1 t2 st H E1 E2 Hn).
  apply Nat.eqb_neq in Hz. rewrite Hz, Hc.
  apply String.eqb_neq in Hpk. rewrite Hpk, Hch. reflexivity.
Qed.

Section Outcomes.
Variable md5 : string -> string.


Lemma diff_table_data_empty (self : DBDiff) (fuel : nat)
    (tablename : string) (t1 t2 : table) (st : state) :
  healthy st ->
  assoc tablename (tables (firstdb self)) = Some t1 ->
  assoc tablename (tables (seconddb self)) = Some t2 ->
  List.length (rows t1) = 0%nat -> List.length (rows t2) = 0%nat ->
  diff_table_data md5 self fuel tablename st
  = (Val (None, "tables are empty"), counted tablename st).
Proof.
  intros H E1 E2 H1 H2. apply diff_table_data_early.
  rewrite (validate_counted self tablename t1 t2 st H E1 E2) by congruence.
  now rewrite H1.
Qed.

Lemma diff_table_data_count_only (self : DBDiff) (fuel : nat)
    (tablename : string) (t1 t2 : table) (st : state) :
  healthy st ->
  assoc tablename (tables (firstdb self)) = Some t1 ->
  assoc tablename (tables (seconddb self)) = Some t2 ->
  List.length (rows t1) = List.length (rows t2) ->
  List.length (rows t1) <> 0%nat ->
  count_only self = true ->
  diff_table_data md5 self fuel tablename st
  = (Val (Some true, "Counts are the same"), counted tablename st).
Proof.
  intros H E1 E2 Hn Hz Hc. apply diff_table_data_early.
  rewrite (validate_counted self tablename t1 t2 st H E1 E2 Hn).
  apply Nat.eqb_neq in Hz. now rewrite Hz, Hc.
Qed.

Lemma diff_table_data_no_pk (self : DBDiff) (fuel : nat)
    (tablename : string) (t1 t2 : table) (st : state) :
  healthy st ->
  assoc tablename (tables (firstdb self)) = Some t1 ->
  assoc tablename (tables (seconddb self)) = Some t2 ->
  List.length (rows t1) = List.length (rows t2) ->
  List.length (rows t1) <> 0%nat ->
  count_only self = false ->
  String.concat "," (constrained_columns t1) = "" ->
  diff_table_data md5 self fuel tablename st
  = (Val (None, "no primary key(s) on this table. Comparison is not possible."),
     counted tablename st).
Proof.
  intros H E1 E2 Hn Hz Hc Hpk. apply diff_table_data_early.
  rewrite (validate_counted self tablename t1 t2 st H E1 E2 Hn).
  apply Nat.eqb_neq in Hz. now rewrite Hz, Hc, Hpk.
Qed.

Lemma diff_table_data_missing_column (self : DBDiff) (fuel : nat)
    (tablename : string) (t1 t2 : table) (checked : list string) (c : string)
    (st : state) :
  healthy st ->
  assoc tablename (tables (firstdb self)) = Some t1 ->
  assoc tablename (tables (seconddb self)) = Some t2 ->
  List.length (rows t1) = List.length (rows t2) ->
  List.length (rows t1) <> 0%nat ->
  count_only self = false ->
  String.concat "," (constrained_columns t1) <> "" ->
  check_columns self = Some checked ->
  In c checked -> ~ In c (columns t1) ->
  diff_table_data md5 self fuel tablename st
  = (Val (None, "missing checked columns"), counted tablename st).
Proof.
  intros H E1 E2 Hn Hz Hc Hpk Hch Hin Hout. apply diff_table_data_early.
  rewrite (validate_counted self tablename t1 t2 st H E1 E2 Hn).
  apply Nat.eqb_neq in Hz. rewrite Hz, Hc.
  apply String.eqb_neq in Hpk. rewrite Hpk, Hch.
  apply str_in_not_In in Hout.
  pose proof (filter_drops (fun x => str_in x (columns t1)) checked c Hin Hout) as Hd.
  apply Nat.eqb_neq in Hd. now rewrite Hd.
Qed.

(** The state after both [SQL_QUERY_FIRST_PK] statements. *)
Lemma diff_table_data_first_keys (self : DBDiff) (fuel : nat)
    (tablename : string) (pk : list string) (c1 c2 : option Z) (st st' : state) :
  healthy st' ->
  validate self tablename st = (Val (inr pk), st') ->
  sql_first_pk (firstdb self) tablename pk = Ok c1 ->
  sql_first_pk (seconddb self) tablename pk = Ok c2 ->
  diff_table_data md5 self fuel tablename st
  = (if negb (scalar_eqb c1 c2) then
       mret (Some false, "first primary keys are different")
     else scan md5 self tablename pk fuel None c1)
      (mkState Active Active
         (Executed Second (SQL_QUERY_FIRST_PK tablename pk)
          :: Executed First (SQL_QUERY_FIRST_PK tablename pk) :: log st')).
Proof.
  intros H Ev F1 F2.
  rewrite (diff_table_data_keys md5 self fuel tablename pk st st' Ev).
  unfold execute_first_pk. run_val F1. run_val F2. reflexivity.
Qed.

End Outcomes.

(** ** What a computation adds to the log *)

Section Emits.
Context (P : event -> Prop).

Lemma emits_mret {A : Type} (a : A) : emits P (mret a).
Proof. intros st r st' [= <- <-]. now exists []. Qed.

Lemma emits_raise {A : Type} (e : exn) : emits P (@raise A e).
Proof. intros st r st' [= <- <-]. now exists []. Qed.

Lemma emits_bind {A B : Type} (m : M A) (f : A -> M B) :
  emits P m -> (forall a, emits P (f a)) -> emits P (bind m f).
Proof.
  intros Hm Hf st r st'' E. unfold bind in E.
  destruct (m st) as [[a|e|] st'] eqn:Em;
    destruct (Hm _ _ _ Em) as (evs & Hl & Hp).
  - destruct (Hf a _ _ _ E) as (evs' & Hl' & Hp').
    exists (evs' ++ evs)%list. split.
    + now rewrite Hl', Hl, app_assoc.
    + apply Forall_app. now split.
  - injection E as <- <-. now exists evs.
  - injection E as <- <-. now exists evs.
Qed.

Lemma emits_try {A : Type} (m : M A) (e0 : exn) (h : M A) :
  emits P m -> emits P h -> emits P (try_except m e0 h).
Proof.
  intros Hm Hh st r st'' E. unfold try_except in E.
  destruct (m st) as [[a|e|] st'] eqn:Em;
    destruct (Hm _ _ _ Em) as (evs & Hl & Hp).
  - injection E as <- <-. now exists evs.
  - destruct (exn_eqb e e0).
    + destruct (Hh _ _ _ E) as (evs' & Hl' & Hp').
      exists (evs' ++ evs)%list. split.
      * now rewrite Hl', Hl, app_assoc.
      * apply Forall_app. now split.
    + injection E as <- <-. now exists evs.
  - injection E as <- <-. now exists evs.
Qed.

Lemma emits_emit (e : event) : P e -> emits P (emit e).
Proof.
  intros He st r st' [= <- <-]. exists [e]. split; [reflexivity|].
  now constructor.
Qed.

Lemma emits_rollback (sd : side) : P (RolledBack sd) -> emits P (rollback sd).
Proof.
  intros He st r st' [= <- <-]. exists [RolledBack sd]. split.
  - now destruct sd.
  - now constructor.
Qed.

Lemma emits_session {A : Type} (db : database) (sd : side) (q : statement)
    (sem : database -> answer A) :
  P (Executed sd q) -> emits P (session_execute db sd q sem).
Proof.
  intros He st r st' E. unfold session_execute in E.
  assert (Hone : log (add_log (Executed sd q) (set_txn sd Active st))
                 = Executed sd q :: log st) by now destruct sd.
  assert (Hbad : log (add_log (Executed sd q) (set_txn sd Aborted st))
                 = Executed sd q :: log st) by now destruct sd.
  destruct (txn_of sd st); destruct (sem db); injection E as <- <-;
    try (exists [Executed sd q]; split; [assumption | now constructor]);
    now exists [].
Qed.
End Emits.

Lemma emits_weaken {A : Type} (P Q : event -> Prop) (m : M A) :
  (forall e, P e -> Q e) -> emits P m -> emits Q m.
Proof.
  intros HPQ Hm st r st' E. destruct (Hm _ _ _ E) as (evs & Hl & Hp).
  exists evs. split; [exact Hl|]. eapply Forall_impl; eassumption.
Qed.

Ltac emits_auto :=
  repeat (cbv beta iota;
          first
            [ apply emits_mret
            | apply emits_raise
            | apply emits_session
            | apply emits_rollback
            | apply emits_emit
            | apply emits_try
            | apply emits_bind; [ | intros ? ]
            | match goal with
              | |- emits _ (if ?b then _ else _) => destruct b
              | |- emits _ (match ?x with _ => _ end) => destruct x
              end ]).

Lemma count_is_table_event (self : DBDiff) (tablename : string) (e : event) :
  count_event tablename e -> table_event self tablename e.
Proof.
  intros [sd ->]. exists sd, (QueryCount tablename). split; [reflexivity | now left].
Qed.

Lemma validate_emits (self : DBDiff) (tablename : string) :
  emits (count_event tablename) (validate self tablename).
Proof.
  unfold validate, Table, get_pk_constraint, get_columns, query_count.
  emits_auto; eexists; reflexivity.
Qed.

Lemma session_execute_inv {A : Type} (db : database) (sd : side) (q : statement)
    (sem : database -> answer A) (a : A) (st st' : state) :
  session_execute db sd q sem st = (Val a, st') ->
  sem db = Ok a /\ st' = add_log (Executed sd q) (set_txn sd Active st).
Proof.
  unfold session_execute.
  destruct (txn_of sd st); destruct (sem db); intros [= <- <-]; now split.
Qed.

Lemma sql_count_inv (db : database) (tablename : string) (t : table) (n : nat) :
  assoc tablename (tables db) = Some t ->
  sql_count db tablename = Ok n -> n = List.length (rows t).
Proof. intros E. unfold sql_count. rewrite E. now intros [= <-]. Qed.

(** What is known when the [try] block falls through. *)
Lemma validate_inr (self : DBDiff) (tablename : string) (pk : list string)
    (st st' : state) :
  validate self tablename st = (Val (inr pk), st') ->
  exists t1 t2 checked,
    assoc tablename (tables (firstdb self)) = Some t1
    /\ assoc tablename (tables (seconddb self)) = Some t2
    /\ List.length (rows t1) = List.length (rows t2)
    /\ List.length (rows t1) <> 0%nat
    /\ pk = constrained_columns t1
    /\ String.concat "," pk <> ""
    /\ count_only self = false
    /\ check_columns self = Some checked
    /\ (forall c, In c checked -> In c (columns t1))
    /\ st' = counted tablename st.
Proof.
  unfold validate, Table, get_pk_constraint, get_columns, query_count.
  destruct (assoc tablename (tables (firstdb self))) as [t1|] eqn:E1; [|discriminate].
  destruct (assoc tablename (tables (seconddb self))) as [t2|] eqn:E2; [|discriminate].
  cbn [bind mret]. unfold bind at 1.
  destruct (session_execute _ First _ _ st) as [[c1| |] s1] eqn:X1; try discriminate.
  apply session_execute_inv in X1. destruct X1 as [X1 ->].
  apply (sql_count_inv _ _ _ _ E1) in X1. subst c1.
  unfold bind at 1.
  destruct (session_execute _ Second _ _ _) as [[c2| |] s2] eqn:X2; try discriminate.
  apply session_execute_inv in X2. destruct X2 as [X2 ->].
  apply (sql_count_inv _ _ _ _ E2) in X2. subst c2.
  destruct (Nat.eqb (List.length (rows t1)) (List.length (rows t2))) eqn:En; cbn [negb].
  2:{ unfold bind at 1.
      destruct (session_execute _ First _ _ _) as [[a| |] s3]; try discriminate.
      unfold bind at 1.
      destruct (session_execute _ Second _ _ s3) as [[b| |] s4]; discriminate. }
  apply Nat.eqb_eq in En.
  unfold bind at 1.
  destruct (session_execute _ First _ _ _) as [[c| |] s3] eqn:X3; try discriminate.
  apply session_execute_inv in X3. destruct X3 as [X3 ->].
  apply (sql_count_inv _ _ _ _ E1) in X3. subst c.
  destruct (Nat.eqb (List.length (rows t1)) 0) eqn:Ez; [discriminate|].
  apply Nat.eqb_neq in Ez.
  destruct (count_only self); [discriminate|].
  cbn [bind mret].
  destruct (String.eqb (String.concat "," (constrained_columns t1)) "") eqn:Epk;
    [discriminate|].
  destruct (check_columns self) as [checked|]; [|discriminate].
  cbn [bind mret].
  destruct (negb (Nat.eqb
                    (List.length (filter (fun x => str_in x (columns t1)) checked))
                    (List.length checked))) eqn:Elen; [discriminate|].
  unfold mret. intros [= <- <-]. exists t1, t2, checked.
  repeat split; try reflexivity; try assumption.
  - now apply String.eqb_neq.
  - intros c0 Hc0. apply str_in_In.
    apply negb_false_iff, Nat.eqb_eq, filter_length_forallb in Elen.
    rewrite forallb_forall in Elen. now apply Elen.
Qed.

Section TableEvents.
Variable md5 : string -> string.

Lemma scan_emits_pk (self : DBDiff) (tablename : string) (pk : list string)
    (fuel : nat) (prev cursor : option Z) :
  emits (scan_event self tablename pk) (scan md5 self tablename pk fuel prev cursor).
Proof.
  revert prev cursor. induction fuel as [|fuel IH]; intros prev cursor; cbn [scan].
  - intros st r st' [= <- <-]. now exists [].
  - unfold execute_hash, execute_cursor.
    emits_auto; try apply IH; eexists _, _;
      first [left; reflexivity | right; reflexivity].
Qed.

Lemma scan_event_table (self : DBDiff) (tablename : string) (pk : list string)
    (e : event) :
  scan_event self tablename pk e -> table_event self tablename e.
Proof.
  intros (sd & c & [-> | ->]); eexists _, _; (split; [reflexivity|]); right; right;
    [left | right]; eexists _, _; reflexivity.
Qed.

Lemma scan_emits (self : DBDiff) (tablename : string) (pk : list string)
    (fuel : nat) (prev cursor : option Z) :
  emits (table_event self tablename) (scan md5 self tablename pk fuel prev cursor).
Proof.
  eapply emits_weaken; [apply scan_event_table | apply scan_emits_pk].
Qed.

Lemma diff_table_data_emits (self : DBDiff) (fuel : nat) (tablename : string) :
  emits (table_event self tablename) (diff_table_data md5 self fuel tablename).
Proof.
  unfold diff_table_data, execute_first_pk.
  apply emits_bind.
  { apply emits_try; [|apply emits_mret].
    eapply emits_weaken; [apply count_is_table_event | apply validate_emits]. }
  intros [early|pk]; [apply emits_mret|].
  emits_auto; try apply scan_emits.
  - eexists _, _. split; [reflexivity|]. right. left. eexists; reflexivity.
  - eexists _, _. split; [reflexivity|]. right. left. eexists; reflexivity.
Qed.

(** Without a list of checked columns only [count()] is ever sent. *)
Lemma diff_table_data_untyped_emits (self : DBDiff) (fuel : nat)
    (tablename : string) :
  check_columns self = None ->
  emits (count_event tablename) (diff_table_data md5 self fuel tablename).
Proof.
  intros Hnone st r st'' E. unfold diff_table_data, bind, try_except in E.
  destruct (validate self tablename st) as [[[early|pk]|e|] st'] eqn:Ev.
  - injection E as <- <-. exact (validate_emits self tablename _ _ _ Ev).
  - apply validate_inr in Ev.
    destruct Ev as (t1 & t2 & checked & _ & _ & _ & _ & _ & _ & _ & Hc & _).
    congruence.
  - destruct (validate_emits self tablename _ _ _ Ev) as (evs & Hl & Hp).
    destruct (exn_eqb e NoSuchTableError); injection E as <- <-; now exists evs.
  - injection E as <- <-. exact (validate_emits self tablename _ _ _ Ev).
Qed.
End TableEvents.

Lemma diff_sequence_emits (self : DBDiff) (seq_name : string) :
  emits (sequence_event seq_name) (diff_sequence self seq_name).
Proof.
  unfold diff_sequence, execute_sequence_value.
  emits_auto; eexists; first [left; reflexivity | right; reflexivity].
Qed.

Lemma healthy_fresh : healthy fresh.
Proof. intros [|]; discriminate. Qed.

Lemma cells_all (cols : list string) (r : row) :
  NoDup cols -> List.length r = List.length cols -> map (cell cols r) cols = r.
Proof.
  intros Hnd. revert r. induction Hnd as [|c cols Hc Hnd IH]; intros [|v r] Hlen;
    try discriminate; [reflexivity|].
  cbn [map]. f_equal.
  - cbn [cell]. now rewrite String.eqb_refl.
  - transitivity (map (cell cols r) cols).
    + apply map_ext_in. intros x Hx. cbn [cell].
      destruct (String.eqb x c) eqn:E; [|reflexivity].
      apply String.eqb_eq in E. subst x. now elim Hc.
    + apply IH. simpl in Hlen. lia.
Qed.

(** ** The next cursor *)

Lemma hd_error_In {A : Type} (x : A) (l : list A) : hd_error l = Some x -> In x l.
Proof. destruct l; [discriminate|]. intros [= ->]. now left. Qed.

Lemma sorted_rev_head_greatest (l : list Z) (x : Z) :
  StronglySorted (key_le (fun k => k)) l -> hd_error (rev l) = Some x ->
  forall y, In y l -> y <= x.
Proof.
  induction 1 as [|a l Hs IH Ha]; [discriminate|].
  cbn [rev]. intros Hhd y Hy.
  destruct (rev l) as [|b l'] eqn:Er.
  - apply (f_equal (@rev Z)) in Er. rewrite rev_involutive in Er. subst l.
    injection Hhd as <-. destruct Hy as [<-|[]]. lia.
  - cbn in Hhd. injection Hhd as ->.
    assert (Hx : In x l) by (apply in_rev; rewrite Er; now left).
    rewrite Forall_forall in Ha. destruct Hy as [<-|Hy].
    + exact (Ha x Hx).
    + apply IH; [reflexivity | exact Hy].
Qed.

Lemma sql_query_cursor_none (db : database) (tablename : string) (pk : list string)
    (row_limit : Z) (next : option Z) :
  sql_query_cursor db tablename pk None row_limit = Ok next -> next = None.
Proof.
  unfold sql_query_cursor.
  destruct (assoc tablename (tables db)) as [t|]; [|discriminate].
  destruct pk as [|p [|? ?]]; try discriminate.
  destruct (str_in p (columns t)); [|discriminate].
  destruct (Z.ltb row_limit 0); [discriminate|].
  rewrite window_none. now intros [= <-].
Qed.

(** The answer of [SQL_QUERY_CURSOR] is the key of a row of the window, the
    greatest one, and it is not below the cursor. *)
Lemma sql_query_cursor_some (db : database) (tablename : string) (pk : list string)
    (row_limit c next : Z) :
  sql_query_cursor db tablename pk (Some c) row_limit = Ok (Some next) ->
  exists t p,
    assoc tablename (tables db) = Some t /\ pk = [p]
    /\ (exists r, In r (window (key_of t p) (Some c) row_limit (rows t))
                  /\ In r (rows t) /\ key_of t p r = next)
    /\ (forall r, In r (window (key_of t p) (Some c) row_limit (rows t)) ->
                  key_of t p r <= next)
    /\ c <= next.
Proof.
  unfold sql_query_cursor.
  destruct (assoc tablename (tables db)) as [t|]; [|discriminate].
  destruct pk as [|p [|? ?]]; try discriminate.
  destruct (str_in p (columns t)); [|discriminate].
  destruct (Z.ltb row_limit 0); [discriminate|].
  fold (key_of t p). rewrite limit_one_head. intros [= Hhd].
  unfold order_by_desc in Hhd.
  set (w := window (key_of t p) (Some c) row_limit (rows t)) in *.
  assert (Hin : In next (map (key_of t p) w)).
  { apply (order_by_In (fun k => k)). apply in_rev. now apply hd_error_In. }
  apply in_map_iff in Hin. destruct Hin as (r & Hk & Hr).
  assert (Hw : In r (rows t) /\ c <= key_of t p r).
  { apply where_ge_In. eapply window_In. exact Hr. }
  exists t, p. repeat split.
  - exists r. tauto.
  - intros r' Hr'.
    apply (sorted_rev_head_greatest _ next (order_by_sorted (fun k => k) _) Hhd).
    apply order_by_In. now apply in_map.
  - destruct Hw as [_ Hw]. now rewrite <- Hk.
Qed.

Lemma filter_length_lt {A : Type} (f g : A -> bool) (l : list A) (r : A) :
  (forall x, In x l -> f x = true -> g x = true) ->
  In r l -> f r = false -> g r = true ->
  (List.length (filter f l) < List.length (filter g l))%nat.
Proof.
  intros Hfg Hin Hf Hg.
  assert (Hle : forall l', (forall x, In x l' -> f x = true -> g x = true) ->
                           (List.length (filter f l') <= List.length (filter g l'))%nat).
  { induction l' as [|x l' IH]; intros H; simpl; [lia|].
    assert (IH' := IH (fun y Hy => H y (or_intror Hy))).
    destruct (f x) eqn:Ef.
    - rewrite (H x (or_introl eq_refl) Ef). simpl. lia.
    - destruct (g x); simpl; lia. }
  induction l as [|x l IH]; [destruct Hin|]. simpl.
  destruct Hin as [->|Hin].
  - rewrite Hf, Hg. simpl.
    specialize (Hle l (fun y Hy => Hfg y (or_intror Hy))). lia.
  - specialize (IH (fun y Hy => Hfg y (or_intror Hy)) Hin).
    destruct (f x) eqn:Ef.
    + rewrite (Hfg x (or_introl eq_refl) Ef). simpl. lia.
    + destruct (g x); simpl; lia.
Qed.

(** Either the cursor stays, or fewer turns are needed from the next one. *)
Lemma cursor_progress (self : DBDiff) (tablename : string) (pk : list string)
    (cursor next : option Z) :
  sql_query_cursor (firstdb self) tablename pk cursor (chunk_size self) = Ok next ->
  next = cursor
  \/ (turns_needed self tablename pk next < turns_needed self tablename pk cursor)%nat.
Proof.
  intros E. destruct cursor as [c|].
  - destruct next as [n|]; [|right; simpl; lia].
    destruct (sql_query_cursor_some _ _ _ _ _ _ E)
      as (t & p & Et & -> & (r & _ & Hr & Hk) & _ & Hle).
    destruct (Z.eq_dec n c) as [->|Hne]; [now left|right].
    unfold turns_needed, rows_after. rewrite Et.
    apply -> Nat.succ_lt_mono. apply -> Nat.succ_lt_mono. apply -> Nat.succ_lt_mono.
    apply (filter_length_lt _ _ _ r); trivial.
    + intros x _ Hx. apply Z.ltb_lt in Hx. apply Z.ltb_lt. lia.
    + apply Z.ltb_ge. lia.
    + apply Z.ltb_lt. lia.
  - left. now apply sql_query_cursor_none in E.
Qed.

Lemma turns_needed_bound (self : DBDiff) (tablename : string) (pk : list string)
    (cursor : option Z) :
  (turns_needed self tablename pk cursor <= fuel_bound self tablename)%nat.
Proof.
  unfold turns_needed, rows_after, fuel_bound.
  destruct cursor as [c|];
    destruct (assoc tablename (tables (firstdb self))) as [t|]; try lia.
  destruct pk as [|p [|? ?]]; try (simpl; lia).
  pose proof (filter_length_le (fun r => Z.ltb c (key_of t p r)) (rows t)). lia.
Qed.

(** ** Termination *)

Lemma total_mret {A : Type} (a : A) : total (mret a).
Proof. intros st. discriminate. Qed.

Lemma total_raise {A : Type} (e : exn) : total (@raise A e).
Proof. intros st. discriminate. Qed.

Lemma total_bind {A B : Type} (m : M A) (f : A -> M B) :
  total m -> (forall a, total (f a)) -> total (bind m f).
Proof.
  intros Hm Hf st. unfold bind. specialize (Hm st).
  destruct (m st) as [[a|e|] st']; [apply Hf | discriminate | now elim Hm].
Qed.

Lemma total_try {A : Type} (m : M A) (e0 : exn) (h : M A) :
  total m -> total h -> total (try_except m e0 h).
Proof.
  intros Hm Hh st. unfold try_except. specialize (Hm st).
  destruct (m st) as [[a|e|] st']; [discriminate | | now elim Hm].
  destruct (exn_eqb e e0); [apply Hh | discriminate].
Qed.

Lemma total_session {A : Type} (db : database) (sd : side) (q : statement)
    (sem : database -> answer A) :
  total (session_execute db sd q sem).
Proof.
  intros st. unfold session_execute.
  destruct (txn_of sd st); destruct (sem db); discriminate.
Qed.

Lemma total_emit (e : event) : total (emit e).
Proof. intros st. discriminate. Qed.

Lemma total_rollback (sd : side) : total (rollback sd).
Proof. intros st. discriminate. Qed.

Ltac total_auto :=
  repeat (cbv beta iota;
          first
            [ apply total_mret
            | apply total_raise
            | apply total_session
            | apply total_rollback
            | apply total_emit
            | apply total_try
            | apply total_bind; [ | intros ? ]
            | match goal with
              | |- total (if ?b then _ else _) => destruct b
              | |- total (match ?x with _ => _ end) => destruct x
              end ]).


Lemma diff_sequence_total (self : DBDiff) (seq_name : string) :
  total (diff_sequence self seq_name).
Proof. unfold diff_sequence, execute_sequence_value. total_auto. Qed.

Section Termination.
Variable md5 : string -> string.




(** When the two digests agree at every cursor and the cursor statement
    answers, the scan ends with success. *)
Lemma scan_agree (self : DBDiff) (tablename : string) (pk : list string)
    (fuel : nat) (prev cursor : option Z) (st : state) :
  healthy st ->
  (forall c, exists h, hash_on md5 self tablename pk First c = Ok h
                       /\ hash_on md5 self tablename pk Second c = Ok h) ->
  (forall c, exists next,
      sql_query_cursor (firstdb self) tablename pk c (chunk_size self) = Ok next) ->
  (turns_needed self tablename pk cursor <= fuel)%nat ->
  fst (scan md5 self tablename pk fuel prev cursor st)
  = Val (Some true, "data is identical.").
Proof.
  intros H Hh Hc. revert prev cursor st H.
  induction fuel as [|fuel IH]; intros prev cursor st H Hfuel.
  - destruct cursor; simpl in Hfuel; lia.
  - destruct (scalar_eqb prev cursor) eqn:Ec.
    + apply scalar_eqb_eq in Ec. subst prev. now rewrite scan_exit.
    + apply scalar_eqb_neq in Ec.
      destruct (Hh cursor) as (h & X1 & X2). destruct (Hc cursor) as (next & X3).
      rewrite (scan_step md5 self tablename pk fuel prev cursor next h st H Ec X1 X2 X3).
      destruct (cursor_progress _ _ _ _ _ X3) as [->|Hlt].
      * destruct fuel as [|fuel]; [destruct cursor; simpl in Hfuel; lia|].
        now rewrite scan_exit.
      * apply IH; [intros [|]; discriminate | lia].
Qed.
End Termination.

(** ** Two sources with the same content *)

Section SortedUnique.
Context {A : Type} (key : A -> Z).

Lemma key_inj_of_NoDup (l : list A) (a b : A) :
  NoDup (map key l) -> In a l -> In b l -> key a = key b -> a = b.
Proof.
  induction l as [|x l IH]; [intros _ []|].
  cbn [map]. intros Hnd Ha Hb Hk. inversion Hnd as [|? ? Hx Hnd']; subst.
  destruct Ha as [->|Ha], Hb as [->|Hb]; trivial.
  - elim Hx. rewrite Hk. now apply in_map.
  - elim Hx. rewrite <- Hk. now apply in_map.
  - now apply IH.
Qed.

Lemma sorted_unique (l1 l2 : list A) :
  StronglySorted (key_le key) l1 -> StronglySorted (key_le key) l2 ->
  Permutation l1 l2 -> NoDup (map key l1) -> l1 = l2.
Proof.
  revert l2. induction l1 as [|a l1 IH]; intros l2 Hs1 Hs2 Hp Hnd.
  - now apply Permutation_nil in Hp.
  - destruct l2 as [|b l2];
      [apply Permutation_sym, Permutation_nil in Hp; discriminate|].
    assert (Hab : In a (b :: l2)) by (apply (Permutation_in _ Hp); now left).
    assert (Hba : In b (a :: l1))
      by (apply (Permutation_in _ (Permutation_sym Hp)); now left).
    pose proof (sorted_head_least key b l2 Hs2 a Hab) as H1.
    pose proof (sorted_head_least key a l1 Hs1 b Hba) as H2.
    assert (a = b).
    { apply (key_inj_of_NoDup (a :: l1)); trivial; [now left | lia]. }
    subst b. f_equal.
    inversion Hs1; inversion Hs2; inversion Hnd; subst.
    apply IH; trivial. eapply Permutation_cons_inv; eassumption.
Qed.

Lemma order_by_unique (l1 l2 : list A) :
  Permutation l1 l2 -> NoDup (map key l1) -> order_by key l1 = order_by key l2.
Proof.
  intros Hp Hnd. apply sorted_unique; try apply order_by_sorted.
  - eapply perm_trans; [apply order_by_perm|].
    eapply perm_trans; [exact Hp | apply Permutation_sym, order_by_perm].
  - eapply Permutation_NoDup; [|exact Hnd].
    apply Permutation_map, Permutation_sym, order_by_perm.
Qed.

Lemma filter_perm (f : A -> bool) (l1 l2 : list A) :
  Permutation l1 l2 -> Permutation (filter f l1) (filter f l2).
Proof.
  induction 1 as [|x l1 l2 Hp IH|x y l|l1 l2 l3 H1 IH1 H2 IH2]; simpl.
  - constructor.
  - destruct (f x); [now constructor | exact IH].
  - destruct (f x), (f y); try apply Permutation_refl. apply perm_swap.
  - eapply perm_trans; eassumption.
Qed.

Lemma filter_keys_NoDup (f : A -> bool) (l : list A) :
  NoDup (map key l) -> NoDup (map key (filter f l)).
Proof.
  induction l as [|x l IH]; simpl; intros Hnd; [constructor|].
  inversion Hnd as [|? ? Hx Hnd']; subst. destruct (f x); [|now apply IH].
  cbn [map]. constructor; [|now apply IH].
  intros Hin. apply Hx. apply in_map_iff in Hin. destruct Hin as (y & <- & Hy).
  apply in_map. apply filter_In in Hy. tauto.
Qed.

Lemma window_perm (cursor : option Z) (row_limit : Z) (l1 l2 : list A) :
  Permutation l1 l2 -> NoDup (map key l1) ->
  window key cursor row_limit l1 = window key cursor row_limit l2.
Proof.
  intros Hp Hnd. unfold window. f_equal. destruct cursor as [c|]; [|reflexivity].
  unfold where_ge. apply order_by_unique.
  - now apply filter_perm.
  - now apply filter_keys_NoDup.
Qed.
End SortedUnique.

Section MapClauses.
Context {A B : Type} (key : A -> Z) (key' : B -> Z) (f : A -> B).
Hypothesis key_f : forall x, key' (f x) = key x.

Lemma insert_by_map (r : A) (l : list A) :
  map f (insert_by key r l) = insert_by key' (f r) (map f l).
Proof.
  induction l as [|x l IH]; [reflexivity|]. simpl.
  rewrite !key_f. destruct (Z.leb (key r) (key x)); [reflexivity|].
  simpl. now rewrite IH.
Qed.

Lemma order_by_map (l : list A) :
  map f (order_by key l) = order_by key' (map f l).
Proof.
  induction l as [|r l IH]; [reflexivity|]. simpl.
  now rewrite insert_by_map, IH.
Qed.

Lemma window_map (cursor : option Z) (row_limit : Z) (l : list A) :
  map f (window key cursor row_limit l) = window key' cursor row_limit (map f l).
Proof.
  unfold window, limit. rewrite <- firstn_map, order_by_map. do 2 f_equal.
  destruct cursor as [c|]; [|reflexivity]. unfold where_ge.
  rewrite filter_map_swap. f_equal. apply filter_ext. intros x. now rewrite key_f.
Qed.
End MapClauses.

Lemma select_list_in (self : DBDiff) (t : table) (p : string) (checked : list string) :
  In p (columns t) ->
  check_columns self = Some checked ->
  (forall x, In x checked -> In x (columns t)) ->
  forall x, In x (select_list t (hash_columns self [p])) -> In x (columns t).
Proof.
  intros Hp Hch Hin x. unfold hash_columns. rewrite Hch.
  destruct checked as [|c checked]; cbn [select_list]; [trivial|].
  cbn [app]. intros [<-|Hx]; [exact Hp | now apply Hin].
Qed.

Lemma cursor_answers (db : database) (tablename : string) (t : table) (p : string)
    (cursor : option Z) (row_limit : Z) :
  assoc tablename (tables db) = Some t -> In p (columns t) -> 0 <= row_limit ->
  exists next, sql_query_cursor db tablename [p] cursor row_limit = Ok next.
Proof.
  intros E Hp Hl. unfold sql_query_cursor. rewrite E.
  apply str_in_In in Hp. rewrite Hp.
  replace (Z.ltb row_limit 0) with false by (symmetry; apply Z.ltb_ge; lia).
  eexists. reflexivity.
Qed.

Section SameContent.
Variable md5 : string -> string.

(** The digest statement through the keyed views of the rows. *)
Lemma sql_template_hash_views (db : database) (tablename : string) (t : table)
    (p : string) (cols : option (list string)) (cursor : option Z) (row_limit : Z) :
  assoc tablename (tables db) = Some t ->
  In p (columns t) ->
  (forall x, In x (select_list t cols) -> In x (columns t)) ->
  0 <= row_limit ->
  sql_template_hash md5 db tablename [p] cols cursor row_limit
  = Ok (chunk_digest md5
          (map snd (window fst cursor row_limit (map (view t p cols) (rows t))))).
Proof.
  intros E Hp Hsel Hl. unfold sql_template_hash. rewrite E.
  apply str_in_In in Hp. rewrite Hp.
  replace (forallb (fun c => str_in c (columns t)) (select_list t cols)) with true.
  2:{ symmetry. apply forallb_forall. intros x Hx. now apply str_in_In, Hsel. }
  replace (Z.ltb row_limit 0) with false by (symmetry; apply Z.ltb_ge; lia).
  cbn [andb]. do 2 f_equal. fold (key_of t p).
  rewrite <- (window_map (key_of t p) fst (view t p cols)) by reflexivity.
  now rewrite map_map.
Qed.

Lemma same_content_digests (self : DBDiff) (tablename : string) (t1 t2 : table)
    (p : string) (checked : list string) (cursor : option Z) :
  assoc tablename (tables (firstdb self)) = Some t1 ->
  assoc tablename (tables (seconddb self)) = Some t2 ->
  In p (columns t1) -> In p (columns t2) ->
  check_columns self = Some checked ->
  (forall x, In x checked -> In x (columns t1) /\ In x (columns t2)) ->
  0 <= chunk_size self ->
  NoDup (map (key_of t1 p) (rows t1)) ->
  same_content t1 t2 p (hash_columns self [p]) ->
  exists h, hash_on md5 self tablename [p] First cursor = Ok h
            /\ hash_on md5 self tablename [p] Second cursor = Ok h.
Proof.
  intros E1 E2 Hp1 Hp2 Hch Hin Hl Hnd Hsame. unfold hash_on. cbn [session_db].
  rewrite (sql_template_hash_views _ _ t1 p) by
    (trivial; apply (select_list_in self t1 p checked); trivial; apply Hin).
  rewrite (sql_template_hash_views _ _ t2 p) by
    (trivial; apply (select_list_in self t2 p checked); trivial; apply Hin).
  eexists. split; [reflexivity|]. do 3 f_equal. symmetry.
  apply window_perm; [exact Hsame|]. now rewrite map_map.
Qed.

Lemma same_content_first_keys (db1 db2 : database) (tablename : string)
    (t1 t2 : table) (p : string) (cols : option (list string)) :
  assoc tablename (tables db1) = Some t1 ->
  assoc tablename (tables db2) = Some t2 ->
  In p (columns t1) -> In p (columns t2) ->
  NoDup (map (key_of t1 p) (rows t1)) ->
  same_content t1 t2 p cols ->
  exists k, sql_first_pk db1 tablename [p] = Ok k
            /\ sql_first_pk db2 tablename [p] = Ok k.
Proof.
  intros E1 E2 Hp1 Hp2 Hnd Hsame.
  assert (Hall : forall t, In p (columns t) ->
                           forallb (fun c => str_in c (columns t)) [p] = true).
  { intros t Hp. cbn [forallb]. apply str_in_In in Hp. now rewrite Hp. }
  rewrite (sql_first_pk_found db1 tablename t1 p [] E1 (Hall t1 Hp1)).
  rewrite (sql_first_pk_found db2 tablename t2 p [] E2 (Hall t2 Hp2)).
  eexists. split; [reflexivity|]. do 2 f_equal.
  assert (Hv : forall t, map (key_of t p) (order_by (key_of t p) (rows t))
                         = map fst (order_by fst (map (view t p cols) (rows t)))).
  { intros t.
    rewrite <- (order_by_map (key_of t p) fst (view t p cols)) by reflexivity.
    now rewrite map_map. }
  rewrite !Hv. f_equal. symmetry.
  apply order_by_unique; [exact Hsame|]. now rewrite map_map.
Qed.

(** Same content, one key column, valid checked columns: Match. *)
Lemma diff_table_data_same_content (self : DBDiff) (fuel : nat) (tablename : string)
    (t1 t2 : table) (p : string) (checked : list string) (st : state) :
  healthy st ->
  assoc tablename (tables (firstdb self)) = Some t1 ->
  assoc tablename (tables (seconddb self)) = Some t2 ->
  rows t1 <> [] ->
  count_only self = false ->
  constrained_columns t1 = [p] -> p <> "" ->
  In p (columns t1) -> In p (columns t2) ->
  check_columns self = Some checked ->
  (forall x, In x checked -> In x (columns t1) /\ In x (columns t2)) ->
  NoDup (map (key_of t1 p) (rows t1)) ->
  same_content t1 t2 p (hash_columns self [p]) ->
  0 <= chunk_size self ->
  (3 + List.length (rows t1) <= fuel)%nat ->
  fst (diff_table_data md5 self fuel tablename st)
  = Val (Some true, "data is identical.").
Proof.
  intros H E1 E2 Hrows Hc Hpk Hp Hp1 Hp2 Hch Hin Hnd Hsame Hl Hfuel.
  assert (Hn : List.length (rows t1) = List.length (rows t2)).
  { apply Permutation_length in Hsame. now rewrite !length_map in Hsame. }
  assert (Hz : List.length (rows t1) <> 0%nat).
  { destruct (rows t1); [now elim Hrows | discriminate]. }
  assert (Ev : validate self tablename st = (Val (inr [p]), counted tablename st)).
  { rewrite <- Hpk. apply (validate_passes self tablename t1 t2 checked); trivial.
    - rewrite Hpk. exact Hp.
    - intros x Hx. now apply Hin. }
  destruct (same_content_first_keys _ _ tablename t1 t2 p _ E1 E2 Hp1 Hp2 Hnd Hsame)
    as (k & F1 & F2).
  rewrite (diff_table_data_first_keys md5 self fuel tablename [p] k k st
             (counted tablename st) (healthy_counted tablename st) Ev F1 F2).
  replace (scalar_eqb k k) with true by (symmetry; now apply scalar_eqb_eq).
  cbn [negb]. apply scan_agree.
  - intros [|]; discriminate.
  - intros c.
    apply (same_content_digests self tablename t1 t2 p checked); trivial.
  - intros c. now apply (cursor_answers _ tablename t1 p).
  - pose proof (turns_needed_bound self tablename [p] k) as Hb.
    unfold fuel_bound in Hb. rewrite E1 in Hb. lia.
Qed.
End SameContent.

(** ** The digests differ *)



Lemma log_extension (l evs evs' mid : list event) :
  (evs' ++ mid ++ l = evs ++ l)%list -> evs = (evs' ++ mid)%list.
Proof. rewrite app_assoc. intros H. symmetry. revert H. apply app_inv_tail. Qed.

Section DigestsDiffer.
Variable md5 : string -> string.

End DigestsDiffer.


Section DigestsDifferInRun.
Variable md5 : string -> string.


End DigestsDifferInRun.


(** ** The phases *)

Lemma insert_name_perm (x : string) (l : list string) :
  Permutation (insert_name x l) (x :: l).
Proof.
  induction l as [|y l IH]; simpl.
  - apply Permutation_refl.
  - destruct (String.leb x y).
    + apply Permutation_refl.
    + eapply perm_trans; [apply perm_skip, IH | apply perm_swap].
Qed.

Lemma sorted_perm (l : list string) : Permutation (sorted l) l.
Proof.
  induction l as [|x l IH]; simpl.
  - apply perm_nil.
  - eapply perm_trans; [apply insert_name_perm | apply perm_skip, IH].
Qed.

Lemma names_le_trans (a b c : string) : names_le a b -> names_le b c -> names_le a c.
Proof.
  unfold names_le, String.leb. intros Hab Hbc.
  destruct (String.compare a b) eqn:Eab; try discriminate;
    destruct (String.compare b c) eqn:Ebc; try discriminate.
  - apply String.compare_eq_iff in Eab. subst b. now rewrite Ebc.
  - apply String.compare_eq_iff in Eab. subst b. now rewrite Ebc.
  - apply String.compare_eq_iff in Ebc. subst c. now rewrite Eab.
  - assert (Hac : String.compare a c = Lt); [|now rewrite Hac].
    clear Hab Hbc. revert b c Eab Ebc.
    induction a as [|x a IH]; intros [|y b] [|z c]; simpl; try discriminate; trivial.
    destruct (Ascii.compare x y) eqn:Exy; try discriminate;
      destruct (Ascii.compare y z) eqn:Eyz; try discriminate; intros Hab Hbc.
    + apply Ascii.compare_eq_iff in Exy. subst y. rewrite Eyz. eapply IH; eassumption.
    + apply Ascii.compare_eq_iff in Exy. subst y. now rewrite Eyz.
    + apply Ascii.compare_eq_iff in Eyz. subst z. now rewrite Exy.
    + assert (Hlt : Ascii.compare x z = Lt); [|now rewrite Hlt].
      unfold Ascii.compare in *. rewrite N.compare_lt_iff in *. lia.
Qed.

Lemma insert_name_sorted (x : string) (l : list string) :
  StronglySorted names_le l -> StronglySorted names_le (insert_name x l).
Proof.
  induction 1 as [|y l Hs IH Hy]; simpl.
  - repeat constructor.
  - destruct (String.leb x y) eqn:E.
    + constructor; [now constructor|].
      constructor; [exact E|].
      eapply Forall_impl; [|exact Hy]. intros z. now apply names_le_trans.
    + constructor; [exact IH|].
      apply (Permutation_Forall (Permutation_sym (insert_name_perm x l))).
      constructor; [|exact Hy].
      destruct (String.leb_total x y) as [H|H]; [congruence | exact H].
Qed.

Lemma sorted_sorted (l : list string) : StronglySorted names_le (sorted l).
Proof.
  induction l as [|x l IH]; simpl; [constructor | now apply insert_name_sorted].
Qed.

Lemma count_failures_cons (r : ret) (results : list ret) :
  count_failures (r :: results)
  = ((if is_failure r then 1 else 0) + count_failures results)%nat.
Proof. unfold count_failures. simpl. now destruct (is_failure r). Qed.

(** The loop of a phase answers exactly when every unit answers, and then the
    counter has grown by the number of Mismatch answers. *)
Lemma for_each_spec (diff : string -> M ret) (units : list string) (n m : nat)
    (st st' : state) :
  for_each diff units n st = (Val m, st')
  <-> exists results,
        processed diff units results st st'
        /\ m = (n + count_failures results)%nat.
Proof.
  revert n st. induction units as [|unit units IH]; intros n st; cbn [for_each].
  - split.
    + intros [= <- <-]. exists []. split; [reflexivity|].
      unfold count_failures. simpl. lia.
    + intros ([|r results] & Hp & ->); [|destruct Hp].
      simpl in Hp. subst st'. unfold count_failures. simpl.
      now rewrite Nat.add_0_r.
  - unfold bind at 1. split.
    + destruct (diff unit st) as [[r| |] st1] eqn:Ed; try discriminate.
      cbn [bind emit]. intros E. apply IH in E.
      destruct E as (results & Hp & ->).
      exists (r :: results). split.
      * cbn [processed]. now exists st1.
      * rewrite count_failures_cons. destruct (is_failure r); lia.
    + intros ([|r results] & Hp & ->); [destruct Hp|].
      cbn [processed] in Hp. destruct Hp as (st1 & Ed & Hp). rewrite Ed.
      cbn [bind emit]. apply IH. exists results. split; [exact Hp|].
      rewrite count_failures_cons. destruct (is_failure r); lia.
Qed.

Lemma for_each_emits (P : event -> Prop) (diff : string -> M ret)
    (units : list string) (n : nat) :
  (forall unit, In unit units -> emits P (diff unit)) ->
  (forall unit r, In unit units -> P (spinner_event unit r)) ->
  emits P (for_each diff units n).
Proof.
  revert n. induction units as [|unit units IH]; intros n Hd Hs; cbn [for_each].
  - apply emits_mret.
  - apply emits_bind; [apply Hd; now left|]. intros r.
    apply emits_bind; [apply emits_emit, Hs; now left|]. intros _.
    apply IH; intros; [apply Hd | apply Hs]; now right.
Qed.

Lemma for_each_total (diff : string -> M ret) (units : list string) (n : nat) :
  (forall unit, In unit units -> total (diff unit)) ->
  total (for_each diff units n).
Proof.
  revert n. induction units as [|unit units IH]; intros n Hd; cbn [for_each].
  - apply total_mret.
  - apply total_bind; [apply Hd; now left|]. intros r.
    apply total_bind; [apply total_emit|]. intros _.
    apply IH. intros; apply Hd; now right.
Qed.

(** A comparison of one sequence always answers and leaves both sessions able
    to run statements. *)
Lemma diff_sequence_returns (self : DBDiff) (seq_name : string) (st : state) :
  healthy st ->
  exists r st', diff_sequence self seq_name st = (Val r, st') /\ healthy st'.
Proof.
  intros H.
  destruct (assoc seq_name (sequences (firstdb self))) as [a|] eqn:Ea.
  - destruct (assoc seq_name (sequences (seconddb self))) as [b|] eqn:Eb.
    + rewrite (diff_sequence_read self seq_name a b st H Ea Eb).
      eexists _, _. split; [reflexivity|]. intros [|]; discriminate.
    + rewrite (diff_sequence_second_missing self seq_name a st H Ea Eb).
      eexists _, _. split; [reflexivity|]. intros [|]; discriminate.
  - unfold diff_sequence. erewrite bind_val.
    2:{ unfold try_except, execute_sequence_value.
        run_exc (sequence_value_missing (session_db self First) seq_name Ea).
        reflexivity. }
    eexists _, _. split; [reflexivity|]. intros [|]; discriminate.
Qed.

Lemma processed_sequences (self : DBDiff) (units : list string) (st : state) :
  healthy st ->
  exists results st', processed (diff_sequence self) units results st st'.
Proof.
  revert st. induction units as [|unit units IH]; intros st H.
  - now exists [], st.
  - destruct (diff_sequence_returns self unit st H) as (r & st1 & E & H1).
    destruct (IH (add_log (spinner_event unit r) st1)) as (results & st' & Hp).
    { now apply healthy_add_log. }
    exists (r :: results), st'. cbn [processed]. now exists st1.
Qed.

Lemma status_of_zero (results : list ret) :
  status_of (count_failures results) = 0
  <-> Forall (fun r => ~ Mismatch r) results.
Proof.
  unfold status_of. induction results as [|r results IH].
  - split; [constructor | reflexivity].
  - rewrite count_failures_cons. unfold Mismatch, is_failure in *.
    destruct (fst r) as [[|]|] eqn:E; cbn [Nat.add].
    + rewrite IH. split; intros H.
      * constructor; [congruence | exact H].
      * now inversion H.
    + split; [discriminate|]. intros H. inversion H. congruence.
    + rewrite IH. split; intros H.
      * constructor; [congruence | exact H].
      * now inversion H.
Qed.

Section Phases.
Variable md5 : string -> string.

Lemma diff_all_table_data_spec (self : DBDiff) (fuel : nat) (code : Z)
    (st st' : state) :
  diff_all_table_data md5 self fuel st = (Val code, st')
  <-> exists results st1,
        processed (diff_table_data md5 self fuel)
          (sorted (get_table_names (firstdb self))) results
          (add_log (Print "Starting table analysis.") st) st1
        /\ st' = add_log (Print "Table analysis complete.") st1
        /\ code = status_of (count_failures results).
Proof.
  unfold diff_all_table_data. cbn [bind emit]. unfold bind at 1.
  destruct (for_each _ _ 0%nat _) as [[m| |] st1] eqn:Ef.
  - apply for_each_spec in Ef. destruct Ef as (results & Hp & ->).
    cbn [bind emit Nat.add]. split.
    + intros E. exists results, st1. split; [exact Hp|].
      unfold status_of. destruct (Nat.ltb 0 (count_failures results));
        injection E as <- <-; now split.
    + intros (results' & st1' & Hp' & -> & ->).
      assert (Ef' : for_each (diff_table_data md5 self fuel)
                      (sorted (get_table_names (firstdb self))) 0
                      (add_log (Print "Starting table analysis.") st)
                    = (Val (0 + count_failures results')%nat, st1'))
        by (apply for_each_spec; now exists results').
      assert (Ef'' : for_each (diff_table_data md5 self fuel)
                       (sorted (get_table_names (firstdb self))) 0
                       (add_log (Print "Starting table analysis.") st)
                     = (Val (0 + count_failures results)%nat, st1))
        by (apply for_each_spec; now exists results).
      rewrite Ef' in Ef''. injection Ef'' as Hc ->. cbn [Nat.add] in Hc.
      rewrite Hc. unfold status_of.
      now destruct (Nat.ltb 0 (count_failures results)).
  - split; [discriminate|]. intros (results & st1' & Hp & _ & _).
    assert (Ef' : for_each (diff_table_data md5 self fuel)
                    (sorted (get_table_names (firstdb self))) 0
                    (add_log (Print "Starting table analysis.") st)
                  = (Val (0 + count_failures results)%nat, st1'))
      by (apply for_each_spec; now exists results).
    congruence.
  - split; [discriminate|]. intros (results & st1' & Hp & _ & _).
    assert (Ef' : for_each (diff_table_data md5 self fuel)
                    (sorted (get_table_names (firstdb self))) 0
                    (add_log (Print "Starting table analysis.") st)
                  = (Val (0 + count_failures results)%nat, st1'))
      by (apply for_each_spec; now exists results).
    congruence.
Qed.
End Phases.

Lemma diff_all_sequences_spec (self : DBDiff) (st : state) :
  healthy st ->
  exists results st1,
    processed (diff_sequence self) (sorted (map fst (sequences (firstdb self))))
      results
      (add_log (Executed First GET_SEQUENCES_SQL)
         (set_txn First Active (add_log (Print "Starting sequence analysis.") st)))
      st1
    /\ diff_all_sequences self st
       = (Val (status_of (count_failures results)),
          add_log (Print "Sequence analysis complete.") st1).
Proof.
  intros H.
  set (st0 := add_log (Executed First GET_SEQUENCES_SQL)
                (set_txn First Active
                   (add_log (Print "Starting sequence analysis.") st))).
  destruct (processed_sequences self
              (sorted (map fst (sequences (firstdb self)))) st0)
    as (results & st1 & Hp).
  { apply healthy_step. now apply healthy_add_log. }
  exists results, st1. split; [exact Hp|].
  unfold diff_all_sequences. cbn [bind emit]. unfold get_all_sequences.
  erewrite bind_val.
  2:{ apply session_execute_val; [now apply healthy_add_log | reflexivity]. }
  fold st0. erewrite bind_val.
  2:{ apply for_each_spec. exists results. split; [exact Hp | reflexivity]. }
  cbn [bind emit Nat.add]. unfold status_of.
  now destruct (Nat.ltb 0 (count_failures results)).
Qed.

(** ** Only the first catalog names the units *)

Lemma emits_bind_post {A B : Type} (P : event -> Prop) (Q : A -> Prop)
    (m : M A) (f : A -> M B) :
  (forall st a st', m st = (Val a, st') -> Q a) ->
  emits P m -> (forall a, Q a -> emits P (f a)) -> emits P (bind m f).
Proof.
  intros Hq Hm Hf st r st'' E. unfold bind in E.
  destruct (m st) as [[a|e|] st'] eqn:Em;
    destruct (Hm _ _ _ Em) as (evs & Hl & Hp).
  - destruct (Hf a (Hq _ _ _ Em) _ _ _ E) as (evs' & Hl' & Hp').
    exists (evs' ++ evs)%list. split.
    + now rewrite Hl', Hl, app_assoc.
    + apply Forall_app. now split.
  - injection E as <- <-. now exists evs.
  - injection E as <- <-. now exists evs.
Qed.

Lemma diff_all_sequences_emits (self : DBDiff) :
  emits (sequence_phase_event self) (diff_all_sequences self).
Proof.
  unfold diff_all_sequences.
  apply emits_bind; [apply emits_emit; left; now eexists|]. intros _.
  apply (emits_bind_post _ (fun names => names = map fst (sequences (firstdb self)))).
  - intros st a st' E. unfold get_all_sequences in E.
    apply session_execute_inv in E. destruct E as [E _].
    unfold sql_get_sequences in E. now injection E.
  - apply emits_session. right. now left.
  - intros names ->.
    apply emits_bind.
    + apply for_each_emits.
      * intros unit Hin. eapply emits_weaken; [|apply diff_sequence_emits].
        intros e He. right. right. exists unit. split; [|now left].
        apply (Permutation_in _ (sorted_perm _) Hin).
      * intros unit r Hin. right. right. exists unit. split; [|right; now exists r].
        apply (Permutation_in _ (sorted_perm _) Hin).
    + intros failures.
      apply emits_bind; [apply emits_emit; left; now eexists|]. intros _.
      destruct (Nat.ltb 0 failures); apply emits_mret.
Qed.

Lemma bind_ext {A B : Type} (m m' : M A) (f f' : A -> M B) (st : state) :
  m st = m' st -> (forall a s, f a s = f' a s) -> bind m f st = bind m' f' st.
Proof.
  intros Hm Hf. unfold bind. rewrite Hm.
  destruct (m' st) as [[a|e|] s]; [apply Hf | reflexivity | reflexivity].
Qed.

Lemma bind_ext_post {A B : Type} (m m' : M A) (f f' : A -> M B) (st : state) :
  m st = m' st -> (forall a s, m' st = (Val a, s) -> f a s = f' a s) ->
  bind m f st = bind m' f' st.
Proof.
  intros Hm Hf. unfold bind. rewrite Hm.
  destruct (m' st) as [[a|e|] s]; [now apply Hf | reflexivity | reflexivity].
Qed.

Lemma try_ext {A : Type} (m m' : M A) (e0 : exn) (h : M A) (st : state) :
  m st = m' st -> try_except m e0 h st = try_except m' e0 h st.
Proof. intros Hm. unfold try_except. now rewrite Hm. Qed.

Lemma session_execute_agree {A : Type} (db db' : database) (sd : side)
    (q : statement) (sem : database -> answer A) :
  sem db = sem db' -> session_execute db sd q sem = session_execute db' sd q sem.
Proof. intros H. unfold session_execute. now rewrite H. Qed.

Lemma for_each_ext (diff diff' : string -> M ret) (units : list string) (n : nat)
    (st : state) :
  (forall unit s, In unit units -> diff unit s = diff' unit s) ->
  for_each diff units n st = for_each diff' units n st.
Proof.
  revert n st. induction units as [|unit units IH]; intros n st H; [reflexivity|].
  cbn [for_each]. apply bind_ext; [apply H; now left|]. intros r s.
  apply bind_ext; [reflexivity|]. intros _ s'. apply IH.
  intros u s'' Hu. apply H. now right.
Qed.

Lemma diff_sequence_second_agree (self : DBDiff) (db' : database)
    (seq_name : string) (st : state) :
  assoc seq_name (sequences db') = assoc seq_name (sequences (seconddb self)) ->
  diff_sequence (with_second self db') seq_name st = diff_sequence self seq_name st.
Proof.
  intros H. unfold diff_sequence. apply bind_ext; [|reflexivity].
  apply try_ext. apply bind_ext; [reflexivity|]. intros a s.
  apply bind_ext; [|reflexivity].
  unfold execute_sequence_value. cbn [session_db with_second seconddb].
  rewrite (session_execute_agree db' (seconddb self)); [reflexivity|].
  unfold sql_sequence_value. now rewrite H.
Qed.

Section SecondAgree.
Variable md5 : string -> string.
Variables (self : DBDiff) (db' : database) (tablename : string).
Hypothesis agree :
  assoc tablename (tables db') = assoc tablename (tables (seconddb self)).

Lemma validate_second_agree :
  validate (with_second self db') tablename = validate self tablename.
Proof.
  unfold validate, Table, query_count.
  cbn [session_db with_second firstdb seconddb count_only check_columns].
  rewrite agree.
  rewrite (session_execute_agree db' (seconddb self) Second (QueryCount tablename)
             (fun db => sql_count db tablename));
    [reflexivity|].
  unfold sql_count. now rewrite agree.
Qed.

Lemma scan_second_agree (pk : list string) (fuel : nat) (prev cursor : option Z)
    (st : state) :
  scan md5 (with_second self db') tablename pk fuel prev cursor st
  = scan md5 self tablename pk fuel prev cursor st.
Proof.
  revert prev cursor st. induction fuel as [|fuel IH]; intros prev cursor st;
    [reflexivity|].
  cbn [scan]. destruct (scalar_eqb prev cursor); [reflexivity|].
  apply bind_ext; [reflexivity|]. intros h1 s1.
  apply bind_ext.
  { unfold execute_hash. cbn [session_db with_second seconddb chunk_size].
    change (hash_columns (with_second self db') pk) with (hash_columns self pk).
    rewrite (session_execute_agree db' (seconddb self)); [reflexivity|].
    unfold sql_template_hash. now rewrite agree. }
  intros h2 s2. destruct (negb (digest_eqb h1 h2)); [reflexivity|].
  apply bind_ext; [reflexivity|]. intros next s3. apply IH.
Qed.

Lemma diff_table_data_second_agree (fuel : nat) (st : state) :
  diff_table_data md5 (with_second self db') fuel tablename st
  = diff_table_data md5 self fuel tablename st.
Proof.
  unfold diff_table_data. apply bind_ext.
  { apply try_ext. now rewrite validate_second_agree. }
  intros [early|pk] s; [reflexivity|].
  apply bind_ext; [reflexivity|]. intros c1 s1.
  apply bind_ext.
  { unfold execute_first_pk. cbn [session_db with_second seconddb].
    rewrite (session_execute_agree db' (seconddb self)); [reflexivity|].
    unfold sql_first_pk. now rewrite agree. }
  intros c2 s2. destruct (negb (scalar_eqb c1 c2)); [reflexivity|].
  apply scan_second_agree.
Qed.
End SecondAgree.

Section FirstCatalog.
Variable md5 : string -> string.

Lemma diff_all_table_data_emits (self : DBDiff) (fuel : nat) :
  emits (table_phase_event self) (diff_all_table_data md5 self fuel).
Proof.
  unfold diff_all_table_data.
  apply emits_bind; [apply emits_emit; left; now eexists|]. intros _.
  apply emits_bind.
  - apply for_each_emits.
    + intros unit Hin. eapply emits_weaken; [|apply diff_table_data_emits].
      intros e He. right. exists unit. split; [|now left].
      apply (Permutation_in _ (sorted_perm _) Hin).
    + intros unit r Hin. right. exists unit. split; [|right; now exists r].
      apply (Permutation_in _ (sorted_perm _) Hin).
  - intros failures.
    apply emits_bind; [apply emits_emit; left; now eexists|]. intros _.
    destruct (Nat.ltb 0 failures); apply emits_mret.
Qed.

Lemma diff_all_table_data_second_agree (self : DBDiff) (db' : database)
    (fuel : nat) (st : state) :
  (forall t, In t (get_table_names (firstdb self)) ->
             assoc t (tables db') = assoc t (tables (seconddb self))) ->
  diff_all_table_data md5 (with_second self db') fuel st
  = diff_all_table_data md5 self fuel st.
Proof.
  intros H. unfold diff_all_table_data.
  apply bind_ext; [reflexivity|]. intros _ s.
  apply bind_ext; [|reflexivity].
  cbn [with_second firstdb]. apply for_each_ext. intros unit s' Hin.
  apply diff_table_data_second_agree. apply H.
  apply (Permutation_in _ (sorted_perm _) Hin).
Qed.
End FirstCatalog.

Lemma diff_all_sequences_second_agree (self : DBDiff) (db' : database)
    (st : state) :
  (forall s, In s (map fst (sequences (firstdb self))) ->
             assoc s (sequences db') = assoc s (sequences (seconddb self))) ->
  diff_all_sequences (with_second self db') st = diff_all_sequences self st.
Proof.
  intros H. unfold diff_all_sequences.
  apply bind_ext; [reflexivity|]. intros _ s0.
  apply bind_ext_post; [reflexivity|]. intros names s1 E.
  unfold get_all_sequences in E.
  apply session_execute_inv in E. destruct E as [E _].
  unfold sql_get_sequences in E. injection E as <-.
  cbv zeta. apply bind_ext; [|reflexivity].
  apply for_each_ext. intros unit s' Hin.
  apply diff_sequence_second_agree. apply H.
  apply (Permutation_in _ (sorted_perm _) Hin).
Qed.

(** ** A table that one source does not have *)

Lemma diff_table_data_table_missing (md5 : string -> string) (self : DBDiff)
    (fuel : nat) (tablename : string) (st : state) :
  assoc tablename (tables (firstdb self)) = None
  \/ assoc tablename (tables (seconddb self)) = None ->
  diff_table_data md5 self fuel tablename st
  = (Val (Some false, "table is missing"), st).
Proof.
  intros H. apply diff_table_data_missing.
  destruct (assoc tablename (tables (firstdb self))) as [t1|] eqn:E1.
  - destruct H as [H|H]; [discriminate|].
    now apply (validate_missing_second self tablename t1).
  - now apply validate_missing_first.
Qed.

(** * The claims *)

Section Claims.
Variable md5 : string -> string.




(** C4.  Key and column validation of [diff_table_data], for a table with
    equal non-zero counts and [count_only] off.  Without primary key columns
    on the first source the result is Inconclusive whatever the rows hold.  A
    checked column that the first source does not have gives Inconclusive
    after the three [count()] calls and nothing else is sent; the reason is
    "missing checked columns" when there is a primary key.  With the empty
    list of checked columns the validation passes, every digest statement
    selects [t.*], and the digest of a row covers all the columns of the
    table. *)
Theorem key_column_validation (self : DBDiff) (fuel : nat) (tablename : string)
    (t1 t2 : table) (st : state) :
  healthy st ->
  assoc tablename (tables (firstdb self)) = Some t1 ->
  assoc tablename (tables (seconddb self)) = Some t2 ->
  List.length (rows t1) = List.length (rows t2) ->
  List.length (rows t1) <> 0%nat ->
  count_only self = false ->
  (constrained_columns t1 = [] ->
   diff_table_data md5 self fuel tablename st
   = (Val (None, "no primary key(s) on this table. Comparison is not possible."),
      counted tablename st))
  /\ (forall checked c,
        check_columns self = Some checked -> In c checked -> ~ In c (columns t1) ->
        exists reason,
          diff_table_data md5 self fuel tablename st
          = (Val (None, reason), counted tablename st)
          /\ (String.concat "," (constrained_columns t1) <> "" ->
              reason = "missing checked columns"))
  /\ (check_columns self = Some [] ->
      (String.concat "," (constrained_columns t1) <> "" ->
       validate self tablename st
       = (Val (inr (constrained_columns t1)), counted tablename st))
      /\ (forall r st' evs sd tn pk cols c row_limit,
            diff_table_data md5 self fuel tablename st = (r, st') ->
            log st' = (evs ++ log st)%list ->
            In (Executed sd (SQL_TEMPLATE_HASH tn pk cols c row_limit)) evs ->
            cols = None)
      /\ (forall t r,
            digest_input t None r = map (cell (columns t) r) (columns t)
            /\ (NoDup (columns t) -> List.length r = List.length (columns t) ->
                digest_input t None r = r))).
Proof.
  intros H E1 E2 Hn Hz Hc.
  split; [|split; [|intros Hempty; split; [|split; [|split]]]].
  - intros Hpk. apply (diff_table_data_no_pk md5 self fuel tablename t1 t2); trivial.
    now rewrite Hpk.
  - intros checked c Hch Hin Hout.
    destruct (String.eqb (String.concat "," (constrained_columns t1)) "") eqn:Epk.
    + apply String.eqb_eq in Epk. eexists. split.
      * now apply (diff_table_data_no_pk md5 self fuel tablename t1 t2).
      * intros Hne. now elim Hne.
    + apply String.eqb_neq in Epk. eexists. split.
      * now apply (diff_table_data_missing_column md5 self fuel tablename t1 t2
                     checked c).
      * reflexivity.
  - intros Hpk. apply (validate_passes self tablename t1 t2 []); trivial.
    intros c [].
  - intros r st' evs sd tn pk cols c row_limit E Hl Hin.
    destruct (diff_table_data_emits md5 self fuel tablename _ _ _ E)
      as (evs' & Hl' & Hp).
    rewrite Hl in Hl'. apply app_inv_tail in Hl'. subst evs'.
    rewrite Forall_forall in Hp. destruct (Hp _ Hin) as (sd' & q & [= <- <-] & Hq).
    destruct Hq as [Hq|[(pk' & Hq)|[(pk' & c' & Hq)|(pk' & c' & Hq)]]];
      try discriminate.
    unfold hash_stmt in Hq. injection Hq as _ <- -> _ _.
    unfold hash_columns. now rewrite Hempty.
  - reflexivity.
  - apply cells_all.
Qed.



(** C7 (failing input).  The two sources hold the table "events" with one row
    each; its key column is "id" on the first source and "key" on the second.
    The first-key statement fails on the second source and
    [diff_table_data] lets the [ProgrammingError] escape, with the second
    session left in an aborted transaction. *)
Theorem table_query_error_escapes (fuel : nat) :
  diff_table_data md5 Fixture.differ fuel "events" fresh
  = (Exc ProgrammingError,
     mkState Active Aborted
       [Executed Second (SQL_QUERY_FIRST_PK "events" ["id"]);
        Executed First (SQL_QUERY_FIRST_PK "events" ["id"]);
        Executed First (QueryCount "events");
        Executed Second (QueryCount "events");
        Executed First (QueryCount "events")]).
Proof. reflexivity. Qed.

(** C8.  Aggregation in the two phases.  [diff_all_table_data] answers with a
    status exactly when every table of the first catalog, taken in sorted
    order, got its answer from [diff_table_data], one after the other, each
    followed by its spinner line, whatever the answers were; the status is
    computed from the number of Mismatch answers alone.  [diff_all_sequences]
    always answers, after every sequence of the first catalog in sorted order
    got its answer.  [sorted] is an ascending rearrangement of the names.  The
    status is 0 exactly when no answer is Mismatch; Inconclusive answers are
    shown as warnings and are not counted. *)
Theorem orchestrator_aggregation (self : DBDiff) (fuel : nat) (st : state) :
  (forall code st',
     diff_all_table_data md5 self fuel st = (Val code, st')
     <-> exists results st1,
           processed (diff_table_data md5 self fuel)
             (sorted (get_table_names (firstdb self))) results
             (add_log (Print "Starting table analysis.") st) st1
           /\ st' = add_log (Print "Table analysis complete.") st1
           /\ code = status_of (count_failures results))
  /\ (healthy st ->
      exists results st1,
        processed (diff_sequence self)
          (sorted (map fst (sequences (firstdb self)))) results
          (add_log (Executed First GET_SEQUENCES_SQL)
             (set_txn First Active
                (add_log (Print "Starting sequence analysis.") st)))
          st1
        /\ diff_all_sequences self st
           = (Val (status_of (count_failures results)),
              add_log (Print "Sequence analysis complete.") st1))
  /\ (forall names,
        Permutation (sorted names) names /\ StronglySorted names_le (sorted names))
  /\ (forall results,
        (status_of (count_failures results) = 0
         <-> Forall (fun r => ~ Mismatch r) results)
        /\ (status_of (count_failures results) = 0
            \/ status_of (count_failures results) = 1))
  /\ (forall unit r,
        (Mismatch r <-> is_failure r = true)
        /\ (Mismatch r -> spinner_event unit r = Fail (unit ++ " - " ++ snd r))
        /\ (Inconclusive r -> spinner_event unit r = Warn (unit ++ " - " ++ snd r))
        /\ (Match r -> spinner_event unit r = Succeed (unit ++ " - " ++ snd r))).
Proof.
  split; [|split; [|split; [|split]]].
  - intros code st'. apply diff_all_table_data_spec.
  - apply diff_all_sequences_spec.
  - intros names. split; [apply sorted_perm | apply sorted_sorted].
  - intros results. split; [apply status_of_zero|].
    unfold status_of. destruct (Nat.ltb 0 (count_failures results)); tauto.
  - intros unit r. unfold Mismatch, Inconclusive, Match, is_failure, spinner_event.
    destruct (fst r) as [[|]|]; repeat split; intros; congruence.
Qed.

(** C9.  With [check_columns = None], the default of the constructor, every
    table that reaches the column validation (present in both sources, equal
    non-zero counts, [count_only] off, a primary key) makes [diff_table_data]
    raise [TypeError], and no such comparison ever sends a digest statement.
    For any [DBDiff], a digest statement over [t.*] is sent only when
    [check_columns] is the empty list. *)
Theorem default_check_columns_raises (self : DBDiff) (fuel : nat)
    (tablename : string) (st : state) :
  (check_columns self = None ->
   (forall t1 t2,
      healthy st ->
      assoc tablename (tables (firstdb self)) = Some t1 ->
      assoc tablename (tables (seconddb self)) = Some t2 ->
      List.length (rows t1) = List.length (rows t2) ->
      List.length (rows t1) <> 0%nat ->
      count_only self = false ->
      String.concat "," (constrained_columns t1) <> "" ->
      diff_table_data md5 self fuel tablename st
      = (Exc TypeError, counted tablename st))
   /\ (forall r st' evs sd tn pk cols c row_limit,
         diff_table_data md5 self fuel tablename st = (r, st') ->
         log st' = (evs ++ log st)%list ->
         ~ In (Executed sd (SQL_TEMPLATE_HASH tn pk cols c row_limit)) evs))
  /\ (forall r st' evs sd tn pk c row_limit,
        diff_table_data md5 self fuel tablename st = (r, st') ->
        log st' = (evs ++ log st)%list ->
        In (Executed sd (SQL_TEMPLATE_HASH tn pk None c row_limit)) evs ->
        check_columns self = Some []).
Proof.
  split; [intros Hnone; split|].
  - intros t1 t2 H E1 E2 Hn Hz Hc Hpk.
    apply diff_table_data_raise; [|discriminate].
    now apply (validate_untyped self tablename t1 t2).
  - intros r st' evs sd tn pk cols c row_limit E Hl Hin.
    destruct (diff_table_data_untyped_emits md5 self fuel tablename Hnone _ _ _ E)
      as (evs' & Hl' & Hp).
    rewrite Hl in Hl'. apply app_inv_tail in Hl'. subst evs'.
    rewrite Forall_forall in Hp. destruct (Hp _ Hin) as (sd' & Hq). discriminate.
  - intros r st' evs sd tn pk c row_limit E Hl Hin.
    destruct (check_columns self) as [[|x checked]|] eqn:Hch; [reflexivity| |].
    + exfalso.
      destruct (diff_table_data_emits md5 self fuel tablename _ _ _ E)
        as (evs' & Hl' & Hp).
      rewrite Hl in Hl'. apply app_inv_tail in Hl'. subst evs'.
      rewrite Forall_forall in Hp. destruct (Hp _ Hin) as (sd' & q & [= <- <-] & Hq).
      destruct Hq as [Hq|[(pk' & Hq)|[(pk' & c' & Hq)|(pk' & c' & Hq)]]];
        try discriminate.
      unfold hash_stmt, hash_columns in Hq. rewrite Hch in Hq. discriminate.
    + exfalso.
      destruct (diff_table_data_untyped_emits md5 self fuel tablename Hch _ _ _ E)
        as (evs' & Hl' & Hp).
      rewrite Hl in Hl'. apply app_inv_tail in Hl'. subst evs'.
      rewrite Forall_forall in Hp. destruct (Hp _ Hin) as (sd' & Hq). discriminate.
Qed.

(** C10.  Units come from the first catalog only.  Everything the table phase
    logs is a banner, or a statement or spinner line about a table of the
    first catalog; likewise for the sequence phase, whose catalog statement
    goes to the first session.  The units processed are the names of the
    first catalog.  So a second source that answers the same for every name of
    the first catalog gives the same run, with the same status: in particular
    a table or a sequence added to the second source under a name that the
    first catalog does not have changes nothing, and a run that succeeds
    without it succeeds with it. *)
Theorem first_catalog_only (self : DBDiff) (fuel : nat) :
  emits (table_phase_event self) (diff_all_table_data md5 self fuel)
  /\ emits (sequence_phase_event self) (diff_all_sequences self)
  /\ (forall name,
        (In name (sorted (get_table_names (firstdb self)))
         <-> In name (get_table_names (firstdb self)))
        /\ (In name (sorted (map fst (sequences (firstdb self))))
            <-> In name (map fst (sequences (firstdb self)))))
  /\ (forall db' st,
        (forall t, In t (get_table_names (firstdb self)) ->
                   assoc t (tables db') = assoc t (tables (seconddb self))) ->
        diff_all_table_data md5 (with_second self db') fuel st
        = diff_all_table_data md5 self fuel st)
  /\ (forall db' st,
        (forall s, In s (map fst (sequences (firstdb self))) ->
                   assoc s (sequences db') = assoc s (sequences (seconddb self))) ->
        diff_all_sequences (with_second self db') st = diff_all_sequences self st)
  /\ (forall name t st,
        ~ In name (get_table_names (firstdb self)) ->
        diff_all_table_data md5
          (with_second self
             (mkDatabase ((name, t) :: tables (seconddb self))
                (sequences (seconddb self)))) fuel st
        = diff_all_table_data md5 self fuel st)
  /\ (forall name v st,
        ~ In name (map fst (sequences (firstdb self))) ->
        diff_all_sequences
          (with_second self
             (mkDatabase (tables (seconddb self))
                ((name, v) :: sequences (seconddb self)))) st
        = diff_all_sequences self st).
Proof.
  split; [apply diff_all_table_data_emits|].
  split; [apply diff_all_sequences_emits|].
  split.
  { intros name. split; split; apply Permutation_in;
      first [apply sorted_perm | apply Permutation_sym, sorted_perm]. }
  split; [intros db' st; apply diff_all_table_data_second_agree|].
  split; [intros db' st; apply diff_all_sequences_second_agree|].
  split.
  - intros name t st Hout. apply diff_all_table_data_second_agree.
    intros u Hu. cbn [tables assoc].
    destruct (String.eqb u name) eqn:E; [|reflexivity].
    apply String.eqb_eq in E. subst u. now elim Hout.
  - intros name v st Hout. apply diff_all_sequences_second_agree.
    intros u Hu. cbn [sequences assoc].
    destruct (String.eqb u name) eqn:E; [|reflexivity].
    apply String.eqb_eq in E. subst u. now elim Hout.
Qed.

End Claims.

(** * The claims on the fixtures *)




(** With a chunk size of one the cursor statement answers with its own cursor
    at the first turn: only the first row of each source is digested, and the
    different last rows of the two ledgers go unseen. *)
Lemma chunk_size_one_stops_after_first_row :
  rows Fixture.ledger_a <> rows Fixture.ledger_b
  /\ diff_table_data Fixture.plain_digest
       (mkDBDiff Fixture.source_a Fixture.source_b 1 false (Some [])) 9 "ledger" fresh
     = (Val (Some true, "data is identical."),
        mkState Active Active
          [Executed First (SQL_QUERY_CURSOR "ledger" ["id"] (Some 1) 1);
           Executed Second (SQL_TEMPLATE_HASH "ledger" ["id"] None (Some 1) 1);
           Executed First (SQL_TEMPLATE_HASH "ledger" ["id"] None (Some 1) 1);
           Executed Second (SQL_QUERY_FIRST_PK "ledger" ["id"]);
           Executed First (SQL_QUERY_FIRST_PK "ledger" ["id"]);
           Executed First (QueryCount "ledger");
           Executed Second (QueryCount "ledger");
           Executed First (QueryCount "ledger")]).
Proof. split; [discriminate | reflexivity]. Qed.



(** No primary key; a checked column that the first source does not have; the
    empty list of checked columns. *)
Lemma key_column_validation_witness :
  diff_table_data Fixture.plain_digest Fixture.differ 9 "notes" fresh
  = (Val (None, "no primary key(s) on this table. Comparison is not possible."),
     counted "notes" fresh)
  /\ diff_table_data Fixture.plain_digest
       (mkDBDiff Fixture.source_a Fixture.source_b 10000 false
          (Some ["amount"; "owner"])) 9 "ledger" fresh
     = (Val (None, "missing checked columns"), counted "ledger" fresh)
  /\ validate Fixture.differ "ledger" fresh
     = (Val (inr ["id"]), counted "ledger" fresh).
Proof.
  destruct (key_column_validation Fixture.plain_digest Fixture.differ 9 "notes"
              Fixture.notes_a Fixture.notes_b fresh healthy_fresh eq_refl eq_refl
              eq_refl ltac:(discriminate) eq_refl) as (Hkey & _ & _).
  destruct (key_column_validation Fixture.plain_digest
              (mkDBDiff Fixture.source_a Fixture.source_b 10000 false
                 (Some ["amount"; "owner"])) 9 "ledger"
              Fixture.ledger_a Fixture.ledger_b fresh healthy_fresh eq_refl eq_refl
              eq_refl ltac:(discriminate) eq_refl) as (_ & Hcol & _).
  destruct (key_column_validation Fixture.plain_digest Fixture.differ 9 "ledger"
              Fixture.ledger_a Fixture.ledger_b fresh healthy_fresh eq_refl eq_refl
              eq_refl ltac:(discriminate) eq_refl) as (_ & _ & Hall).
  split; [exact (Hkey eq_refl)|]. split.
  - destruct (Hcol ["amount"; "owner"] "owner" eq_refl) as (reason & E & Hreason).
    + right. now left.
    + intros [H|[H|[]]]; discriminate.
    + rewrite E, Hreason; [reflexivity | discriminate].
  - destruct (Hall eq_refl) as (Hpass & _). apply Hpass. discriminate.
Defined.



(** A table phase with one Mismatch, and the sequence phase of the fixture
    with its four sequences in sorted order. *)
Lemma orchestrator_aggregation_witness :
  healthy fresh
  /\ (exists results st1,
        processed
          (diff_table_data Fixture.plain_digest
             (mkDBDiff Fixture.source_late Fixture.source_a 2 false (Some [])) 9)
          ["ledger"] results (add_log (Print "Starting table analysis.") fresh) st1
        /\ 1 = status_of (count_failures results))
  /\ (exists results st1,
        processed (diff_sequence Fixture.differ)
          ["s_gone"; "s_lag"; "s_lead"; "s_same"] results
          (add_log (Executed First GET_SEQUENCES_SQL)
             (set_txn First Active
                (add_log (Print "Starting sequence analysis.") fresh)))
          st1
        /\ diff_all_sequences Fixture.differ fresh
           = (Val (status_of (count_failures results)),
              add_log (Print "Sequence analysis complete.") st1)).
Proof.
  destruct (orchestrator_aggregation Fixture.plain_digest
              (mkDBDiff Fixture.source_late Fixture.source_a 2 false (Some []))
              9 fresh) as (Htables & _).
  destruct (orchestrator_aggregation Fixture.plain_digest Fixture.differ 9 fresh)
    as (_ & Hseq & _).
  split; [exact healthy_fresh|]. split.
  - destruct (proj1 (Htables 1 _) eq_refl) as (results & st1 & Hp & _ & Hs).
    now exists results, st1.
  - exact (Hseq healthy_fresh).
Defined.

(** [DBDiff(firstdb, seconddb)] on the ledger. *)
Lemma default_check_columns_raises_witness :
  check_columns (DBDiff_default Fixture.source_a Fixture.source_b) = None
  /\ diff_table_data Fixture.plain_digest
       (DBDiff_default Fixture.source_a Fixture.source_b) 9 "ledger" fresh
     = (Exc TypeError, counted "ledger" fresh).
Proof.
  split; [reflexivity|].
  destruct (default_check_columns_raises Fixture.plain_digest
              (DBDiff_default Fixture.source_a Fixture.source_b) 9 "ledger" fresh)
    as [Hnone _].
  destruct (Hnone eq_refl) as [Hraise _].
  apply (Hraise Fixture.ledger_a Fixture.ledger_b healthy_fresh eq_refl eq_refl
           eq_refl ltac:(discriminate) eq_refl ltac:(discriminate)).
Defined.

(** The second source has a table and a sequence of its own; the run gives
    status 0. *)
Lemma first_catalog_only_witness :
  ~ In "audit" (get_table_names Fixture.source_small)
  /\ In "audit" (get_table_names Fixture.source_small_extra)
  /\ ~ In "audit_seq" (map fst (sequences Fixture.source_small))
  /\ In "audit_seq" (map fst (sequences Fixture.source_small_extra))
  /\ fst (diff_all_table_data Fixture.plain_digest
            (with_second
               (mkDBDiff Fixture.source_small Fixture.source_mirror 2 false (Some []))
               Fixture.source_small_extra) 9 fresh)
     = Val 0
  /\ fst (main Fixture.plain_digest Fixture.connect Fixture.command_line 9 fresh)
     = Val 0.
Proof.
  split; [intros [H|[]]; discriminate|].
  split; [now left|].
  split; [intros [H|[]]; discriminate|].
  split; [now left|].
  split; [|reflexivity].
  destruct (first_catalog_only Fixture.plain_digest
              (mkDBDiff Fixture.source_small Fixture.source_mirror 2 false (Some []))
              9) as (_ & _ & _ & Hagree & _).
  rewrite Hagree; [reflexivity|].
  intros t [<-|[]]. reflexivity.
Defined.

(** * Further properties *)

(** ** What the checks answered *)

Lemma filter_short {A : Type} (f : A -> bool) (l : list A) :
  List.length (filter f l) <> List.length l -> exists x, In x l /\ f x = false.
Proof.
  induction l as [|x l IH]; simpl; intros H; [now elim H|].
  destruct (f x) eqn:E.
  - destruct IH as (y & Hy & Hf); [simpl in H; lia|]. exists y. split; [now right|exact Hf].
  - exists x. split; [now left | exact E].
Qed.

Lemma session_execute_raise {A : Type} (db : database) (sd : side) (q : statement)
    (sem : database -> answer A) (e : exn) (st st' : state) :
  session_execute db sd q sem st = (Exc e, st') ->
  (e = InternalError /\ st' = st /\ txn_of sd st = Aborted)
  \/ (sem db = Error e /\ st' = add_log (Executed sd q) (set_txn sd Aborted st)).
Proof.
  unfold session_execute.
  destruct (txn_of sd st); destruct (sem db) as [a|e'] eqn:E; intros [= <- <-];
    first [ right; now split | left; repeat split ].
Qed.

Lemma sql_count_error (db : database) (tablename : string) (e : exn) :
  sql_count db tablename = Error e -> e = ProgrammingError.
Proof.
  unfold sql_count. destruct (assoc tablename (tables db)); [discriminate|].
  now intros [= <-].
Qed.

(** A count statement never raises [NoSuchTableError]. *)
Lemma query_count_raise (self : DBDiff) (sd : side) (tablename : string)
    (e : exn) (st st' : state) :
  query_count self sd tablename st = (Exc e, st') -> e <> NoSuchTableError.
Proof.
  unfold query_count. intros E. apply session_execute_raise in E.
  destruct E as [(-> & _)|[E _]]; [discriminate|].
  apply sql_count_error in E. now subst e.
Qed.

(** What is known when the [try] block returns. *)
Lemma validate_inl (self : DBDiff) (tablename : string) (r : ret) (st st' : state) :
  validate self tablename st = (Val (inl r), st') ->
  exists t1 t2,
    assoc tablename (tables (firstdb self)) = Some t1
    /\ assoc tablename (tables (seconddb self)) = Some t2
    /\ ((List.length (rows t1) <> List.length (rows t2)
         /\ r = (Some false,
                 "counts are different " ++ str_nat (List.length (rows t1))
                 ++ " != " ++ str_nat (List.length (rows t2)))
         /\ st' = recounted tablename st)
        \/ (List.length (rows t1) = List.length (rows t2)
            /\ st' = counted tablename st
            /\ ((List.length (rows t1) = 0%nat /\ r = (None, "tables are empty"))
                \/ (List.length (rows t1) <> 0%nat
                    /\ ((count_only self = true
                         /\ r = (Some true, "Counts are the same"))
                        \/ (count_only self = false
                            /\ String.concat "," (constrained_columns t1) = ""
                            /\ r = (None, "no primary key(s) on this table. Comparison is not possible."))
                        \/ (count_only self = false
                            /\ String.concat "," (constrained_columns t1) <> ""
                            /\ r = (None, "missing checked columns")
                            /\ exists checked c,
                                 check_columns self = Some checked
                                 /\ In c checked /\ ~ In c (columns t1))))))).
Proof.
  unfold validate, Table, get_pk_constraint, get_columns, query_count.
  destruct (assoc tablename (tables (firstdb self))) as [t1|] eqn:E1; [|discriminate].
  destruct (assoc tablename (tables (seconddb self))) as [t2|] eqn:E2; [|discriminate].
  intros E. exists t1, t2. split; [reflexivity|]. split; [reflexivity|]. revert E.
  cbn [bind mret]. unfold bind at 1.
  destruct (session_execute _ First _ _ st) as [[c1| |] s1] eqn:X1; try discriminate.
  apply session_execute_inv in X1. destruct X1 as [X1 ->].
  apply (sql_count_inv _ _ _ _ E1) in X1. subst c1.
  unfold bind at 1.
  destruct (session_execute _ Second _ _ _) as [[c2| |] s2] eqn:X2; try discriminate.
  apply session_execute_inv in X2. destruct X2 as [X2 ->].
  apply (sql_count_inv _ _ _ _ E2) in X2. subst c2.
  destruct (Nat.eqb (List.length (rows t1)) (List.length (rows t2))) eqn:En; cbn [negb].
  2:{ apply Nat.eqb_neq in En. unfold bind at 1.
      destruct (session_execute _ First _ _ _) as [[a| |] s3] eqn:X3; try discriminate.
      apply session_execute_inv in X3. destruct X3 as [X3 ->].
      apply (sql_count_inv _ _ _ _ E1) in X3. subst a.
      unfold bind at 1.
      destruct (session_execute _ Second _ _ _) as [[b| |] s4] eqn:X4; try discriminate.
      apply session_execute_inv in X4. destruct X4 as [X4 ->].
      apply (sql_count_inv _ _ _ _ E2) in X4. subst b.
      unfold mret. intros [= <- <-]. left. repeat split; trivial. }
  apply Nat.eqb_eq in En.
  unfold bind at 1.
  destruct (session_execute _ First _ _ _) as [[c| |] s3] eqn:X3; try discriminate.
  apply session_execute_inv in X3. destruct X3 as [X3 ->].
  apply (sql_count_inv _ _ _ _ E1) in X3. subst c.
  intros E. right. split; [exact En|]. revert E.
  destruct (Nat.eqb (List.length (rows t1)) 0) eqn:Ez.
  { apply Nat.eqb_eq in Ez. unfold mret. intros [= <- <-].
    split; [reflexivity|]. left. now split. }
  apply Nat.eqb_neq in Ez.
  destruct (count_only self).
  { unfold mret. intros [= <- <-]. split; [reflexivity|]. right.
    split; [exact Ez|]. left. now split. }
  cbn [bind mret].
  destruct (String.eqb (String.concat "," (constrained_columns t1)) "") eqn:Epk.
  { apply String.eqb_eq in Epk. unfold mret. intros [= <- <-].
    split; [reflexivity|]. right. split; [exact Ez|]. right. left. now repeat split. }
  apply String.eqb_neq in Epk.
  destruct (check_columns self) as [checked|]; [|discriminate].
  cbn [bind mret].
  destruct (negb (Nat.eqb
                    (List.length (filter (fun x => str_in x (columns t1)) checked))
                    (List.length checked))) eqn:Elen; [|discriminate].
  unfold mret. intros [= <- <-]. split; [reflexivity|]. right.
  split; [exact Ez|]. right. right. repeat split; trivial.
  apply negb_true_iff, Nat.eqb_neq, filter_short in Elen.
  destruct Elen as (c & Hc & Hf). exists checked, c. repeat split; trivial.
  now apply str_in_not_In.
Qed.

(** The [try] block raises [NoSuchTableError] only from the reflection of an
    absent table, before anything is sent. *)
Lemma validate_no_such_table (self : DBDiff) (tablename : string) (st st' : state) :
  validate self tablename st = (Exc NoSuchTableError, st') ->
  (assoc tablename (tables (firstdb self)) = None
   \/ assoc tablename (tables (seconddb self)) = None)
  /\ st' = st.
Proof.
  unfold validate, Table, get_pk_constraint, get_columns.
  destruct (assoc tablename (tables (firstdb self))) as [t1|] eqn:E1.
  2:{ intros [= <-]. split; [now left | reflexivity]. }
  destruct (assoc tablename (tables (seconddb self))) as [t2|] eqn:E2.
  2:{ intros [= <-]. split; [now right | reflexivity]. }
  cbn [bind mret]. intros E. exfalso. revert E.
  unfold bind at 1.
  destruct (query_count self First tablename st) as [[c1|e|] s1] eqn:X1;
    try discriminate.
  2:{ intros [= -> _]. now apply query_count_raise in X1. }
  unfold bind at 1.
  destruct (query_count self Second tablename s1) as [[c2|e|] s2] eqn:X2;
    try discriminate.
  2:{ intros [= -> _]. now apply query_count_raise in X2. }
  destruct (negb (Nat.eqb c1 c2)).
  { unfold bind at 1.
    destruct (query_count self First tablename s2) as [[a|e|] s3] eqn:X3;
      try discriminate.
    2:{ intros [= -> _]. now apply query_count_raise in X3. }
    unfold bind at 1.
    destruct (query_count self Second tablename s3) as [[b|e|] s4] eqn:X4;
      try discriminate.
    intros [= -> _]. now apply query_count_raise in X4. }
  unfold bind at 1.
  destruct (query_count self First tablename s2) as [[c|e|] s3] eqn:X3;
    try discriminate.
  2:{ intros [= -> _]. now apply query_count_raise in X3. }
  destruct (Nat.eqb c 0); [discriminate|].
  destruct (count_only self); [discriminate|].
  cbn [bind mret].
  destruct (String.eqb (String.concat "," (constrained_columns t1)) "");
    [discriminate|].
  destruct (check_columns self) as [checked|]; [|discriminate].
  cbn [bind mret]. destruct (negb _); discriminate.
Qed.

(** ** One run of [diff_table_data], read backwards *)

Section Backwards.
Variable md5 : string -> string.

(** One turn of the loop that returns. *)
Lemma scan_turn_inv (self : DBDiff) (tablename : string) (pk : list string)
    (fuel : nat) (prev cursor : option Z) (r : ret) (st st' : state) :
  scan md5 self tablename pk (S fuel) prev cursor st = (Val r, st') ->
  (prev = cursor /\ r = (Some true, "data is identical.") /\ st' = st)
  \/ (prev <> cursor
      /\ exists h1 h2,
           hash_on md5 self tablename pk First cursor = Ok h1
           /\ hash_on md5 self tablename pk Second cursor = Ok h2
           /\ ((h1 <> h2 /\ r = (Some false, data_differs self cursor)
                /\ st' = digested self tablename pk cursor st)
               \/ (h1 = h2
                   /\ exists next,
                        sql_query_cursor (firstdb self) tablename pk cursor
                          (chunk_size self) = Ok next
                        /\ scan md5 self tablename pk fuel cursor next
                             (advanced self tablename pk cursor st)
                           = (Val r, st')))).
Proof.
  cbn [scan]. destruct (scalar_eqb prev cursor) eqn:Ec.
  { intros [= <- <-]. left. split; [now apply scalar_eqb_eq | now split]. }
  apply scalar_eqb_neq in Ec. intros E. right. split; [exact Ec|]. revert E.
  unfold execute_hash, execute_cursor. unfold bind at 1.
  destruct (session_execute _ First _ _ st) as [[h1| |] s1] eqn:X1; try discriminate.
  apply session_execute_inv in X1. destruct X1 as [X1 ->].
  unfold bind at 1.
  destruct (session_execute _ Second _ _ _) as [[h2| |] s2] eqn:X2; try discriminate.
  apply session_execute_inv in X2. destruct X2 as [X2 ->].
  exists h1, h2. split; [exact X1|]. split; [exact X2|]. revert E.
  destruct (digest_eqb h1 h2) eqn:Eh; cbn [negb].
  - apply digest_eqb_eq in Eh. unfold bind at 1.
    destruct (session_execute _ First _ _ _) as [[next| |] s3] eqn:X3;
      try discriminate.
    apply session_execute_inv in X3. destruct X3 as [X3 ->].
    intros E. right. split; [exact Eh|]. exists next. split; [exact X3 | exact E].
  - apply digest_eqb_neq in Eh. unfold mret. intros [= <- <-]. left.
    split; [exact Eh|]. split; reflexivity.
Qed.

(** The loop answers Match or Mismatch, never Inconclusive. *)
Lemma scan_decides (self : DBDiff) (tablename : string) (pk : list string)
    (fuel : nat) (prev cursor : option Z) (r : ret) (st st' : state) :
  scan md5 self tablename pk fuel prev cursor st = (Val r, st') ->
  r = (Some true, "data is identical.")
  \/ exists c h1 h2,
       hash_on md5 self tablename pk First c = Ok h1
       /\ hash_on md5 self tablename pk Second c = Ok h2
       /\ h1 <> h2 /\ r = (Some false, data_differs self c).
Proof.
  revert prev cursor st. induction fuel as [|fuel IH]; intros prev cursor st E;
    [discriminate|].
  apply scan_turn_inv in E.
  destruct E as [(_ & -> & _)|(_ & h1 & h2 & X1 & X2 & [(Hne & -> & _)|(_ & next & _ & E)])].
  - now left.
  - right. now exists cursor, h1, h2.
  - exact (IH _ _ _ E).
Qed.

(** The ways in which [diff_table_data] returns. *)
Lemma diff_table_data_inv (self : DBDiff) (fuel : nat) (tablename : string)
    (r : ret) (st st' : state) :
  diff_table_data md5 self fuel tablename st = (Val r, st') ->
  ((assoc tablename (tables (firstdb self)) = None
    \/ assoc tablename (tables (seconddb self)) = None)
   /\ r = (Some false, "table is missing") /\ st' = st)
  \/ validate self tablename st = (Val (inl r), st')
  \/ exists pk c1 c2,
       validate self tablename st = (Val (inr pk), counted tablename st)
       /\ sql_first_pk (firstdb self) tablename pk = Ok c1
       /\ sql_first_pk (seconddb self) tablename pk = Ok c2
       /\ ((c1 <> c2 /\ r = (Some false, "first primary keys are different")
            /\ st' = keyed tablename pk st)
           \/ (c1 = c2
               /\ scan md5 self tablename pk fuel None c1 (keyed tablename pk st)
                  = (Val r, st'))).
Proof.
  unfold diff_table_data. unfold bind at 1. unfold try_except.
  destruct (validate self tablename st) as [[[early|pk]|e|] s] eqn:V.
  - unfold mret. intros [= <- <-]. right. left. reflexivity.
  - pose proof (validate_inr _ _ _ _ _ V) as Hv.
    destruct Hv as (t1 & t2 & checked & _ & _ & _ & _ & _ & _ & _ & _ & _ & ->).
    unfold execute_first_pk. unfold bind at 1.
    destruct (session_execute _ First _ _ _) as [[c1| |] s1] eqn:X1; try discriminate.
    apply session_execute_inv in X1. destruct X1 as [X1 ->].
    unfold bind at 1.
    destruct (session_execute _ Second _ _ _) as [[c2| |] s2] eqn:X2; try discriminate.
    apply session_execute_inv in X2. destruct X2 as [X2 ->].
    intros E. right. right. exists pk, c1, c2.
    split; [reflexivity|]. split; [exact X1|]. split; [exact X2|]. revert E.
    destruct (scalar_eqb c1 c2) eqn:Ec; cbn [negb].
    + apply scalar_eqb_eq in Ec. intros E. right. split; [exact Ec | exact E].
    + apply scalar_eqb_neq in Ec. unfold mret. intros [= <- <-]. left.
      split; [exact Ec|]. split; reflexivity.
  - destruct e; cbn [exn_eqb]; try discriminate.
    unfold mret. cbn. intros [= <- <-]. left.
    apply validate_no_such_table in V. destruct V as [V ->]. now split.
  - discriminate.
Qed.
End Backwards.

(** ** Every verdict of [diff_table_data] has its cause *)

Section Verdicts.
Variable md5 : string -> string.

(** X1.  A table that is absent from one of the two sources is a Mismatch
    with the message "table is missing", and this costs no statement: the
    sessions and the log are as before.  The message is given in no other
    case. *)
Theorem table_missing_iff (self : DBDiff) (fuel : nat) (tablename : string)
    (st : state) :
  (assoc tablename (tables (firstdb self)) = None
   \/ assoc tablename (tables (seconddb self)) = None)
  <-> diff_table_data md5 self fuel tablename st
      = (Val (Some false, "table is missing"), st).
Proof.
  split; [apply diff_table_data_table_missing|].
  intros E. apply diff_table_data_inv in E.
  destruct E as [(Hmiss & _)|[V|(pk & c1 & c2 & _ & _ & _ & H)]]; [exact Hmiss| |].
  - apply validate_inl in V. destruct V as (t1 & t2 & _ & _ & H).
    destruct H as [(_ & H & _)|(_ & _ & H)]; [cbn in H; discriminate H|].
    destruct H as [(_ & [=])|(_ & [(_ & [=])|[(_ & _ & [=])|(_ & _ & [=] & _)]])].
  - destruct H as [(_ & [=] & _)|(_ & E)].
    apply scan_decides in E. destruct E as [[=]|(c & h1 & h2 & _ & _ & _ & H)].
    cbn in H. discriminate H.
Qed.

(** X2.  A Mismatch is never reported without a cause: when
    [diff_table_data] returns [(False, msg)], either the table is absent from
    one source, or the two row counts differ, or the two first keys differ,
    or the two digests of one chunk differ at the cursor that the message
    names; the message tells which. *)
Theorem mismatch_has_cause (self : DBDiff) (fuel : nat) (tablename : string)
    (msg : string) (st st' : state) :
  diff_table_data md5 self fuel tablename st = (Val (Some false, msg), st') ->
  (msg = "table is missing"
   /\ (assoc tablename (tables (firstdb self)) = None
       \/ assoc tablename (tables (seconddb self)) = None))
  \/ (exists t1 t2,
        assoc tablename (tables (firstdb self)) = Some t1
        /\ assoc tablename (tables (seconddb self)) = Some t2
        /\ List.length (rows t1) <> List.length (rows t2)
        /\ msg = "counts are different " ++ str_nat (List.length (rows t1))
                 ++ " != " ++ str_nat (List.length (rows t2)))
  \/ (exists pk c1 c2,
        sql_first_pk (firstdb self) tablename pk = Ok c1
        /\ sql_first_pk (seconddb self) tablename pk = Ok c2
        /\ c1 <> c2
        /\ msg = "first primary keys are different")
  \/ (exists pk c h1 h2,
        hash_on md5 self tablename pk First c = Ok h1
        /\ hash_on md5 self tablename pk Second c = Ok h2
        /\ h1 <> h2
        /\ msg = data_differs self c).
Proof.
  intros E. apply diff_table_data_inv in E.
  destruct E as [(Hmiss & [= ->] & _)|[V|(pk & c1 & c2 & _ & X1 & X2 & H)]].
  - left. now split.
  - apply validate_inl in V. destruct V as (t1 & t2 & E1 & E2 & H).
    destruct H as [(Hne & [= ->] & _)|(_ & _ & H)].
    + right. left. now exists t1, t2.
    + destruct H as [(_ & [=])|(_ & [(_ & [=])|[(_ & _ & [=])|(_ & _ & [=] & _)]])].
  - destruct H as [(Hne & [= ->] & _)|(_ & E)].
    + right. right. left. now exists pk, c1, c2.
    + apply scan_decides in E. destruct E as [[=]|(c & h1 & h2 & Y1 & Y2 & Hne & [= ->])].
      right. right. right. now exists pk, c, h1, h2.
Qed.

(** X3.  A Match has one of two causes.  With [count_only] it says that the
    two counts are equal and not zero, and nothing else was asked.  Without
    it the table passed every check, the two first keys are the same, and
    the scan loop ended; the message tells which. *)
Theorem match_has_cause (self : DBDiff) (fuel : nat) (tablename : string)
    (msg : string) (st st' : state) :
  diff_table_data md5 self fuel tablename st = (Val (Some true, msg), st') ->
  exists t1 t2,
    assoc tablename (tables (firstdb self)) = Some t1
    /\ assoc tablename (tables (seconddb self)) = Some t2
    /\ List.length (rows t1) = List.length (rows t2)
    /\ List.length (rows t1) <> 0%nat
    /\ ((count_only self = true /\ msg = "Counts are the same"
         /\ st' = counted tablename st)
        \/ (count_only self = false /\ msg = "data is identical."
            /\ String.concat "," (constrained_columns t1) <> ""
            /\ (exists checked,
                  check_columns self = Some checked
                  /\ forall c, In c checked -> In c (columns t1))
            /\ (exists c,
                  sql_first_pk (firstdb self) tablename (constrained_columns t1)
                  = Ok c
                  /\ sql_first_pk (seconddb self) tablename (constrained_columns t1)
                     = Ok c
                  /\ scan md5 self tablename (constrained_columns t1) fuel None c
                       (keyed tablename (constrained_columns t1) st)
                     = (Val (Some true, msg), st')))).
Proof.
  intros E. apply diff_table_data_inv in E.
  destruct E as [(_ & [=] & _)|[V|(pk & c1 & c2 & V & X1 & X2 & H)]].
  - apply validate_inl in V. destruct V as (t1 & t2 & E1 & E2 & H).
    exists t1, t2. split; [exact E1|]. split; [exact E2|].
    destruct H as [(_ & [=] & _)|(Hlen & -> & H)].
    destruct H as [(_ & [=])|(Hz & [(Hc & [= ->])|[(_ & _ & [=])|(_ & _ & [=] & _)]])].
    split; [exact Hlen|]. split; [exact Hz|]. left. now repeat split.
  - apply validate_inr in V.
    destruct V as (t1 & t2 & checked & E1 & E2 & Hlen & Hz & -> & Hpk & Hc & Hch
                   & Hin & _).
    exists t1, t2. split; [exact E1|]. split; [exact E2|].
    split; [exact Hlen|]. split; [exact Hz|]. right.
    destruct H as [(_ & [=] & _)|(<- & E)].
    pose proof (scan_decides _ _ _ _ _ _ _ _ _ _ E) as Hd.
    destruct Hd as [[= ->]|(c & h1 & h2 & _ & _ & _ & [=])].
    split; [exact Hc|]. split; [reflexivity|]. split; [exact Hpk|].
    split; [now exists checked|]. now exists c1.
Qed.

(** X4.  An Inconclusive answer comes from the checks only, after the three
    [count()] calls and before any key or digest is read: the tables are
    empty, or the first table has no primary key, or a checked column is not
    a column of the first table. *)
Theorem inconclusive_has_cause (self : DBDiff) (fuel : nat) (tablename : string)
    (msg : string) (st st' : state) :
  diff_table_data md5 self fuel tablename st = (Val (None, msg), st') ->
  st' = counted tablename st
  /\ exists t1 t2,
       assoc tablename (tables (firstdb self)) = Some t1
       /\ assoc tablename (tables (seconddb self)) = Some t2
       /\ List.length (rows t1) = List.length (rows t2)
       /\ ((List.length (rows t1) = 0%nat /\ msg = "tables are empty")
           \/ (List.length (rows t1) <> 0%nat /\ count_only self = false
               /\ String.concat "," (constrained_columns t1) = ""
               /\ msg = "no primary key(s) on this table. Comparison is not possible.")
           \/ (List.length (rows t1) <> 0%nat /\ count_only self = false
               /\ String.concat "," (constrained_columns t1) <> ""
               /\ msg = "missing checked columns"
               /\ exists checked c,
                    check_columns self = Some checked
                    /\ In c checked /\ ~ In c (columns t1))).
Proof.
  intros E. apply diff_table_data_inv in E.
  destruct E as [(_ & [=] & _)|[V|(pk & c1 & c2 & _ & _ & _ & H)]].
  - apply validate_inl in V. destruct V as (t1 & t2 & E1 & E2 & H).
    destruct H as [(_ & [=] & _)|(Hlen & -> & H)].
    split; [reflexivity|]. exists t1, t2.
    split; [exact E1|]. split; [exact E2|]. split; [exact Hlen|].
    destruct H as [(Hz & [= ->])|(Hz & [(_ & [=])|[(Hc & Hpk & [= ->])|(Hc & Hpk & [= ->] & Hx)]])].
    + left. now split.
    + right. left. now repeat split.
    + right. right. now repeat split.
  - destruct H as [(_ & [=] & _)|(_ & E)].
    apply scan_decides in E. destruct E as [[=]|(c & h1 & h2 & _ & _ & _ & [=])].
Qed.
End Verdicts.

(** ** Errors of the statements *)

Lemma sql_first_pk_error (db : database) (tablename : string) (pk : list string)
    (e : exn) :
  sql_first_pk db tablename pk = Error e -> statement_error e.
Proof.
  unfold sql_first_pk, statement_error.
  destruct (assoc tablename (tables db)) as [t|]; [|intros [= <-]; now left].
  destruct pk as [|p pk]; [intros [= <-]; now left|].
  destruct (forallb _ _); [discriminate | intros [= <-]; now left].
Qed.

Lemma sql_query_cursor_error (db : database) (tablename : string)
    (pk : list string) (cursor : option Z) (row_limit : Z) (e : exn) :
  sql_query_cursor db tablename pk cursor row_limit = Error e -> statement_error e.
Proof.
  unfold sql_query_cursor, statement_error.
  destruct (assoc tablename (tables db)) as [t|]; [|intros [= <-]; now left].
  destruct pk as [|p [|q pk]]; try (intros [= <-]; now left).
  destruct (str_in p (columns t)); [|intros [= <-]; now left].
  destruct (Z.ltb row_limit 0); [intros [= <-]; now right | discriminate].
Qed.

Lemma sql_template_hash_error (md5 : string -> string) (db : database)
    (tablename : string) (pk : list string) (cols : option (list string))
    (cursor : option Z) (row_limit : Z) (e : exn) :
  sql_template_hash md5 db tablename pk cols cursor row_limit = Error e ->
  statement_error e.
Proof.
  unfold sql_template_hash, statement_error.
  destruct (assoc tablename (tables db)) as [t|]; [|intros [= <-]; now left].
  destruct pk as [|p [|q pk]]; try (intros [= <-]; now left).
  destruct (_ && _); [|intros [= <-]; now left].
  destruct (Z.ltb row_limit 0); [intros [= <-]; now right | discriminate].
Qed.

Lemma sql_sequence_value_error (db : database) (seq_name : string) (e : exn) :
  sql_sequence_value db seq_name = Error e -> statement_error e.
Proof.
  unfold sql_sequence_value, statement_error.
  destruct (assoc seq_name (sequences db)); [discriminate | intros [= <-]; now left].
Qed.

Lemma sql_count_statement_error (db : database) (tablename : string) (e : exn) :
  sql_count db tablename = Error e -> statement_error e.
Proof. intros E. apply sql_count_error in E. now left. Qed.

(** ** Health of the sessions along a computation *)

Lemma healthy_aborted (sd : side) (e : event) (st : state) :
  ~ healthy (add_log e (set_txn sd Aborted st)).
Proof. intros H. apply (H sd). now destruct sd. Qed.

Lemma tracks_mret {A : Type} (a : A) : tracks_health (mret a).
Proof. intros st r st' H [= <- <-]. exact H. Qed.

Lemma tracks_raise_type_error {A : Type} : tracks_health (@raise A TypeError).
Proof. intros st r st' H [= <- <-]. exact H. Qed.

Lemma tracks_raise_no_such_table {A : Type} :
  tracks_health (@raise A NoSuchTableError).
Proof. intros st r st' H [= <- <-]. exact H. Qed.

Lemma tracks_out_of_fuel {A : Type} :
  tracks_health (fun st => (@OutOfFuel A, st)).
Proof. intros st r st' H [= <- <-]. exact H. Qed.

Lemma tracks_bind {A B : Type} (m : M A) (f : A -> M B) :
  tracks_health m -> (forall a, tracks_health (f a)) -> tracks_health (bind m f).
Proof.
  intros Hm Hf st r st' H. unfold bind.
  destruct (m st) as [[a|e|] s] eqn:E.
  - apply (Hf a). exact (Hm _ _ _ H E).
  - intros [= <- <-]. exact (Hm _ _ _ H E).
  - intros [= <- <-]. exact (Hm _ _ _ H E).
Qed.

Lemma tracks_emit (e : event) : tracks_health (emit e).
Proof. intros st r st' H [= <- <-]. now apply healthy_add_log. Qed.

Lemma tracks_session {A : Type} (db : database) (sd : side) (q : statement)
    (sem : database -> answer A) :
  (forall e, sem db = Error e -> statement_error e) ->
  tracks_health (session_execute db sd q sem).
Proof.
  intros Hsem st r st' H E.
  destruct r as [a|e|].
  - apply session_execute_inv in E. destruct E as [_ ->]. now apply healthy_step.
  - apply session_execute_raise in E.
    destruct E as [(_ & _ & Ha)|[E ->]]; [now elim (H sd)|].
    destruct (Hsem _ E) as [-> | ->]; apply healthy_aborted.
  - pose proof (total_session db sd q sem st) as Ht. rewrite E in Ht. now elim Ht.
Qed.

(** A handler for [NoSuchTableError] starts from sessions that can run
    statements. *)
Lemma tracks_try_no_such_table {A : Type} (m h : M A) :
  tracks_health m -> tracks_health h ->
  tracks_health (try_except m NoSuchTableError h).
Proof.
  intros Hm Hh st r st' H. unfold try_except.
  destruct (m st) as [[a|e|] s] eqn:E.
  - intros [= <- <-]. exact (Hm _ _ _ H E).
  - pose proof (Hm _ _ _ H E) as Hs.
    destruct e; cbn [exn_eqb]; try (intros [= <- <-]; exact Hs).
    apply Hh. exact Hs.
  - intros [= <- <-]. exact (Hm _ _ _ H E).
Qed.

Ltac tracks_auto :=
  repeat (cbv beta iota;
          first
            [ apply tracks_mret
            | apply tracks_raise_type_error
            | apply tracks_raise_no_such_table
            | apply tracks_emit
            | apply tracks_session
            | apply tracks_try_no_such_table
            | apply tracks_bind; [ | intros ? ]
            | match goal with
              | |- tracks_health (if ?b then _ else _) => destruct b
              | |- tracks_health (match ?x with _ => _ end) => destruct x
              end ]).

Lemma validate_tracks (self : DBDiff) (tablename : string) :
  tracks_health (validate self tablename).
Proof.
  unfold validate, Table, get_pk_constraint, get_columns, query_count.
  tracks_auto; intros e; apply sql_count_statement_error.
Qed.

Section HealthOfTables.
Variable md5 : string -> string.

Lemma scan_tracks (self : DBDiff) (tablename : string) (pk : list string)
    (fuel : nat) (prev cursor : option Z) :
  tracks_health (scan md5 self tablename pk fuel prev cursor).
Proof.
  revert prev cursor. induction fuel as [|fuel IH]; intros prev cursor; cbn [scan].
  - apply tracks_out_of_fuel.
  - unfold execute_hash, execute_cursor.
    tracks_auto; try apply IH; intros e;
      first [apply sql_template_hash_error | apply sql_query_cursor_error].
Qed.

Lemma diff_table_data_tracks (self : DBDiff) (fuel : nat) (tablename : string) :
  tracks_health (diff_table_data md5 self fuel tablename).
Proof.
  unfold diff_table_data, execute_first_pk.
  apply tracks_bind.
  { apply tracks_try_no_such_table; [apply validate_tracks | apply tracks_mret]. }
  intros [early|pk]; [apply tracks_mret|].
  tracks_auto; try apply scan_tracks; intros e; apply sql_first_pk_error.
Qed.
End HealthOfTables.

(** ** What a computation can raise *)







Lemma raises_weaken {A : Type} (P Q : exn -> Prop) (m : M A) :
  (forall e, P e -> Q e) -> raises_in P m -> raises_in Q m.
Proof. intros H Hm st e st' E. apply H. exact (Hm _ _ _ E). Qed.



Section RaisesOfTables.
Variable md5 : string -> string.


End RaisesOfTables.

(** ** The phases and [main] *)



(** The units before the one that raises are processed, the others are not. *)
Lemma for_each_stops (diff : string -> M ret) (before after : list string)
    (unit : string) (results : list ret) (n : nat) (e : exn) (st st1 st2 : state) :
  processed diff before results st st1 ->
  diff unit st1 = (Exc e, st2) ->
  for_each diff (before ++ unit :: after) n st = (Exc e, st2).
Proof.
  revert results n st. induction before as [|u before IH]; intros results n st Hp Hd.
  - destruct results; [|destruct Hp]. cbn [processed] in Hp. subst st1.
    cbn [app for_each]. unfold bind at 1. now rewrite Hd.
  - destruct results as [|r results]; [destruct Hp|].
    cbn [processed] in Hp. destruct Hp as (s & Hu & Hp).
    cbn [app for_each]. unfold bind at 1. rewrite Hu. cbn [bind emit].
    exact (IH _ _ _ Hp Hd).
Qed.

Section TablePhase.
Variable md5 : string -> string.



Lemma diff_all_table_data_status (self : DBDiff) (fuel : nat) (code : Z)
    (st st' : state) :
  diff_all_table_data md5 self fuel st = (Val code, st') -> code = 0 \/ code = 1.
Proof.
  intros E. apply diff_all_table_data_spec in E.
  destruct E as (results & st1 & _ & _ & ->). unfold status_of.
  destruct (Nat.ltb 0 _); [now right | now left].
Qed.
End TablePhase.

Lemma status_of_one (results : list ret) :
  status_of (count_failures results) = 1 -> Exists Mismatch results.
Proof.
  unfold status_of. induction results as [|r results IH]; [discriminate|].
  rewrite count_failures_cons. unfold Mismatch, is_failure in *.
  destruct (fst r) as [[|]|] eqn:E; cbn [Nat.add].
  - intros H. apply Exists_cons_tl. now apply IH.
  - intros _. now apply Exists_cons_hd.
  - intros H. apply Exists_cons_tl. now apply IH.
Qed.

Lemma status_of_failed (results : list ret) :
  Exists Mismatch results -> status_of (count_failures results) = 1.
Proof.
  intros H. destruct (status_of (count_failures results) =? 0)%Z eqn:E.
  - apply Z.eqb_eq, status_of_zero in E. apply Exists_exists in H.
    destruct H as (r & Hin & Hr). rewrite Forall_forall in E. now elim (E r Hin).
  - unfold status_of in *. now destruct (Nat.ltb 0 _).
Qed.

Lemma diff_sequence_tracks (self : DBDiff) (seq_name : string) :
  tracks_health (diff_sequence self seq_name).
Proof.
  intros st r st' H E.
  destruct (diff_sequence_returns self seq_name st H) as (r0 & s0 & E0 & H0).
  rewrite E0 in E. injection E as <- <-. exact H0.
Qed.

Lemma diff_all_sequences_inv (self : DBDiff) (code : Z) (st st' : state) :
  diff_all_sequences self st = (Val code, st') ->
  exists results st1,
    processed (diff_sequence self) (sorted (map fst (sequences (firstdb self))))
      results
      (add_log (Executed First GET_SEQUENCES_SQL)
         (set_txn First Active (add_log (Print "Starting sequence analysis.") st)))
      st1
    /\ st' = add_log (Print "Sequence analysis complete.") st1
    /\ code = status_of (count_failures results).
Proof.
  unfold diff_all_sequences. cbn [bind emit]. unfold get_all_sequences.
  unfold bind at 1.
  destruct (session_execute _ First _ _ _) as [[names| |] s] eqn:X; try discriminate.
  apply session_execute_inv in X. destruct X as [[= <-] ->].
  cbv zeta. unfold bind at 1.
  destruct (for_each _ _ 0%nat _) as [[m| |] st1] eqn:Ef; try discriminate.
  apply for_each_spec in Ef. destruct Ef as (results & Hp & ->).
  cbn [bind emit Nat.add]. intros E. exists results, st1. split; [exact Hp|].
  unfold status_of. destruct (Nat.ltb 0 (count_failures results));
    injection E as <- <-; now split.
Qed.

Lemma diff_all_sequences_status (self : DBDiff) (code : Z) (st st' : state) :
  diff_all_sequences self st = (Val code, st') -> code = 0 \/ code = 1.
Proof.
  intros E. apply diff_all_sequences_inv in E.
  destruct E as (results & st1 & _ & _ & ->). unfold status_of.
  destruct (Nat.ltb 0 _); [now right | now left].
Qed.


Lemma postgres_urls_true (args : arguments) :
  postgres_urls args = true ->
  negb (String.prefix "postgres://" (arg_firstdb args))
  || negb (String.prefix "postgres://" (arg_seconddb args)) = false.
Proof.
  unfold postgres_urls. intros H. apply andb_true_iff in H. destruct H as [-> ->].
  reflexivity.
Qed.

Section Main.
Variable md5 : string -> string.
Variable connect : string -> database.

(** [main] after the check of the connection strings. *)
Lemma main_phases (args : arguments) (fuel : nat) (st : state) :
  postgres_urls args = true ->
  main md5 connect args fuel st
  = (data <- (if negb (arg_only_sequences args)
              then diff_all_table_data md5 (differ_of connect args) fuel
              else mret 0) ;;
     if negb (Z.eqb data 0) then mret 1
     else
       seqs <- (if negb (arg_only_data args)
                then diff_all_sequences (differ_of connect args) else mret 0) ;;
       if negb (Z.eqb seqs 0) then mret 1 else mret 0) (greeted st).
Proof.
  intros H. unfold main. cbn [bind emit]. rewrite (postgres_urls_true _ H).
  reflexivity.
Qed.
(** [main] when a connection string has another scheme. *)
Lemma main_refuses (args : arguments) (fuel : nat) (st : state) :
  postgres_urls args = false ->
  main md5 connect args fuel st
  = (Val 1,
     mkState (first_txn st) (second_txn st)
       (Print "Only Postgres DBs are supported"
        :: Print "Using custom pgatadiff" :: log st)).
Proof.
  unfold postgres_urls, main. intros H. cbn [bind emit].
  replace (negb (String.prefix "postgres://" (arg_firstdb args))
           || negb (String.prefix "postgres://" (arg_seconddb args))) with true.
  - reflexivity.
  - destruct (String.prefix "postgres://" (arg_firstdb args));
      destruct (String.prefix "postgres://" (arg_seconddb args));
      try reflexivity; discriminate.
Qed.
End Main.

Section MainProperties.
Variable md5 : string -> string.
Variable connect : string -> database.

(** X10.  An exception in the comparison of one table ends the table phase
    there: the tables that sort before it have been compared and reported,
    the tables after it are not compared, the closing banner is not printed
    and no exit status is made. *)
Theorem table_phase_stops_at_exception (self : DBDiff) (fuel : nat)
    (before after : list string) (unit : string) (results : list ret) (e : exn)
    (st st1 st2 : state) :
  sorted (get_table_names (firstdb self)) = (before ++ unit :: after)%list ->
  processed (diff_table_data md5 self fuel) before results
    (add_log (Print "Starting table analysis.") st) st1 ->
  diff_table_data md5 self fuel unit st1 = (Exc e, st2) ->
  diff_all_table_data md5 self fuel st = (Exc e, st2).
Proof.
  intros Hs Hp Hd. unfold diff_all_table_data. cbn [bind emit]. cbv zeta.
  rewrite Hs. unfold bind at 1.
  now rewrite (for_each_stops _ _ _ _ _ _ _ _ _ _ Hp Hd).
Qed.

(** X11.  [main] goes on only when both connection strings start with
    [postgres://]; otherwise it prints the two lines, returns 1 and opens no
    session: nothing is sent to any source. *)
Theorem main_rejects_other_urls (args : arguments) (fuel : nat) (st : state) :
  postgres_urls args = false ->
  main md5 connect args fuel st
  = (Val 1,
     mkState (first_txn st) (second_txn st)
       (Print "Only Postgres DBs are supported"
        :: Print "Using custom pgatadiff" :: log st)).
Proof.
  intros H. unfold main. cbn [bind emit].
  unfold postgres_urls in H. apply andb_false_iff in H.
  destruct H as [H|H]; rewrite H; cbn [negb orb].
  - reflexivity.
  - now rewrite orb_true_r.
Qed.

(** X12.  When the table phase reports a Mismatch for some table, [main]
    returns 1 right after the table phase: the sequences are not analysed,
    the last thing logged is the closing banner of the table phase. *)
Theorem table_mismatch_skips_sequences (args : arguments) (fuel : nat)
    (results : list ret) (st st1 : state) :
  postgres_urls args = true ->
  arg_only_sequences args = false ->
  processed (diff_table_data md5 (differ_of connect args) fuel)
    (sorted (get_table_names (connect (arg_firstdb args)))) results
    (add_log (Print "Starting table analysis.") (greeted st)) st1 ->
  Exists Mismatch results ->
  main md5 connect args fuel st
  = (Val 1, add_log (Print "Table analysis complete.") st1).
Proof.
  intros Hu Hs Hp Hm. rewrite (main_phases md5 connect args fuel st Hu).
  rewrite Hs. cbn [negb]. erewrite bind_val.
  2:{ apply diff_all_table_data_spec. exists results, st1.
      split; [exact Hp|]. split; reflexivity. }
  now rewrite (status_of_failed _ Hm).
Qed.

(** X13.  With [--only-data] [main] is the table phase, with
    [--only-sequences] it is the sequence phase: same result, same exit
    status, same statements, and nothing of the other phase. *)
Theorem flag_leaves_one_phase (args : arguments) (fuel : nat) (st : state) :
  postgres_urls args = true ->
  (arg_only_data args = true -> arg_only_sequences args = false ->
   main md5 connect args fuel st
   = diff_all_table_data md5 (differ_of connect args) fuel (greeted st))
  /\ (arg_only_sequences args = true -> arg_only_data args = false ->
      main md5 connect args fuel st
      = diff_all_sequences (differ_of connect args) (greeted st)).
Proof.
  intros Hu. rewrite (main_phases md5 connect args fuel st Hu). split.
  - intros -> ->. cbn [negb]. unfold bind at 1.
    destruct (diff_all_table_data md5 _ fuel (greeted st)) as [[code| |] s] eqn:E;
      try reflexivity.
    destruct (diff_all_table_data_status md5 _ _ _ _ _ E) as [-> | ->]; reflexivity.
  - intros -> ->. cbn [negb bind mret Z.eqb]. unfold bind at 1.
    destruct (diff_all_sequences _ (greeted st)) as [[code| |] s] eqn:E;
      try reflexivity.
    destruct (diff_all_sequences_status _ _ _ _ E) as [-> | ->]; reflexivity.
Qed.


(** X15.  The exit status of [main] is 0 or 1.  It is 0 only when no unit
    of a phase that ran was reported as Mismatch, and 1 only when the
    connection strings were refused or some unit of a phase that ran was
    reported as Mismatch. *)
Theorem main_exit_status (args : arguments) (fuel : nat) (code : Z)
    (st st' : state) :
  main md5 connect args fuel st = (Val code, st') ->
  (code = 0 \/ code = 1)
  /\ (code = 0 ->
      postgres_urls args = true
      /\ (arg_only_sequences args = false ->
          exists results s1,
            processed (diff_table_data md5 (differ_of connect args) fuel)
              (sorted (get_table_names (connect (arg_firstdb args)))) results
              (add_log (Print "Starting table analysis.") (greeted st)) s1
            /\ Forall (fun r => ~ Mismatch r) results)
      /\ (arg_only_data args = false ->
          exists results s0 s1,
            processed (diff_sequence (differ_of connect args))
              (sorted (map fst (sequences (connect (arg_firstdb args))))) results
              s0 s1
            /\ Forall (fun r => ~ Mismatch r) results))
  /\ (code = 1 ->
      postgres_urls args = false
      \/ (arg_only_sequences args = false
          /\ exists results s1,
               processed (diff_table_data md5 (differ_of connect args) fuel)
                 (sorted (get_table_names (connect (arg_firstdb args)))) results
                 (add_log (Print "Starting table analysis.") (greeted st)) s1
               /\ Exists Mismatch results)
      \/ (arg_only_data args = false
          /\ exists results s0 s1,
               processed (diff_sequence (differ_of connect args))
                 (sorted (map fst (sequences (connect (arg_firstdb args))))) results
                 s0 s1
               /\ Exists Mismatch results)).
Proof.
  intros E.
  destruct (postgres_urls args) eqn:Hu.
  2:{ rewrite (main_refuses md5 connect args fuel st Hu) in E.
      injection E as <- <-. split; [now right|].
      split; [discriminate|]. intros _. now left. }
  rewrite (main_phases md5 connect args fuel st Hu) in E.
  unfold bind at 1 in E.
  destruct ((if negb (arg_only_sequences args)
             then diff_all_table_data md5 (differ_of connect args) fuel
             else mret 0) (greeted st)) as [[data| |] s] eqn:Et; try discriminate.
  assert (Ht : (data = 0
                /\ (arg_only_sequences args = false ->
                    exists results s1,
                      processed (diff_table_data md5 (differ_of connect args) fuel)
                        (sorted (get_table_names (connect (arg_firstdb args))))
                        results
                        (add_log (Print "Starting table analysis.") (greeted st)) s1
                      /\ Forall (fun r => ~ Mismatch r) results))
               \/ (data = 1 /\ arg_only_sequences args = false
                   /\ exists results s1,
                        processed (diff_table_data md5 (differ_of connect args) fuel)
                          (sorted (get_table_names (connect (arg_firstdb args))))
                          results
                          (add_log (Print "Starting table analysis.") (greeted st))
                          s1
                        /\ Exists Mismatch results)).
  { destruct (arg_only_sequences args); cbn [negb] in Et.
    - injection Et as <- <-. left. split; [reflexivity | discriminate].
    - apply diff_all_table_data_spec in Et.
      destruct Et as (results & s1 & Hp & _ & ->).
      destruct (status_of (count_failures results) =? 0)%Z eqn:Ez.
      + apply Z.eqb_eq in Ez. left. split; [exact Ez|]. intros _.
        exists results, s1. split; [exact Hp|]. now apply status_of_zero.
      + apply Z.eqb_neq in Ez. right.
        assert (H1 : status_of (count_failures results) = 1).
        { unfold status_of in *. now destruct (Nat.ltb 0 _). }
        split; [exact H1|]. split; [reflexivity|].
        exists results, s1. split; [exact Hp|]. now apply status_of_one. }
  destruct Ht as [(-> & Htables)|(-> & Hos & Hbad)].
  2:{ cbn in E. injection E as <- <-. split; [now right|].
      split; [discriminate|]. intros _. right. left. now split. }
  cbn [Z.eqb negb] in E. unfold bind at 1 in E.
  destruct ((if negb (arg_only_data args)
             then diff_all_sequences (differ_of connect args)
             else mret 0) s) as [[seqs| |] s'] eqn:Es; try discriminate.
  destruct (arg_only_data args) eqn:Hod; cbn [negb] in Es.
  - injection Es as <- <-. cbn in E. injection E as <- <-.
    split; [now left|]. split; [|discriminate]. intros _.
    split; [reflexivity|]. split; [exact Htables | discriminate].
  - apply diff_all_sequences_inv in Es.
    destruct Es as (results & s1 & Hp & _ & ->).
    destruct (status_of (count_failures results) =? 0)%Z eqn:Ez.
    + cbn [negb] in E. injection E as <- <-. apply Z.eqb_eq in Ez.
      split; [now left|]. split; [|discriminate]. intros _.
      split; [reflexivity|]. split; [exact Htables|]. intros _.
      eexists results, _, s1. split; [exact Hp|]. now apply status_of_zero.
    + cbn [negb] in E. injection E as <- <-. apply Z.eqb_neq in Ez.
      split; [now right|]. split; [discriminate|]. intros _. right. right.
      split; [reflexivity|]. eexists results, _, s1. split; [exact Hp|].
      apply status_of_one. unfold status_of in *. now destruct (Nat.ltb 0 _).
Qed.
End MainProperties.

(** ** More on one sequence *)

(** X16.  When the read fails on the FIRST source (the sequence is not
    there), the second source is not asked at all, both sessions are rolled
    back, and the answer is still Mismatch with the message that names the
    second database. *)
Theorem sequence_missing_in_first (self : DBDiff) (seq_name : string)
    (st : state) :
  healthy st ->
  assoc seq_name (sequences (firstdb self)) = None ->
  diff_sequence self seq_name st
  = (Val (Some false, "sequence doesnt exist in second database."),
     mkState Idle Idle
       (RolledBack Second :: RolledBack First
        :: Executed First (GET_SEQUENCES_VALUE_SQL seq_name) :: log st)).
Proof.
  intros H Ea. unfold diff_sequence.
  erewrite bind_val.
  2:{ unfold try_except, execute_sequence_value.
      run_exc (sequence_value_missing (session_db self First) seq_name Ea).
      reflexivity. }
  reflexivity.
Qed.



(** ** The order of the units *)

Lemma names_sorted_unique (l1 l2 : list string) :
  StronglySorted names_le l1 -> StronglySorted names_le l2 ->
  Permutation l1 l2 -> l1 = l2.
Proof.
  revert l2. induction l1 as [|x l1 IH]; intros l2 H1 H2 Hp.
  - apply Permutation_nil in Hp. now subst.
  - destruct l2 as [|y l2]; [apply Permutation_sym, Permutation_nil in Hp; discriminate|].
    inversion H1 as [|? ? Hs1 Hx]; subst. inversion H2 as [|? ? Hs2 Hy]; subst.
    assert (Exy : x = y).
    { assert (Hy1 : In y (x :: l1))
        by (apply (Permutation_in _ (Permutation_sym Hp)); now left).
      assert (Hx2 : In x (y :: l2)) by (apply (Permutation_in _ Hp); now left).
      destruct Hy1 as [->|Hy1]; [reflexivity|].
      destruct Hx2 as [->|Hx2]; [reflexivity|].
      rewrite Forall_forall in Hx, Hy.
      apply String.leb_antisym; [apply Hx, Hy1 | apply Hy, Hx2]. }
    subst y. f_equal. apply IH; trivial. exact (Permutation_cons_inv Hp).
Qed.

(** X19.  The order in which the units of a phase are compared does not
    depend on the order in which the catalog lists them: two listings of the
    same names give the same sequence of units. *)
Theorem listing_order_is_irrelevant (names1 names2 : list string) :
  Permutation names1 names2 -> sorted names1 = sorted names2.
Proof.
  intros Hp. apply names_sorted_unique; try apply sorted_sorted.
  eapply perm_trans; [apply sorted_perm|].
  eapply perm_trans; [exact Hp|]. apply Permutation_sym, sorted_perm.
Qed.

(** ** Chunk sizes below two *)

Lemma first_key_is_least (self : DBDiff) (tablename : string) (pk : list string)
    (c : option Z) (st st1 : state) :
  validate self tablename st = (Val (inr pk), st1) ->
  sql_first_pk (firstdb self) tablename pk = Ok c ->
  exists t1 checked p rest m,
    assoc tablename (tables (firstdb self)) = Some t1
    /\ st1 = counted tablename st
    /\ check_columns self = Some checked
    /\ (forall x, In x checked -> In x (columns t1))
    /\ pk = p :: rest /\ In p (columns t1)
    /\ c = Some m
    /\ forall r, In r (rows t1) -> m <= key_of t1 p r.
Proof.
  intros V X. apply validate_inr in V.
  destruct V as (t1 & t2 & checked & E1 & _ & _ & Hz & Hpk & _ & _ & Hc & Hin & ->).
  destruct pk as [|p rest].
  { unfold sql_first_pk in X. rewrite E1 in X. discriminate. }
  assert (Hp : In p (columns t1)).
  { unfold sql_first_pk in X. rewrite E1 in X.
    destruct (forallb _ _) eqn:Ef; [|discriminate].
    cbn [forallb] in Ef. apply andb_true_iff in Ef. now apply str_in_In. }
  destruct (sql_first_pk_min _ _ _ _ _ _ E1 X) as [_ Hmin].
  destruct Hmin as (m & -> & _ & Hm).
  { intros Hr. apply Hz. now rewrite Hr. }
  exists t1, checked, p, rest, m. repeat split; trivial.
Qed.

Lemma cursor_at_first_key (db : database) (tablename : string) (p : string)
    (m : Z) :
  sql_first_pk db tablename [p] = Ok (Some m) ->
  sql_query_cursor db tablename [p] (Some m) 1 = Ok (Some m).
Proof.
  unfold sql_first_pk, sql_query_cursor.
  destruct (assoc tablename (tables db)) as [t|]; [|discriminate].
  cbn [forallb]. rewrite andb_true_r.
  destruct (str_in p (columns t)); [|discriminate].
  intros [= X]. cbn [Z.ltb Z.compare]. f_equal.
  pose proof (order_by_sorted (fun r => cell (columns t) r p) (rows t)) as Hs.
  assert (Hin : forall r, In r (rows t) ->
                          In r (order_by (fun r => cell (columns t) r p) (rows t)))
    by (intros r; apply order_by_In).
  unfold window.
  destruct (order_by (fun r => cell (columns t) r p) (rows t)) as [|x L] eqn:Eo;
    [discriminate|].
  cbn -[cell] in X. injection X as X.
  assert (Hall : where_ge (fun r => cell (columns t) r p) (Some m) (rows t) = rows t).
  { unfold where_ge. apply filter_all. intros r Hr. apply Z.leb_le.
    rewrite <- X. exact (sorted_head_least _ _ _ Hs r (Hin r Hr)). }
  rewrite Hall, Eo. unfold limit, order_by_desc.
  change (Z.to_nat 1) with 1%nat. cbn -[cell]. now rewrite X.
Qed.

Lemma window_of_zero {A : Type} (key : A -> Z) (cursor : option Z) (l : list A) :
  window key cursor 0 l = [].
Proof. reflexivity. Qed.

Section SmallChunks.
Variable md5 : string -> string.



(** X6.  With a chunk size of 1 only the row of the first key is compared.
    When the table passes the checks, the two first keys are the same and
    the digests of that one row agree, the cursor statement answers with the
    cursor itself, the loop ends after its first turn and the verdict is
    Match, whatever the other rows hold. *)
Theorem chunk_size_one_compares_first_row_only (self : DBDiff) (fuel : nat)
    (tablename : string) (p : string) (c : option Z) (h : option string)
    (st st1 : state) :
  validate self tablename st = (Val (inr [p]), st1) ->
  sql_first_pk (firstdb self) tablename [p] = Ok c ->
  sql_first_pk (seconddb self) tablename [p] = Ok c ->
  chunk_size self = 1 ->
  hash_on md5 self tablename [p] First c = Ok h ->
  hash_on md5 self tablename [p] Second c = Ok h ->
  diff_table_data md5 self (S (S fuel)) tablename st
  = (Val (Some true, "data is identical."),
     advanced self tablename [p] c (keyed tablename [p] st)).
Proof.
  intros V X1 X2 Hone Y1 Y2.
  destruct (first_key_is_least _ _ _ _ _ _ V X1)
    as (t1 & checked & p' & rest & m & E1 & -> & _ & _ & _ & _ & -> & _).
  rewrite (diff_table_data_first_keys md5 self _ tablename [p] _ _ st _
             (healthy_counted tablename st) V X1 X2).
  replace (scalar_eqb (Some m) (Some m)) with true
    by (symmetry; now apply scalar_eqb_eq).
  cbn [negb].
  assert (X3 : sql_query_cursor (firstdb self) tablename [p] (Some m)
                 (chunk_size self) = Ok (Some m))
    by (rewrite Hone; now apply cursor_at_first_key).
  rewrite (scan_step md5 self tablename [p] (S fuel) None (Some m) (Some m) h _);
    [ | intros [|]; discriminate | discriminate | exact Y1 | exact Y2 | exact X3 ].
  apply scan_exit.
Qed.


End SmallChunks.

(** ** What a Match has compared *)

Section Windows.
Context {A : Type} (key : A -> Z).

(** A row outside the first [n] rows of a sorted list comes after them. *)
Lemma firstn_sorted_split (n : nat) (l : list A) (r : A) :
  StronglySorted (key_le key) l -> In r l ->
  In r (firstn n l) \/ forall x, In x (firstn n l) -> key x <= key r.
Proof.
  revert n. induction l as [|a l IH]; intros n Hs Hr; [destruct Hr|].
  destruct n as [|n]; [right; intros x []|].
  inversion Hs as [|? ? Hs' Ha]; subst. cbn [firstn].
  destruct Hr as [->|Hr]; [left; now left|].
  destruct (IH n Hs' Hr) as [H|H]; [left; now right|].
  right. intros x [<-|Hx]; [|now apply H].
  rewrite Forall_forall in Ha. exact (Ha r Hr).
Qed.

(** A window that is not full holds every selected row. *)
Lemma window_full (cursor : option Z) (row_limit : Z) (l : list A) (r : A) :
  (List.length (window key cursor row_limit l) < Z.to_nat row_limit)%nat ->
  In r (where_ge key cursor l) -> In r (window key cursor row_limit l).
Proof.
  unfold window, limit. intros Hlen Hr.
  rewrite length_firstn in Hlen.
  rewrite firstn_all2 by lia. now apply order_by_In.
Qed.

Lemma window_keys_NoDup (cursor : option Z) (l : list A) :
  NoDup (map key l) -> NoDup (map key (order_by key (where_ge key cursor l))).
Proof.
  intros Hn.
  apply (Permutation_NoDup
           (l := map key (where_ge key cursor l))).
  - apply Permutation_map, Permutation_sym, order_by_perm.
  - destruct cursor as [c|]; [apply filter_keys_NoDup, Hn | constructor].
Qed.

(** With a row limit of two or more and unique keys: a row at or after the
    cursor is in the window, or it comes after the greatest key of the
    window, which then lies after the cursor. *)
Lemma window_or_later (c next : Z) (row_limit : Z) (l : list A) (r r0 : A) :
  NoDup (map key l) -> 2 <= row_limit ->
  In r0 (window key (Some c) row_limit l) -> key r0 = next ->
  (forall x, In x (window key (Some c) row_limit l) -> key x <= next) ->
  In r l -> c <= key r ->
  In r (window key (Some c) row_limit l) \/ (next < key r /\ c < next).
Proof.
  intros Hn Hlim Hr0 Hk Hmax Hr Hc.
  assert (HrL : In r (order_by key (where_ge key (Some c) l)))
    by (apply order_by_In, where_ge_In; now split).
  pose proof (order_by_sorted key (where_ge key (Some c) l)) as Hs.
  pose proof (window_keys_NoDup (Some c) l Hn) as HnL.
  assert (Hge : forall x, In x (window key (Some c) row_limit l) -> c <= key x).
  { intros x Hx. apply window_In, where_ge_In in Hx. tauto. }
  assert (Hr0l : In r0 l).
  { apply window_In, where_ge_In in Hr0. tauto. }
  unfold window, limit in *.
  destruct (firstn_sorted_split (Z.to_nat row_limit) _ r Hs HrL) as [H|H];
    [now left|].
  destruct (Z.eq_dec (key r) next) as [Heq|Hne].
  { left. assert (r = r0) as ->; [|exact Hr0].
    apply (key_inj_of_NoDup key l); trivial. congruence. }
  right. pose proof (H r0 Hr0) as Hle. split; [lia|].
  pose proof (Hge r0 Hr0) as Hc0.
  destruct (Z.eq_dec c next) as [Hcn|Hcn]; [|lia]. exfalso.
  destruct (Z.to_nat row_limit) as [|[|n]] eqn:En; try lia.
  destruct (order_by key (where_ge key (Some c) l)) as [|a [|b L]] eqn:EL.
  - destruct HrL.
  - destruct HrL as [<-|[]]. cbn [firstn] in Hr0. destruct Hr0 as [<-|[]].
    now elim Hne.
  - cbn [firstn] in Hmax, Hge.
    assert (Ha : key a = c).
    { pose proof (Hmax a (or_introl eq_refl)). pose proof (Hge a (or_introl eq_refl)).
      lia. }
    assert (Hb : key b = c).
    { pose proof (Hmax b (or_intror (or_introl eq_refl))).
      pose proof (Hge b (or_intror (or_introl eq_refl))). lia. }
    cbn [map] in HnL. inversion HnL as [|? ? Hnotin _]; subst.
    apply Hnotin. left. congruence.
Qed.
End Windows.

Lemma sql_query_cursor_empty (db : database) (tablename : string) (t : table)
    (p : string) (cursor : option Z) (row_limit : Z) :
  assoc tablename (tables db) = Some t ->
  sql_query_cursor db tablename [p] cursor row_limit = Ok None ->
  window (key_of t p) cursor row_limit (rows t) = [].
Proof.
  intros E. unfold sql_query_cursor. rewrite E.
  destruct (str_in p (columns t)); [|discriminate].
  destruct (Z.ltb row_limit 0); [discriminate|].
  intros [= X]. rewrite limit_one_head in X. unfold order_by_desc in X.
  fold (key_of t p) in X.
  destruct (window (key_of t p) cursor row_limit (rows t)) as [|w W]; [reflexivity|].
  exfalso.
  assert (Hl : List.length
                 (rev (order_by (fun k => k) (map (key_of t p) (w :: W)))) <> 0%nat).
  { rewrite length_rev, order_by_length, length_map. discriminate. }
  destruct (rev _); [now elim Hl | discriminate].
Qed.

Section Coverage.
Variable md5 : string -> string.
Variable self : DBDiff.
Variable tablename : string.
Variable t1 : table.
Variable p : string.
Hypothesis first_table : assoc tablename (tables (firstdb self)) = Some t1.
Hypothesis unique_keys : NoDup (map (key_of t1 p) (rows t1)).
Hypothesis two_or_more : 2 <= chunk_size self.

Lemma scan_covers (fuel : nat) (prev : option Z) (c : Z) (msg : string)
    (st st' : state) (evs : list event) :
  scan md5 self tablename [p] fuel prev (Some c) st = (Val (Some true, msg), st') ->
  prev <> Some c ->
  log st' = (evs ++ log st)%list ->
  forall r, In r (rows t1) -> c <= key_of t1 p r ->
  exists c' h,
    In r (chunk self t1 p c')
    /\ hash_on md5 self tablename [p] First c' = Ok h
    /\ hash_on md5 self tablename [p] Second c' = Ok h
    /\ In (Executed First (hash_stmt self tablename [p] c')) evs
    /\ In (Executed Second (hash_stmt self tablename [p] c')) evs.
Proof.
  revert prev c st evs. induction fuel as [|fuel IH]; intros prev c st evs E Hne Hl;
    [discriminate|].
  apply scan_turn_inv in E.
  destruct E as [(Heq & _)|(_ & h1 & h2 & Y1 & Y2 & [(_ & [=] & _)|(<- & next & X & E)])];
    [now elim Hne|].
  destruct (scan_emits_pk md5 self tablename [p] fuel (Some c) next _ _ _ E)
    as (evs' & Hl' & _).
  assert (Hevs : evs = (evs' ++ [Executed First (cursor_stmt self tablename [p] (Some c));
                                 Executed Second (hash_stmt self tablename [p] (Some c));
                                 Executed First (hash_stmt self tablename [p] (Some c))])%list).
  { apply (log_extension (log st)). rewrite <- Hl, Hl'. reflexivity. }
  assert (Hhere : forall r,
             In r (window (key_of t1 p) (Some c) (chunk_size self) (rows t1)) ->
             exists c' h,
               In r (chunk self t1 p c')
               /\ hash_on md5 self tablename [p] First c' = Ok h
               /\ hash_on md5 self tablename [p] Second c' = Ok h
               /\ In (Executed First (hash_stmt self tablename [p] c')) evs
               /\ In (Executed Second (hash_stmt self tablename [p] c')) evs).
  { intros r Hr. exists (Some c), h1. split; [exact Hr|].
    split; [exact Y1|]. split; [exact Y2|]. rewrite Hevs.
    split; apply in_or_app; right; cbn; tauto. }
  intros r Hr Hc.
  destruct next as [m|].
  - destruct (sql_query_cursor_some _ _ _ _ _ _ X)
      as (t & p' & Et & [= <-] & (r0 & Hr0 & _ & Hk) & Hmax & Hcm).
    rewrite first_table in Et. injection Et as <-.
    destruct (window_or_later (key_of t1 p) c m (chunk_size self) (rows t1) r r0
                unique_keys two_or_more Hr0 Hk Hmax Hr Hc) as [Hw|[Hlt Hcm']].
    + now apply Hhere.
    + assert (Hne' : Some c <> Some m) by (intros [= ->]; lia).
      destruct (IH (Some c) m _ evs' E Hne' Hl' r Hr (Z.lt_le_incl _ _ Hlt))
        as (c' & h & Hin & Z1 & Z2 & I1 & I2).
      exists c', h. repeat split; trivial; rewrite Hevs; apply in_or_app; now left.
  - apply Hhere. apply window_full.
    + rewrite (sql_query_cursor_empty _ _ _ _ _ _ first_table X). cbn. lia.
    + apply where_ge_In. now split.
Qed.
End Coverage.

Section MatchCovers.
Variable md5 : string -> string.

(** X5.  With a chunk size of two or more and a one-column primary key
    whose values are unique, the verdict "data is identical." is reached
    only after every row of the first table has been part of a chunk whose
    two digest statements were sent and answered with the same digest: no
    row of the first table is skipped by the cursor. *)
Theorem match_covers_every_row (self : DBDiff) (fuel : nat) (tablename : string)
    (t1 : table) (p : string) (st st' : state) (evs : list event) :
  assoc tablename (tables (firstdb self)) = Some t1 ->
  constrained_columns t1 = [p] ->
  NoDup (map (key_of t1 p) (rows t1)) ->
  2 <= chunk_size self ->
  diff_table_data md5 self fuel tablename st
  = (Val (Some true, "data is identical."), st') ->
  log st' = (evs ++ log st)%list ->
  forall r, In r (rows t1) ->
  exists c h,
    In r (chunk self t1 p c)
    /\ hash_on md5 self tablename [p] First c = Ok h
    /\ hash_on md5 self tablename [p] Second c = Ok h
    /\ In (Executed First (hash_stmt self tablename [p] c)) evs
    /\ In (Executed Second (hash_stmt self tablename [p] c)) evs.
Proof.
  intros E1 Hpk Hn Hcs E Hl r Hr.
  apply diff_table_data_inv in E.
  destruct E as [(_ & [=] & _)|[V|(pk & c1 & c2 & V & X1 & X2 & H)]].
  { apply validate_inl in V. destruct V as (t & t2 & _ & _ & H).
    destruct H as [(_ & [=] & _)|(_ & _ & H)].
    destruct H as [(_ & [=])|(_ & [(_ & [=])|[(_ & _ & [=])|(_ & _ & [=] & _)]])]. }
  destruct H as [(_ & [=] & _)|(<- & E)].
  destruct (first_key_is_least _ _ _ _ _ _ V X1)
    as (t & checked & p' & rest & m & Et & _ & _ & _ & -> & _ & -> & Hm).
  rewrite E1 in Et. injection Et as <-.
  pose proof (validate_inr _ _ _ _ _ V) as Hv.
  destruct Hv as (t & _ & _ & Et & _ & _ & _ & Hpk' & _).
  rewrite E1 in Et. injection Et as <-. rewrite Hpk in Hpk'.
  injection Hpk' as -> ->.
  destruct (scan_emits_pk md5 self tablename [p] fuel None (Some m) _ _ _ E)
    as (evs' & Hl' & _).
  assert (Hevs : evs = (evs' ++ [Executed Second (SQL_QUERY_FIRST_PK tablename [p]);
                                 Executed First (SQL_QUERY_FIRST_PK tablename [p]);
                                 Executed First (QueryCount tablename);
                                 Executed Second (QueryCount tablename);
                                 Executed First (QueryCount tablename)])%list).
  { apply (log_extension (log st)). rewrite <- Hl, Hl'. reflexivity. }
  destruct (scan_covers md5 self tablename t1 p E1 Hn Hcs fuel None m _ _ _ evs' E
              ltac:(discriminate) Hl' r Hr (Hm r Hr))
    as (c' & h & Hin & Z1 & Z2 & I1 & I2).
  exists c', h. repeat split; trivial; rewrite Hevs; apply in_or_app; now left.
Qed.

(** X9.  From sessions that can run statements, [diff_table_data] tells by
    its result what state it leaves them in.  When it returns a verdict (or
    raises the [TypeError] of a missing list of checked columns) both
    sessions can still run statements; when it raises the error of a
    statement ([ProgrammingError] or [DataError]) the session that ran it is
    left in an aborted transaction, since nothing rolls it back; and it never
    raises [InternalError], the answer of an aborted session. *)
Theorem diff_table_data_health (self : DBDiff) (fuel : nat) (tablename : string)
    (r : result ret) (st st' : state) :
  healthy st ->
  diff_table_data md5 self fuel tablename st = (r, st') ->
  r <> Exc InternalError
  /\ ((exists v, r = Val v) \/ r = Exc TypeError -> healthy st')
  /\ (r = Exc ProgrammingError \/ r = Exc DataError -> ~ healthy st').
Proof.
  intros H E. pose proof (diff_table_data_tracks md5 self fuel tablename _ _ _ H E) as Ht.
  split; [intros ->; exact Ht|]. split.
  - intros [(v & ->)| ->]; exact Ht.
  - intros [-> | ->]; exact Ht.
Qed.

(** X20.  With [count_only] the comparison of a table sends nothing but
    [count()] statements, whatever the tables are and whatever it answers:
    no key and no row content is read. *)
Theorem count_only_sends_counts_only (self : DBDiff) (fuel : nat)
    (tablename : string) :
  count_only self = true ->
  emits (count_event tablename) (diff_table_data md5 self fuel tablename).
Proof.
  intros Hco st r st'' E. unfold diff_table_data, bind, try_except in E.
  destruct (validate self tablename st) as [[[early|pk]|e|] st'] eqn:Ev.
  - injection E as <- <-. exact (validate_emits self tablename _ _ _ Ev).
  - apply validate_inr in Ev.
    destruct Ev as (t1 & t2 & checked & _ & _ & _ & _ & _ & _ & Hc & _).
    congruence.
  - destruct (validate_emits self tablename _ _ _ Ev) as (evs & Hl & Hp).
    destruct (exn_eqb e NoSuchTableError); injection E as <- <-; now exists evs.
  - injection E as <- <-. exact (validate_emits self tablename _ _ _ Ev).
Qed.
End MatchCovers.

Section NoFalseAlarm.
Variable md5 : string -> string.

(** X21.  No false alarm.  For two tables with a one-column primary key
    with unique values, whose key and checked columns exist on both sides,
    and a chunk size that is not negative: when [diff_table_data] returns a
    Mismatch, the two tables do not hold the same keyed rows in the compared
    columns. *)
Theorem mismatch_means_content_differs (self : DBDiff) (fuel : nat)
    (tablename : string) (t1 t2 : table) (p : string) (checked : list string)
    (msg : string) (st st' : state) :
  healthy st ->
  assoc tablename (tables (firstdb self)) = Some t1 ->
  assoc tablename (tables (seconddb self)) = Some t2 ->
  constrained_columns t1 = [p] -> p <> "" ->
  In p (columns t1) -> In p (columns t2) ->
  check_columns self = Some checked ->
  (forall x, In x checked -> In x (columns t1) /\ In x (columns t2)) ->
  NoDup (map (key_of t1 p) (rows t1)) ->
  0 <= chunk_size self ->
  (3 + List.length (rows t1) <= fuel)%nat ->
  diff_table_data md5 self fuel tablename st = (Val (Some false, msg), st') ->
  ~ same_content t1 t2 p (hash_columns self [p]).
Proof.
  intros H E1 E2 Hpk Hp Hp1 Hp2 Hc Hin Hn Hcs Hfuel E Hsame.
  assert (Hlen : List.length (rows t1) = List.length (rows t2)).
  { apply Permutation_length in Hsame. now rewrite !length_map in Hsame. }
  destruct (rows t1) as [|r0 l] eqn:Er.
  { rewrite (diff_table_data_empty md5 self fuel tablename t1 t2 st H E1 E2) in E;
      [discriminate | now rewrite Er | rewrite <- Hlen; reflexivity]. }
  assert (Hz : List.length (rows t1) <> 0%nat) by (rewrite Er; discriminate).
  rewrite <- Er in *.
  destruct (count_only self) eqn:Hco.
  { rewrite (diff_table_data_count_only md5 self fuel tablename t1 t2 st H E1 E2
               Hlen Hz Hco) in E. discriminate. }
  assert (Hr : rows t1 <> []) by (rewrite Er; discriminate).
  pose proof (diff_table_data_same_content md5 self fuel tablename t1 t2 p checked
                st H E1 E2 Hr Hco Hpk Hp Hp1 Hp2 Hc Hin Hn Hsame Hcs Hfuel) as Hm.
  rewrite E in Hm. discriminate.
Qed.
End NoFalseAlarm.

(** ** Errors that leave [diff_table_data] *)

Section Escapes.
Variable md5 : string -> string.

(** X22.  The key columns are looked up in the first source only.  When a
    key column of the first table is not a column of the second table, the
    first-key statement fails on the second source and the
    [ProgrammingError] leaves [diff_table_data]: no verdict is returned and
    the second session stays in its aborted transaction. *)
Theorem key_column_missing_in_second_raises (self : DBDiff) (fuel : nat)
    (tablename : string) (pk : list string) (c1 : option Z) (t2 : table)
    (x : string) (st st1 : state) :
  validate self tablename st = (Val (inr pk), st1) ->
  sql_first_pk (firstdb self) tablename pk = Ok c1 ->
  assoc tablename (tables (seconddb self)) = Some t2 ->
  In x pk -> ~ In x (columns t2) ->
  diff_table_data md5 self fuel tablename st
  = (Exc ProgrammingError,
     mkState Active Aborted
       (Executed Second (SQL_QUERY_FIRST_PK tablename pk)
        :: Executed First (SQL_QUERY_FIRST_PK tablename pk)
        :: log (counted tablename st))).
Proof.
  intros V X1 E2 Hx Hnot.
  pose proof (validate_inr _ _ _ _ _ V) as Hv.
  destruct Hv as (_ & _ & _ & _ & _ & _ & _ & _ & _ & _ & _ & _ & ->).
  assert (X2 : sql_first_pk (seconddb self) tablename pk = Error ProgrammingError).
  { unfold sql_first_pk. rewrite E2. destruct pk as [|p rest]; [reflexivity|].
    destruct (forallb (fun c => str_in c (columns t2)) (p :: rest)) eqn:Ef;
      [|reflexivity].
    rewrite forallb_forall in Ef. apply Ef, str_in_In in Hx. now elim Hnot. }
  rewrite (diff_table_data_keys md5 self fuel tablename pk st _ V).
  unfold execute_first_pk.
  erewrite bind_val;
    [|apply session_execute_val; [apply healthy_counted | exact X1]].
  erewrite bind_exc; [reflexivity|].
  apply session_execute_exc; [intros [|]; discriminate | exact X2].
Qed.

(** X23.  A primary key of two or more columns is not compared.  The
    counts and the first keys are read; when they agree the first digest
    statement is sent with [WHERE a,b >= :cursor], which the server refuses,
    and the [ProgrammingError] leaves [diff_table_data] with the first
    session in an aborted transaction. *)
Theorem composite_key_raises (self : DBDiff) (fuel : nat) (tablename : string)
    (a b : string) (rest : list string) (c : option Z) (st st1 : state) :
  validate self tablename st = (Val (inr (a :: b :: rest)), st1) ->
  sql_first_pk (firstdb self) tablename (a :: b :: rest) = Ok c ->
  sql_first_pk (seconddb self) tablename (a :: b :: rest) = Ok c ->
  diff_table_data md5 self (S fuel) tablename st
  = (Exc ProgrammingError,
     mkState Aborted Active
       (Executed First (hash_stmt self tablename (a :: b :: rest) c)
        :: log (keyed tablename (a :: b :: rest) st))).
Proof.
  intros V X1 X2.
  destruct (first_key_is_least _ _ _ _ _ _ V X1)
    as (t1 & checked & p' & rest' & m & E1 & -> & _ & _ & _ & _ & -> & _).
  rewrite (diff_table_data_first_keys md5 self _ tablename _ _ _ st _
             (healthy_counted tablename st) V X1 X2).
  replace (scalar_eqb (Some m) (Some m)) with true
    by (symmetry; now apply scalar_eqb_eq).
  cbn [negb scan scalar_eqb]. unfold execute_hash.
  erewrite bind_exc; [reflexivity|].
  apply session_execute_exc; [intros [|]; discriminate|].
  unfold sql_template_hash. cbn [session_db]. now rewrite E1.
Qed.


End Escapes.

(** * The further properties on the fixtures *)

(** The first source has a table [notes], the second has not. *)
Lemma table_missing_iff_witness :
  assoc "notes" (tables Fixture.source_small) = None
  /\ diff_table_data Fixture.plain_digest
       (mkDBDiff Fixture.source_a Fixture.source_small 2 false (Some []))
       9 "notes" fresh
     = (Val (Some false, "table is missing"), fresh).
Proof.
  split; [reflexivity|].
  apply table_missing_iff. right. reflexivity.
Defined.

(** The Mismatch of the two ledgers comes from the digests at cursor 2. *)
Lemma mismatch_has_cause_witness :
  fst (diff_table_data Fixture.plain_digest (Sample.ledgers 2) 6 "ledger" fresh)
  = Val (Some false, "data is different - start_cursor 2 - with 2")
  /\ exists pk c h1 h2,
       hash_on Fixture.plain_digest (Sample.ledgers 2) "ledger" pk First c = Ok h1
       /\ hash_on Fixture.plain_digest (Sample.ledgers 2) "ledger" pk Second c = Ok h2
       /\ h1 <> h2
       /\ "data is different - start_cursor 2 - with 2"
          = data_differs (Sample.ledgers 2) c.
Proof.
  split; [reflexivity|].
  destruct (mismatch_has_cause Fixture.plain_digest (Sample.ledgers 2) 6 "ledger"
              "data is different - start_cursor 2 - with 2" fresh
              (snd (diff_table_data Fixture.plain_digest (Sample.ledgers 2) 6
                      "ledger" fresh)) eq_refl)
    as [(H & _)|[(t1 & t2 & _ & _ & _ & H)|[(pk & c1 & c2 & _ & _ & _ & H)|H]]].
  - discriminate H.
  - cbn in H. discriminate H.
  - discriminate H.
  - exact H.
Defined.

(** The Match of the ledger and its mirror: the checks passed and the first
    keys are the same. *)
Lemma match_has_cause_witness :
  fst (diff_table_data Fixture.plain_digest Sample.mirrored 6 "ledger" fresh)
  = Val (Some true, "data is identical.")
  /\ exists c,
       sql_first_pk Fixture.source_a "ledger" ["id"] = Ok c
       /\ sql_first_pk Fixture.source_mirror "ledger" ["id"] = Ok c.
Proof.
  split; [reflexivity|].
  destruct (match_has_cause Fixture.plain_digest Sample.mirrored 6 "ledger"
              "data is identical." fresh
              (snd (diff_table_data Fixture.plain_digest Sample.mirrored 6
                      "ledger" fresh)) eq_refl)
    as (t1 & t2 & E1 & _ & _ & _ & [(Hco & _)|(_ & _ & _ & _ & (c & X1 & X2 & _))]).
  - discriminate Hco.
  - cbn in E1. injection E1 as <-. now exists c.
Defined.

(** The table [notes] has no primary key: only the counts were asked. *)
Lemma inconclusive_has_cause_witness :
  fst (diff_table_data Fixture.plain_digest Fixture.differ 9 "notes" fresh)
  = Val (None, "no primary key(s) on this table. Comparison is not possible.")
  /\ snd (diff_table_data Fixture.plain_digest Fixture.differ 9 "notes" fresh)
     = counted "notes" fresh.
Proof.
  split; [reflexivity|].
  exact (proj1 (inconclusive_has_cause Fixture.plain_digest Fixture.differ 9 "notes"
                  "no primary key(s) on this table. Comparison is not possible."
                  fresh _ eq_refl)).
Defined.

(** The last row of the ledger is in a chunk that was compared. *)
Lemma match_covers_every_row_witness :
  fst (diff_table_data Fixture.plain_digest Sample.mirrored 6 "ledger" fresh)
  = Val (Some true, "data is identical.")
  /\ exists c h,
       In [3; 30] (chunk Sample.mirrored Fixture.ledger_a "id" c)
       /\ hash_on Fixture.plain_digest Sample.mirrored "ledger" ["id"] First c = Ok h
       /\ hash_on Fixture.plain_digest Sample.mirrored "ledger" ["id"] Second c = Ok h
       /\ In (Executed First (hash_stmt Sample.mirrored "ledger" ["id"] c))
            (log (snd (diff_table_data Fixture.plain_digest Sample.mirrored 6
                         "ledger" fresh)))
       /\ In (Executed Second (hash_stmt Sample.mirrored "ledger" ["id"] c))
            (log (snd (diff_table_data Fixture.plain_digest Sample.mirrored 6
                         "ledger" fresh))).
Proof.
  split; [reflexivity|].
  apply (match_covers_every_row Fixture.plain_digest Sample.mirrored 6 "ledger"
           Fixture.ledger_a "id" fresh
           (snd (diff_table_data Fixture.plain_digest Sample.mirrored 6 "ledger"
                   fresh))).
  - reflexivity.
  - reflexivity.
  - cbn. repeat constructor; cbn; intuition discriminate.
  - cbn. lia.
  - reflexivity.
  - symmetry. apply app_nil_r.
  - cbn. tauto.
Defined.

(** The two ledgers differ in their last row; with a chunk size of 1 the
    verdict is Match after one turn. *)
Lemma chunk_size_one_compares_first_row_only_witness :
  rows Fixture.ledger_a <> rows Fixture.ledger_b
  /\ diff_table_data Fixture.plain_digest (Sample.ledgers 1) 9 "ledger" fresh
     = (Val (Some true, "data is identical."),
        advanced (Sample.ledgers 1) "ledger" ["id"] (Some 1)
          (keyed "ledger" ["id"] fresh)).
Proof.
  split; [discriminate|].
  eapply (chunk_size_one_compares_first_row_only Fixture.plain_digest
            (Sample.ledgers 1) 7 "ledger" "id" (Some 1)); reflexivity.
Defined.



(** The table [events]: the first-key statement fails on the second source,
    whose session stays in its aborted transaction. *)
Lemma diff_table_data_health_witness :
  healthy fresh
  /\ fst (diff_table_data Fixture.plain_digest Fixture.differ 9 "events" fresh)
     = Exc ProgrammingError
  /\ ~ healthy (snd (diff_table_data Fixture.plain_digest Fixture.differ 9 "events"
                       fresh)).
Proof.
  split; [exact healthy_fresh|]. split; [reflexivity|].
  destruct (diff_table_data_health Fixture.plain_digest Fixture.differ 9 "events"
              (Exc ProgrammingError) fresh _ healthy_fresh eq_refl) as (_ & _ & H).
  apply H. now left.
Defined.

(** [events] sorts first: its exception ends the table phase before any
    other table is compared. *)
Lemma table_phase_stops_at_exception_witness :
  sorted (get_table_names Fixture.source_a)
  = ([] ++ "events" :: ["ledger"; "links"; "notes"])%list
  /\ fst (diff_all_table_data Fixture.plain_digest Fixture.differ 9 fresh)
     = Exc ProgrammingError.
Proof.
  split; [reflexivity|].
  rewrite (table_phase_stops_at_exception Fixture.plain_digest Fixture.differ 9
             [] ["ledger"; "links"; "notes"] "events" [] ProgrammingError fresh
             (add_log (Print "Starting table analysis.") fresh)
             (snd (diff_table_data Fixture.plain_digest Fixture.differ 9 "events"
                     (add_log (Print "Starting table analysis.") fresh)))
             eq_refl eq_refl eq_refl).
  reflexivity.
Defined.

(** A connection string with the scheme [postgresql://] is refused. *)
Lemma main_rejects_other_urls_witness :
  postgres_urls Sample.other_scheme = false
  /\ main Fixture.plain_digest Fixture.connect Sample.other_scheme 9 fresh
     = (Val 1,
        mkState Idle Idle
          [Print "Only Postgres DBs are supported"; Print "Using custom pgatadiff"]).
Proof.
  split; [reflexivity|].
  exact (main_rejects_other_urls Fixture.plain_digest Fixture.connect
           Sample.other_scheme 9 fresh eq_refl).
Defined.

(** The ledgers differ: [main] ends with the closing banner of the table
    phase. *)
Lemma table_mismatch_skips_sequences_witness :
  exists st1,
    main Fixture.plain_digest Sample.connect_changed Fixture.command_line 9 fresh
    = (Val 1, add_log (Print "Table analysis complete.") st1).
Proof.
  eexists.
  eapply (table_mismatch_skips_sequences Fixture.plain_digest Sample.connect_changed
            Fixture.command_line 9
            [(Some false, "data is different - start_cursor 2 - with 2")] fresh).
  - reflexivity.
  - reflexivity.
  - eexists. split; reflexivity.
  - apply Exists_cons_hd. reflexivity.
Defined.

(** With [--only-sequences] the run is the sequence phase. *)
Lemma flag_leaves_one_phase_witness :
  postgres_urls Sample.sequences_only = true
  /\ main Fixture.plain_digest Fixture.connect Sample.sequences_only 9 fresh
     = diff_all_sequences (differ_of Fixture.connect Sample.sequences_only)
         (greeted fresh).
Proof.
  split; [reflexivity|].
  exact (proj2 (flag_leaves_one_phase Fixture.plain_digest Fixture.connect
                  Sample.sequences_only 9 fresh eq_refl) eq_refl eq_refl).
Defined.


(** A run with exit status 0: no table was reported as Mismatch. *)
Lemma main_exit_status_witness :
  fst (main Fixture.plain_digest Fixture.connect Fixture.command_line 9 fresh)
  = Val 0
  /\ exists results s1,
       processed
         (diff_table_data Fixture.plain_digest
            (differ_of Fixture.connect Fixture.command_line) 9)
         (sorted (get_table_names (Fixture.connect
                                     (arg_firstdb Fixture.command_line))))
         results (add_log (Print "Starting table analysis.") (greeted fresh)) s1
       /\ Forall (fun r => ~ Mismatch r) results.
Proof.
  split; [reflexivity|].
  destruct (main_exit_status Fixture.plain_digest Fixture.connect
              Fixture.command_line 9 0 fresh _ eq_refl) as (_ & H0 & _).
  destruct (H0 eq_refl) as (_ & Ht & _). exact (Ht eq_refl).
Defined.

(** The sequence [s_gone] is in the second source only. *)
Lemma sequence_missing_in_first_witness :
  assoc "s_gone" (sequences Fixture.source_b) = None
  /\ assoc "s_gone" (sequences Fixture.source_a) = Some 9
  /\ diff_sequence (DBDiff_default Fixture.source_b Fixture.source_a) "s_gone" fresh
     = (Val (Some false, "sequence doesnt exist in second database."),
        mkState Idle Idle
          [RolledBack Second; RolledBack First;
           Executed First (GET_SEQUENCES_VALUE_SQL "s_gone")]).
Proof.
  split; [reflexivity|]. split; [reflexivity|].
  exact (sequence_missing_in_first
           (DBDiff_default Fixture.source_b Fixture.source_a) "s_gone" fresh
           healthy_fresh eq_refl).
Defined.



Lemma listing_order_is_irrelevant_witness :
  Permutation ["notes"; "ledger"] ["ledger"; "notes"]
  /\ sorted ["notes"; "ledger"] = sorted ["ledger"; "notes"].
Proof.
  split; [apply perm_swap|].
  apply listing_order_is_irrelevant. apply perm_swap.
Defined.

Lemma count_only_sends_counts_only_witness :
  count_only Fixture.differ_count_only = true
  /\ exists evs,
       log (snd (diff_table_data Fixture.plain_digest Fixture.differ_count_only 9
                   "ledger" fresh))
       = (evs ++ log fresh)%list
       /\ Forall (count_event "ledger") evs.
Proof.
  split; [reflexivity|].
  exact (count_only_sends_counts_only Fixture.plain_digest Fixture.differ_count_only
           9 "ledger" eq_refl fresh _ _ (surjective_pairing _)).
Defined.

(** The Mismatch of the two ledgers is no false alarm. *)
Lemma mismatch_means_content_differs_witness :
  fst (diff_table_data Fixture.plain_digest (Sample.ledgers 2) 6 "ledger" fresh)
  = Val (Some false, "data is different - start_cursor 2 - with 2")
  /\ ~ same_content Fixture.ledger_a Fixture.ledger_b "id"
         (hash_columns (Sample.ledgers 2) ["id"]).
Proof.
  split; [reflexivity|].
  apply (mismatch_means_content_differs Fixture.plain_digest (Sample.ledgers 2) 6
           "ledger" Fixture.ledger_a Fixture.ledger_b "id" []
           "data is different - start_cursor 2 - with 2" fresh
           (snd (diff_table_data Fixture.plain_digest (Sample.ledgers 2) 6 "ledger"
                   fresh)));
    try reflexivity; try discriminate; try exact healthy_fresh.
  - cbn. tauto.
  - cbn. tauto.
  - intros x [].
  - cbn. repeat constructor; cbn; intuition discriminate.
Defined.

(** The key column [id] of the first table [events] is named [key] in the
    second. *)
Lemma key_column_missing_in_second_raises_witness :
  ~ In "id" (columns Fixture.events_b)
  /\ diff_table_data Fixture.plain_digest Fixture.differ 9 "events" fresh
     = (Exc ProgrammingError,
        mkState Active Aborted
          (Executed Second (SQL_QUERY_FIRST_PK "events" ["id"])
           :: Executed First (SQL_QUERY_FIRST_PK "events" ["id"])
           :: log (counted "events" fresh))).
Proof.
  assert (Hnot : ~ In "id" (columns Fixture.events_b))
    by (cbn; intuition discriminate).
  split; [exact Hnot|].
  eapply (key_column_missing_in_second_raises Fixture.plain_digest Fixture.differ 9
            "events" ["id"] (Some 1) Fixture.events_b "id");
    try reflexivity; [now left | exact Hnot].
Defined.

(** The table [links] has the key [(a, b)] and the same rows in both
    sources. *)
Lemma composite_key_raises_witness :
  assoc "links" (tables (firstdb Fixture.differ))
  = assoc "links" (tables (seconddb Fixture.differ))
  /\ diff_table_data Fixture.plain_digest Fixture.differ 9 "links" fresh
     = (Exc ProgrammingError,
        mkState Aborted Active
          (Executed First (hash_stmt Fixture.differ "links" ["a"; "b"] (Some 1))
           :: log (keyed "links" ["a"; "b"] fresh))).
Proof.
  split; [reflexivity|].
  eapply (composite_key_raises Fixture.plain_digest Fixture.differ 8 "links"
            "a" "b" [] (Some 1)); reflexivity.
Defined.


